(** * Trading dashboard: mock state store, Binance futures adapter, settings route

    A shallow embedding of the statistics, trade-closing, symbol-formatting,
    quantity-formatting and settings-sanitising code of the dashboard
    (src/state.ts, src/binance/service.ts and the HTTP routing module),
    followed by the properties proved about it.

    Conventions of the embedding.
    - A JavaScript string is the list of its UTF-16 code units ([list N]).
    - A JavaScript number that the code keeps finite is a rational ([Q]):
      arithmetic is exact, so the binary64 rounding of the runtime is not
      represented.  Where the code itself introduces [Infinity] the extended
      type [number] is used.  A result of [Math.round] that the runtime may
      resolve the other way at a tie is stated as a nearest value
      ([Spec.rounded_to_integer], [Spec.rounded_to_cents]), not as the value
      exact arithmetic gives.
    - [toUpperCase] is the built-in on the ASCII range; statements about
      text that reaches it from a request are made for ASCII text
      ([Spec.ascii]).
    - Readings of the clock and of the random generator are explicit
      arguments of the functions that take them. *)

From Stdlib Require Import QArith Qround Qabs Lqa Lia ZArith NArith.
From Stdlib Require Import String Ascii.
From stdpp Require Import base option list gmap.

Local Open Scope Q_scope.

(** ** JavaScript built-ins used by the code *)

Module JS.

Abbreviation jsstring := (list N).

(** An ASCII literal as a list of code units. *)
Definition lit (s : String.string) : jsstring :=
  map N_of_ascii (list_ascii_of_string s).

(** [String.prototype.startsWith] *)
Fixpoint startsWith (s p : jsstring) : bool :=
  match p, s with
  | [], _ => true
  | _ :: _, [] => false
  | c :: p', d :: s' => (c =? d)%N && startsWith s' p'
  end.

(** [String.prototype.endsWith]: the search string is compared with the
    last [length q] code units; a longer search string never matches. *)
Definition endsWith (s q : jsstring) : bool :=
  (length q <=? length s)%nat
  && bool_decide (drop (length s - length q) s = q).

(** [String.prototype.includes] *)
Fixpoint includes (s sub : jsstring) : bool :=
  startsWith s sub
  || match s with
     | [] => false
     | _ :: s' => includes s' sub
     end.

(** [s.replace(c, by)] with a one-character string pattern: only the first
    occurrence is replaced. *)
Fixpoint replace_first (c : N) (by_ : jsstring) (s : jsstring) : jsstring :=
  match s with
  | [] => []
  | x :: s' => if (x =? c)%N then by_ ++ s' else x :: replace_first c by_ s'
  end.

(** [String.prototype.toUpperCase] on the ASCII range; code units outside
    ASCII are left as they are (the Unicode case tables are not modelled). *)
Definition upper_unit (c : N) : N :=
  if ((97 <=? c) && (c <=? 122))%N then (c - 32)%N else c.

Definition toUpperCase (s : jsstring) : jsstring := map upper_unit s.

(** [s.split(c)] with a one-character separator. *)
Fixpoint split (c : N) (s : jsstring) : list jsstring :=
  match s with
  | [] => [[]]
  | x :: s' =>
      if (x =? c)%N then [] :: split c s'
      else match split c s' with
           | h :: t => (x :: h) :: t
           | [] => [[x]]
           end
  end.

(** White space and line terminators of ECMAScript, as code units. *)
Definition is_white_space (c : N) : bool :=
  ((9 <=? c) && (c <=? 13)
   || (c =? 32) || (c =? 160) || (c =? 5760)
   || (8192 <=? c) && (c <=? 8202)
   || (c =? 8232) || (c =? 8233) || (c =? 8239) || (c =? 8287)
   || (c =? 12288) || (c =? 65279))%N.

Fixpoint dropWhile (p : N -> bool) (s : jsstring) : jsstring :=
  match s with
  | [] => []
  | x :: s' => if p x then dropWhile p s' else s
  end.

(** [String.prototype.trim] *)
Definition trim (s : jsstring) : jsstring :=
  rev (dropWhile is_white_space (rev (dropWhile is_white_space s))).

(** A string is falsy exactly when it is empty. *)
Definition truthy_string (s : jsstring) : bool :=
  match s with [] => false | _ => true end.

(** *** Numbers *)

(** Numbers with the non-finite values of IEEE arithmetic. *)
Inductive number : Type :=
| Fin (q : Q)
| PInf
| NInf
| NaN.

Definition Qltb (x y : Q) : bool := negb (Qle_bool y x).

(** [Math.max] and [Math.min] of two arguments. *)
Definition Math_max (a b : number) : number :=
  match a, b with
  | NaN, _ | _, NaN => NaN
  | PInf, _ | _, PInf => PInf
  | NInf, x | x, NInf => x
  | Fin x, Fin y => if Qle_bool x y then Fin y else Fin x
  end.

Definition Math_min (a b : number) : number :=
  match a, b with
  | NaN, _ | _, NaN => NaN
  | NInf, _ | _, NInf => NInf
  | PInf, x | x, PInf => x
  | Fin x, Fin y => if Qle_bool x y then Fin x else Fin y
  end.

(** [Math.max(a, b)] on finite numbers. *)
Definition Qmax (a b : Q) : Q := if Qle_bool a b then b else a.

(** [Math.round]: the nearest integer, a tie going up. *)
Definition Math_round (x : Q) : Z := Qfloor (x + (1 # 2)).

(** [Math.pow(10, p)] for a natural exponent. *)
Definition pow10 (p : nat) : Q := inject_Z (10 ^ Z.of_nat p).

(** *** Decimal output *)

Definition digit_char (d : N) : N := (48 + d)%N.

(** Decimal digits of a natural number, most significant first, no leading
    zero; [fuel] bounds the number of digits. *)
Fixpoint digits_fuel (fuel : nat) (n : N) : jsstring :=
  match fuel with
  | O => []
  | S f =>
      if (n <? 10)%N then [digit_char n]
      else digits_fuel f (n / 10) ++ [digit_char (n mod 10)]
  end.

Definition digits (n : N) : jsstring :=
  digits_fuel (S (N.to_nat (N.log2 n))) n.

(** The [k] least significant decimal digits, zero padded. *)
Fixpoint fixed_digits (k : nat) (m : N) : jsstring :=
  match k with
  | O => []
  | S k' => fixed_digits k' (m / 10) ++ [digit_char (m mod 10)]
  end.

(** [Number.prototype.toFixed(f)] for magnitudes below 10^21: the integer
    [n] nearest to [|x| * 10^f] (the larger one on a tie) is written with
    [f] digits after the point. *)
Definition toFixed (x : Q) (f : nat) : jsstring :=
  let a := if Qltb x 0 then - x else x in
  let n := Z.to_N (Qfloor (a * pow10 f + (1 # 2))) in
  let scale := (10 ^ N.of_nat f)%N in
  let body :=
    digits (n / scale)
    ++ match f with
       | O => []
       | S _ => lit "." ++ fixed_digits f (n mod scale)
       end in
  if Qltb x 0 then lit "-" ++ body else body.

(** [s.replace(re, '')] for a regular expression anchored at the end of
    the input ([...$], no flags): the match is the leftmost suffix
    accepted by [suffix_ok], and it is removed. *)
Fixpoint remove_suffix_match (suffix_ok : jsstring -> bool) (s : jsstring)
  : jsstring :=
  if suffix_ok s then []
  else match s with
       | [] => []
       | c :: r => c :: remove_suffix_match suffix_ok r
       end.

Definition all_zeros (s : jsstring) : bool := forallb (N.eqb 48) s.

(** Suffixes matched by [\.0+$], [0+$] and [\.$]. *)
Definition dot_zeros (s : jsstring) : bool :=
  match s with
  | c :: (_ :: _) as r => (c =? 46)%N && all_zeros r
  | _ => false
  end.

Definition some_zeros (s : jsstring) : bool :=
  match s with
  | [] => false
  | _ :: _ => all_zeros s
  end.

Definition lone_dot (s : jsstring) : bool :=
  match s with
  | [c] => (c =? 46)%N
  | _ => false
  end.

(** *** Values of a JSON payload *)

#[local] Set Warnings "-register-all".

Inductive jsval : Type :=
| VUndefined
| VNull
| VBool (b : bool)
| VNumber (n : number)
| VString (s : jsstring)
| VArray (items : list jsval)
| VObject (fields : list (jsstring * jsval)).

(** [Boolean(v)] *)
Definition Boolean (v : jsval) : bool :=
  match v with
  | VUndefined | VNull => false
  | VBool b => b
  | VNumber (Fin q) => negb (Qeq_bool q 0)
  | VNumber NaN => false
  | VNumber _ => true
  | VString s => truthy_string s
  | VArray _ | VObject _ => true
  end.


(** *** Further built-ins *)

(** [Math.min(a, b)] on finite numbers. *)
Definition Qmin (a b : Q) : Q := if Qle_bool a b then a else b.

(** [Math.max(lo, Math.min(hi, Math.round(x)))] *)
Definition clamp_round (lo hi : Z) (x : Q) : Z :=
  Z.max lo (Z.min hi (Math_round x)).

(** [value ?? fallback] on an optional property. *)
Definition nullish (v : option jsval) : bool :=
  match v with
  | None | Some VUndefined | Some VNull => true
  | _ => false
  end.


(** The number written by [x.toFixed(f)], that is [Number(x.toFixed(f))]:
    [|x|] rounded to [f] decimals (a tie going up), with the sign of [x]. *)
Definition toFixed_value (x : Q) (f : nat) : Q :=
  let a := if Qltb x 0 then - x else x in
  let r := inject_Z (Qfloor (a * pow10 f + (1 # 2))) / pow10 f in
  if Qltb x 0 then - r else r.

(** [s.repeat(n)] for a one-character string. *)
Definition repeat_unit (c : N) (n : nat) : jsstring := repeat c n.

(** *** Objects and JSON *)

(** The own property [name] of an object given by its fields (an object
    holds a name once). *)
Definition get_field (name : jsstring) (fields : list (jsstring * jsval))
  : option jsval :=
  match List.find (fun p => bool_decide (fst p = name)) fields with
  | Some p => Some (snd p)
  | None => None
  end.

(** [JSON.parse(JSON.stringify(v))] for a value inside an array or an
    object: [NaN] and the infinities become [null], so does [undefined] as
    an array element, and a field whose value is [undefined] is left out. *)
Fixpoint json_clone (v : jsval) : jsval :=
  match v with
  | VUndefined => VNull
  | VNull => VNull
  | VBool b => VBool b
  | VNumber (Fin q) => VNumber (Fin q)
  | VNumber _ => VNull
  | VString s => VString s
  | VArray items => VArray (List.map json_clone items)
  | VObject fields =>
      VObject
        ((fix clone_fields (l : list (jsstring * jsval)) :=
            match l with
            | [] => []
            | (_, VUndefined) :: rest => clone_fields rest
            | (name, x) :: rest => (name, json_clone x) :: clone_fields rest
            end) fields)
  end.

(** The clone of one field of an object: [None] when the field is left
    out. *)
Definition json_clone_field (v : jsval) : option jsval :=
  match v with
  | VUndefined => None
  | _ => Some (json_clone v)
  end.

End JS.

(** ** Shared schema: trades and activity-log entries *)

Module Schema.

Inductive TradeType : Type := long | short.
Inductive TradeStatus : Type := active | closed | pending | cancelled.
Inductive LogLevel : Type := info | warning | error | success.
Inductive PositionSide : Type := BOTH | LONG | SHORT.

Definition TradeStatus_eqb (a b : TradeStatus) : bool :=
  match a, b with
  | active, active | closed, closed | pending, pending
  | cancelled, cancelled => true
  | _, _ => false
  end.

End Schema.

Module Trade.
Import JS Schema.

Record t : Type := mk {
  id : jsstring;
  userId : jsstring;
  symbol : jsstring;
  type : TradeType;
  status : TradeStatus;
  entryPrice : Q;
  exitPrice : option Q;
  quantity : Q;
  leverage : Q;
  stopLoss : Q;
  takeProfit : Q;
  profit : option Q;
  profitPercent : option Q;
  entryTime : jsstring;
  exitTime : option jsstring;
  entrySignals : list jsstring;
  binanceOrderId : jsstring;
  trailingStopActive : bool;
  trailingStopPrice : option Q;
  highestPrice : option Q;
  lowestPrice : option Q;
  isAutoTrade : bool
}.

(** [trade.profit ?? 0] *)
Definition profit_or_0 (x : t) : Q := default 0 (profit x).

End Trade.

Module ActivityLog.
Import JS Schema.

Record t : Type := mk {
  id : jsstring;
  userId : jsstring;
  level : LogLevel;
  message : jsstring;
  details : option jsstring;
  timestamp : jsstring
}.

End ActivityLog.

(** ** Statistics records returned by both back ends *)

Module Stats.
Import JS.

Record Summary : Type := mkSummary {
  s_totalBalance : Q;
  s_todayProfit : Q;
  s_todayProfitPercent : Q;
  s_activeTrades : nat;
  s_successRate : Q
}.

(** The object [{ ...summary, totalTrades, winRate, ... }].  [bestTrade] and
    [worstTrade] come out of reductions that mention [Infinity], so they are
    kept in the extended type. *)
Record Detailed : Type := mkDetailed {
  totalBalance : Q;
  todayProfit : Q;
  todayProfitPercent : Q;
  activeTrades : nat;
  successRate : Q;
  totalTrades : nat;
  winRate : Q;
  avgProfit : Q;
  avgLoss : Q;
  bestTrade : number;
  worstTrade : number;
  totalVolume : Z
}.

(** A length used as a number. *)
Definition of_nat (n : nat) : Q := inject_Z (Z.of_nat n).

End Stats.

(** ** The mock state store (src/state.ts) *)

Module State.
Import JS Schema.

Module AccountPosition.
Inductive side_t : Type := LONG | SHORT.
Record t : Type := mk {
  symbol : jsstring;
  side : side_t;
  entryPrice : Q;
  quantity : Q;
  leverage : Q
}.
End AccountPosition.

Module AccountState.
Record t : Type := mk {
  connected : bool;
  totalBalance : Q;
  availableBalance : Q;
  message : option jsstring;
  error : option jsstring;
  positions : list AccountPosition.t
}.
End AccountState.

Module AutoTradingState.
Record t : Type := mk {
  enabled : bool;
  isRunning : bool
}.
End AutoTradingState.

Module MarketBase.
Record t : Type := mk {
  price : Q;
  priceChange24h : Q;
  high24h : Q;
  low24h : Q;
  volume24h : Q
}.
End MarketBase.

Module MarketSnapshot.
Record t : Type := mk {
  symbol : jsstring;
  price : Q;
  priceChange24h : Q;
  priceChangePercent24h : Q;
  high24h : Q;
  low24h : Q;
  volume24h : Q;
  timestamp : jsstring
}.
End MarketSnapshot.

(** The module-level [state] object.  Its [technical] and [aiPredictions]
    tables are read-only templates that none of the functions below reads or
    writes; they are left out. *)
Record Store : Type := mkStore {
  settings : gmap jsstring jsval;
  trades_active : list Trade.t;
  trades_history : list Trade.t;
  logs : list ActivityLog.t;
  market : gmap jsstring MarketBase.t;
  account : AccountState.t;
  autoTrading : AutoTradingState.t
}.

Definition userId : jsstring := lit "user-demo".

Definition MAX_LOGS : nat := 100.

(** What [addLog] reads from the environment:
    [Math.random().toString(36).slice(2, 10)] and
    [new Date().toISOString()]. *)
Record Stamp : Type := mkStamp {
  random36 : jsstring;
  now_iso : jsstring
}.

(** What one call of [closeTrade] reads from the environment: the function
    [v => Math.sin(Date.now() / 60000 + v)] at the time of the market
    snapshot, the time stamps of the snapshot and of the exit, and the
    readings of [addLog]. *)
Record CloseClock : Type := mkCloseClock {
  sine : Q -> Q;
  snapshot_iso : jsstring;
  exit_iso : jsstring;
  log_stamp : Stamp
}.

Definition round (value : Q) (precision : nat) : Q :=
  let factor := pow10 precision in
  inject_Z (Math_round (value * factor)) / factor.

Definition toSymbolKey (symbol : jsstring) : jsstring :=
  toUpperCase (replace_first 47 [] symbol).

Definition set_logs (st : Store) (l : list ActivityLog.t) : Store :=
  mkStore (settings st) (trades_active st) (trades_history st) l
          (market st) (account st) (autoTrading st).

Definition set_account (st : Store) (a : AccountState.t) : Store :=
  mkStore (settings st) (trades_active st) (trades_history st) (logs st)
          (market st) a (autoTrading st).

Definition set_trades_active (st : Store) (l : list Trade.t) : Store :=
  mkStore (settings st) l (trades_history st) (logs st)
          (market st) (account st) (autoTrading st).

Definition set_trades_history (st : Store) (l : list Trade.t) : Store :=
  mkStore (settings st) (trades_active st) l (logs st)
          (market st) (account st) (autoTrading st).

Definition addLog (k : Stamp) (st : Store) (level : LogLevel)
    (message : jsstring) (details : option jsstring)
  : ActivityLog.t * Store :=
  let log :=
    ActivityLog.mk (lit "log-" ++ random36 k) userId level message details
                   (now_iso k) in
  let unshifted := log :: logs st in
  let kept :=
    if (MAX_LOGS <? length unshifted)%nat then take MAX_LOGS unshifted
    else unshifted in
  (log, set_logs st kept).

Definition recordLog := addLog.

Definition jitter (sin_now : Q -> Q) (value variance : Q) : Q :=
  let offset := sin_now value * variance in
  value + offset.

Definition calculateProfit (trade : Trade.t) (exitPrice : Q) : Q * Q :=
  let direction :=
    match Trade.type trade with long => 1 | short => - (1) end in
  let profit :=
    (exitPrice - Trade.entryPrice trade) * Trade.quantity trade * direction in
  let basis := Trade.entryPrice trade * Trade.quantity trade in
  let profitPercent :=
    if Qeq_bool basis 0 then 0 else (profit / basis) * 100 in
  (round profit 2, round profitPercent 2).

Definition marginUsed (st : Store) : Q :=
  fold_left
    (fun acc position =>
       let notional :=
         AccountPosition.entryPrice position
         * AccountPosition.quantity position in
       let margin := notional / Qmax (AccountPosition.leverage position) 1 in
       acc + margin)
    (AccountState.positions (account st)) 0.

Definition syncAccountBalances (st : Store) : Store :=
  let used := marginUsed st in
  let a := account st in
  set_account st
    (AccountState.mk (AccountState.connected a) (AccountState.totalBalance a)
       (round (Qmax (AccountState.totalBalance a - used) 0) 2)
       (AccountState.message a) (AccountState.error a)
       (AccountState.positions a)).

(** [clone(value)] on the settings object: [JSON.parse(JSON.stringify(_))]. *)
Definition clone_settings (m : gmap jsstring jsval) : gmap jsstring jsval :=
  omap json_clone_field m.

Definition getSettings (st : Store) : gmap jsstring jsval :=
  clone_settings (settings st).

(** [updateSettings]; [Number] is the conversion [Number(value)] of a
    string, [input] the own properties of the payload.  The assignment
    [updated[key] = value] creates an own property of [updated], except for
    the key ['__proto__']: there it runs the setter inherited from
    [Object.prototype], which creates no property and, for an object value,
    makes that object the prototype of [updated].  The spread that merges
    [updated] copies own properties only, while the test
    [updated.autoTradingEnabled !== undefined] also reads an inherited
    one. *)
Definition updateSettings (Number : jsstring -> number) (k : Stamp)
    (st : Store) (input : gmap jsstring jsval)
  : gmap jsstring jsval * Store :=
  let updated : gmap jsstring jsval :=
    map_imap
      (fun key value =>
         match value with
         | VUndefined => None
         | _ =>
             if bool_decide (key = lit "__proto__") then None
             else
               match settings st !! key, value with
               | Some (VNumber _), VString s => Some (VNumber (Number s))
               | _, _ => Some value
               end
         end)
      input in
  let inherited : option jsval :=
    match input !! lit "__proto__" with
    | Some (VObject fields) => get_field (lit "autoTradingEnabled") fields
    | _ => None
    end in
  let merged := updated ∪ settings st in
  let auto :=
    match updated !! lit "autoTradingEnabled" with
    | Some v => AutoTradingState.mk (Boolean v) (Boolean v)
    | None =>
        match inherited with
        | None | Some VUndefined => autoTrading st
        | Some v => AutoTradingState.mk (Boolean v) (Boolean v)
        end
    end in
  let st1 :=
    mkStore merged (trades_active st) (trades_history st) (logs st)
            (market st) (account st) auto in
  let st2 :=
    snd (addLog k st1 success
           [1578; 1605; 32; 1578; 1581; 1583; 1610; 1579; 32; 1573; 1593;
            1583; 1575; 1583; 1575; 1578; 32; 1575; 1604; 1585; 1608; 1576;
            1608; 1578; 32; 1576; 1606; 1580; 1575; 1581]%N
           (Some [1578; 1605; 32; 1581; 1601; 1592; 32; 1575; 1604; 1578;
                  1593; 1583; 1610; 1604; 1575; 1578; 32; 1575; 1604; 1580;
                  1583; 1610; 1583; 1577; 32; 1601; 1610; 32; 1575; 1604;
                  1573; 1593; 1583; 1575; 1583; 1575; 1578]%N)) in
  (getSettings st2, st2).

Definition getMarketSnapshot (sin_now : Q -> Q) (iso : jsstring)
    (st : Store) (symbol : jsstring) : option MarketSnapshot.t :=
  let key := toSymbolKey symbol in
  match market st !! key with
  | None => None
  | Some base =>
      let drift := jitter sin_now 0 (MarketBase.price base * 0.0025) in
      let price := round (MarketBase.price base + drift) 2 in
      let referencePrice :=
        MarketBase.price base - MarketBase.priceChange24h base in
      let change := round (price - referencePrice) 2 in
      let percent :=
        if Qeq_bool referencePrice 0 then 0
        else round ((change / referencePrice) * 100) 2 in
      Some (MarketSnapshot.mk
              (take (length key - 4) key ++ lit "/"
               ++ drop (length key - 4) key)
              price change percent (MarketBase.high24h base)
              (MarketBase.low24h base) (MarketBase.volume24h base) iso)
  end.

Definition removePosition (symbolKey : jsstring) (st : Store) : Store :=
  let a := account st in
  match
    list_find (fun pos => AccountPosition.symbol pos = symbolKey)
              (AccountState.positions a)
  with
  | Some (index, _) =>
      set_account st
        (AccountState.mk (AccountState.connected a)
           (AccountState.totalBalance a) (AccountState.availableBalance a)
           (AccountState.message a) (AccountState.error a)
           (delete index (AccountState.positions a)))
  | None => st
  end.

Definition set_totalBalance (st : Store) (b : Q) : Store :=
  let a := account st in
  set_account st
    (AccountState.mk (AccountState.connected a) b
       (AccountState.availableBalance a) (AccountState.message a)
       (AccountState.error a) (AccountState.positions a)).

(** The record [{ ...trade, status: 'closed', exitPrice, exitTime, profit,
    profitPercent }]. *)
Definition closed_record (trade : Trade.t) (exitPrice : Q)
    (exitTime : jsstring) (profit profitPercent : Q) : Trade.t :=
  Trade.mk (Trade.id trade) (Trade.userId trade) (Trade.symbol trade)
    (Trade.type trade) closed (Trade.entryPrice trade) (Some exitPrice)
    (Trade.quantity trade) (Trade.leverage trade) (Trade.stopLoss trade)
    (Trade.takeProfit trade) (Some profit) (Some profitPercent)
    (Trade.entryTime trade) (Some exitTime) (Trade.entrySignals trade)
    (Trade.binanceOrderId trade) (Trade.trailingStopActive trade)
    (Trade.trailingStopPrice trade) (Trade.highestPrice trade)
    (Trade.lowestPrice trade) (Trade.isAutoTrade trade).

Definition closeTrade (k : CloseClock) (st : Store) (tradeId : jsstring)
  : option Trade.t * Store :=
  match list_find (fun trade => Trade.id trade = tradeId) (trades_active st) with
  | None => (None, st)
  | Some (tradeIndex, trade) =>
      let st1 := set_trades_active st (delete tradeIndex (trades_active st)) in
      let market :=
        getMarketSnapshot (sine k) (snapshot_iso k) st1
                          (toSymbolKey (Trade.symbol trade)) in
      let basePrice :=
        match market with
        | Some m => MarketSnapshot.price m
        | None => Trade.entryPrice trade
        end in
      let adjustment :=
        match Trade.type trade with long => 0.4 | short => - 0.4 end in
      let exitPrice := round (basePrice + adjustment) 2 in
      let '(profit, profitPercent) := calculateProfit trade exitPrice in
      let closedTrade :=
        closed_record trade exitPrice (exit_iso k) profit profitPercent in
      let st2 := set_trades_history st1 (closedTrade :: trades_history st1) in
      let st3 :=
        set_totalBalance st2
          (round (AccountState.totalBalance (account st2) + profit) 2) in
      let st4 := removePosition (toSymbolKey (Trade.symbol trade)) st3 in
      let st5 := syncAccountBalances st4 in
      let st6 :=
        snd (addLog (log_stamp k) st5
               (if Qle_bool 0 profit then success else warning)
               ([1578; 1605; 32; 1573; 1594; 1604; 1575; 1602; 32; 1589;
                 1601; 1602; 1577; 32]%N ++ Trade.symbol trade)
               (Some ([1575; 1604; 1585; 1576; 1581; 58; 32]%N
                      ++ toFixed profit 2 ++ lit "$ ("
                      ++ toFixed profitPercent 2 ++ lit "%)"))) in
      (Some closedTrade, st6)
  end.

(** The [forEach] of [closeAllTrades]: the [n]-th call of [closeTrade] reads
    the environment [clock n]. *)
Fixpoint closeAll_loop (clock : nat -> CloseClock) (n : nat)
    (currentlyActive : list Trade.t) (st : Store) (closed_ : list Trade.t)
  : list Trade.t * Store :=
  match currentlyActive with
  | [] => (closed_, st)
  | trade :: rest =>
      let '(result, st') := closeTrade (clock n) st (Trade.id trade) in
      closeAll_loop clock (S n) rest st'
        match result with
        | Some c => closed_ ++ [c]
        | None => closed_
        end
  end.

Definition closeAllTrades (clock : nat -> CloseClock) (st : Store)
  : list Trade.t * Store :=
  closeAll_loop clock 0%nat (trades_active st) st [].

(** [getSummaryStats]; [within_day exitTime] is the test
    [Date.now() - new Date(exitTime).getTime() <= 24 * 60 * 60 * 1000]. *)
Definition getSummaryStats (within_day : jsstring -> bool) (st : Store)
  : Stats.Summary :=
  let closedToday :=
    List.filter
      (fun trade =>
         match Trade.exitTime trade with
         | None => false
         | Some e => truthy_string e && within_day e
         end)
      (trades_history st) in
  let todayProfit :=
    fold_left (fun sum trade => sum + Trade.profit_or_0 trade) closedToday 0 in
  let totalClosed := length (trades_history st) in
  let winningTrades :=
    length (List.filter (fun trade => Qltb 0 (Trade.profit_or_0 trade))
                        (trades_history st)) in
  let successRate :=
    match totalClosed with
    | O => 0
    | S _ => (Stats.of_nat winningTrades / Stats.of_nat totalClosed) * 100
    end in
  let total := AccountState.totalBalance (account st) in
  Stats.mkSummary (round total 2) (round todayProfit 2)
    (round (if Qeq_bool total 0 then 0 else (todayProfit / total) * 100) 2)
    (length (trades_active st)) (round successRate 2).

Definition round_number (n : number) (precision : nat) : number :=
  match n with
  | Fin q => Fin (round q precision)
  | other => other
  end.

Definition getDetailedStats (within_day : jsstring -> bool) (st : Store)
  : Stats.Detailed :=
  let summary := getSummaryStats within_day st in
  let closedTrades := trades_history st in
  let totalTrades := (length closedTrades + length (trades_active st))%nat in
  let winningTrades :=
    List.filter (fun trade => Qltb 0 (Trade.profit_or_0 trade))
                closedTrades in
  let losingTrades :=
    List.filter (fun trade => Qltb (Trade.profit_or_0 trade) 0)
                closedTrades in
  let avgProfit :=
    match length winningTrades with
    | O => 0
    | S _ =>
        fold_left (fun sum trade => sum + Trade.profit_or_0 trade)
                  winningTrades 0
        / Stats.of_nat (length winningTrades)
    end in
  let avgLoss :=
    match length losingTrades with
    | O => 0
    | S _ =>
        Qabs (fold_left (fun sum trade => sum + Trade.profit_or_0 trade)
                        losingTrades 0
              / Stats.of_nat (length losingTrades))
    end in
  let bestTrade :=
    fold_left
      (fun max trade =>
         Math_max max (from_option Fin NInf (Trade.profit trade)))
      closedTrades (Fin 0) in
  let worstTrade :=
    fold_left
      (fun min trade =>
         Math_min min (from_option Fin PInf (Trade.profit trade)))
      closedTrades (Fin 0) in
  let totalVolume :=
    fold_left
      (fun sum trade =>
         let notional := Trade.entryPrice trade * Trade.quantity trade in
         sum + notional)
      closedTrades 0 in
  let winRate :=
    match length closedTrades with
    | O => 0
    | S _ =>
        (Stats.of_nat (length winningTrades)
         / Stats.of_nat (length closedTrades)) * 100
    end in
  Stats.mkDetailed
    (Stats.s_totalBalance summary) (Stats.s_todayProfit summary)
    (Stats.s_todayProfitPercent summary) (Stats.s_activeTrades summary)
    (Stats.s_successRate summary)
    totalTrades (round winRate 2) (round avgProfit 2) (round avgLoss 2)
    (round_number bestTrade 2) (round_number worstTrade 2)
    (Math_round totalVolume).

(** *** The seed data

    [iso_ago ms] stands for [new Date(now - ms).toISOString()], where [now]
    is the time at which the module was loaded. *)

Definition initialActiveTrades (iso_ago : Z -> jsstring) : list Trade.t :=
  [ Trade.mk (lit "trade-btc-long-active") (lit "user-demo") (lit "BTC/USDT") long active
      67250.45 None 0.35 5 65800 68950 None None
      (iso_ago 21600000%Z) None
      [(lit "RSI"); (lit "Breakout"); (lit "Volume Surge")]
      (lit "BN-874523") true (Some 66840) (Some 6.4) None true;
    Trade.mk (lit "trade-eth-short-active") (lit "user-demo") (lit "ETH/USDT") short active
      3185.6 None 4.5 4 3260 3050 None None
      (iso_ago 14400000%Z) None
      [(lit "MACD Cross"); (lit "RSI Divergence")]
      (lit "BN-874524") true (Some 3120) (Some 5.2) (Some (- 1.3)) true;
    Trade.mk (lit "trade-sol-long-active") (lit "user-demo") (lit "SOL/USDT") long active
      182.75 None 120 2 172 198 None None
      (iso_ago 2100000%Z) None
      [(lit "Trend Following"); (lit "Breakout")]
      (lit "BN-874525") false None (Some 3.9) (Some (- 0.8)) false ].

Definition initialHistoryTrades (iso_ago : Z -> jsstring) : list Trade.t :=
  [ Trade.mk (lit "trade-btc-long-1") (lit "user-demo") (lit "BTC/USDT") long closed
      65200.12 (Some 66840.55) 0.4 4 64000 67000 (Some 655.7) (Some 2.51)
      (iso_ago 172800000%Z) (Some (iso_ago 108000000%Z))
      [(lit "RSI"); (lit "Momentum")]
      (lit "BN-873100") true (Some 66450) (Some 4.8) (Some (- 0.9)) true;
    Trade.mk (lit "trade-eth-short-1") (lit "user-demo") (lit "ETH/USDT") short closed
      3280.4 (Some 3162.8) 3.2 3 3340 3100 (Some 376.99) (Some 3.59)
      (iso_ago 288000000%Z) (Some (iso_ago 180000000%Z))
      [(lit "MACD Cross"); (lit "Order Flow")]
      (lit "BN-873101") false None (Some 3.2) (Some (- 1.1)) true;
    Trade.mk (lit "trade-bnb-long-1") (lit "user-demo") (lit "BNB/USDT") long closed
      512.25 (Some 498.1) 25 2 490 540 (Some (- 353.75)) (Some (- 2.76))
      (iso_ago 432000000%Z) (Some (iso_ago 345600000%Z))
      [(lit "Trend"); (lit "Volume Spike")]
      (lit "BN-873102") false None (Some 2.5) (Some (- 3.4)) false;
    Trade.mk (lit "trade-sol-long-1") (lit "user-demo") (lit "SOL/USDT") long closed
      165.4 (Some 179.2) 80 2 158 182 (Some 1101.6) (Some 8.33)
      (iso_ago 345600000%Z) (Some (iso_ago 288000000%Z))
      [(lit "Breakout"); (lit "RSI")]
      (lit "BN-873103") true (Some 172) (Some 7.5) (Some (- 0.5)) false;
    Trade.mk (lit "trade-xrp-short-1") (lit "user-demo") (lit "XRP/USDT") short closed
      0.62 (Some 0.59) 1200 3 0.64 0.58 (Some 108) (Some 4.35)
      (iso_ago 216000000%Z) (Some (iso_ago 115200000%Z))
      [(lit "Order Block"); (lit "Volume Divergence")]
      (lit "BN-873104") false None (Some 4.9) (Some (- 1.9)) true ].

Definition initialLogs (iso_ago : Z -> jsstring) : list ActivityLog.t :=
  [ ActivityLog.mk (lit "log-setup") (lit "user-demo") info
      [1578; 1605; 32; 1578; 1607; 1610; 1574; 1577; 32; 1585; 1608; 1576; 1608; 1578; 32; 1575; 1604; 1578; 1583; 1575; 1608; 1604; 32; 1576; 1606; 1580; 1575; 1581]%N
      (Some [1578; 1605; 32; 1578; 1581; 1605; 1610; 1604; 32; 1575; 1604; 1573; 1593; 1583; 1575; 1583; 1575; 1578; 32; 1575; 1604; 1575; 1601; 1578; 1585; 1575; 1590; 1610; 1577; 32; 1604; 1604; 1605; 1606; 1589; 1577]%N)
      (iso_ago 86400000%Z);
    ActivityLog.mk (lit "log-connection") (lit "user-demo") success
      [1578; 1605; 32; 1575; 1604; 1575; 1578; 1589; 1575; 1604; 32; 1576; 1600; 32; 66; 105; 110; 97; 110; 99; 101; 32; 40; 84; 101; 115; 116; 110; 101; 116; 41]%N
      (Some [1578; 1605; 32; 1575; 1604; 1578; 1581; 1602; 1602; 32; 1605; 1606; 32; 1605; 1601; 1575; 1578; 1610; 1581; 32; 65; 80; 73; 32; 1608; 1573; 1593; 1583; 1575; 1583; 1575; 1578; 32; 1575; 1604; 1588; 1576; 1603; 1577; 32; 1575; 1604; 1578; 1580; 1585; 1610; 1576; 1610; 1577]%N)
      (iso_ago 64800000%Z);
    ActivityLog.mk (lit "log-trade-open") (lit "user-demo") info
      [1578; 1605; 32; 1601; 1578; 1581; 32; 1589; 1601; 1602; 1577; 32; 1588; 1585; 1575; 1569; 32; 1593; 1604; 1609; 32; 66; 84; 67; 47; 85; 83; 68; 84]%N
      (Some [1606; 1587; 1576; 1577; 32; 1575; 1604; 1605; 1582; 1575; 1591; 1585; 1577; 32; 49; 46; 53; 37; 1548; 32; 1578; 1605; 32; 1578; 1601; 1593; 1610; 1604; 32; 1575; 1604; 1608; 1602; 1601; 32; 1575; 1604; 1605; 1578; 1581; 1585; 1603]%N)
      (iso_ago 21600000%Z);
    ActivityLog.mk (lit "log-auto-trading") (lit "user-demo") success
      [1578; 1605; 32; 1578; 1605; 1603; 1610; 1606; 32; 1575; 1604; 1578; 1583; 1575; 1608; 1604; 32; 1575; 1604; 1570; 1604; 1610]%N
      (Some [1578; 1605; 32; 1578; 1601; 1593; 1610; 1604; 32; 1575; 1587; 1578; 1585; 1575; 1578; 1610; 1580; 1610; 1577; 32; 77; 117; 108; 116; 105; 45; 84; 105; 109; 101; 102; 114; 97; 109; 101; 32; 1608; 32; 65; 73; 32; 84; 114; 97; 100; 105; 110; 103]%N)
      (iso_ago 14400000%Z);
    ActivityLog.mk (lit "log-warning") (lit "user-demo") warning
      [1575; 1585; 1578; 1601; 1575; 1593; 32; 1601; 1610; 32; 1578; 1602; 1604; 1576; 1575; 1578; 32; 83; 79; 76; 47; 85; 83; 68; 84]%N
      (Some [1578; 1605; 32; 1590; 1576; 1591; 32; 1575; 1604; 1608; 1602; 1601; 32; 1575; 1604; 1605; 1578; 1581; 1585; 1603; 32; 1593; 1606; 1583; 32; 49; 55; 57; 46; 50; 48; 32; 1604; 1578; 1602; 1604; 1610; 1604; 32; 1575; 1604; 1605; 1582; 1575; 1591; 1585]%N)
      (iso_ago 2700000%Z);
    ActivityLog.mk (lit "log-signal") (lit "user-demo") info
      [1573; 1588; 1575; 1585; 1577; 32; 65; 73; 32; 1602; 1608; 1610; 1577; 32; 1593; 1604; 1609; 32; 69; 84; 72; 47; 85; 83; 68; 84]%N
      (Some [1606; 1587; 1576; 1577; 32; 1575; 1604; 1579; 1602; 1577; 32; 56; 50; 37; 32; 1576; 1606; 1575; 1569; 1611; 32; 1593; 1604; 1609; 32; 1578; 1581; 1604; 1610; 1604; 32; 1575; 1604; 1586; 1582; 1605]%N)
      (iso_ago 1200000%Z) ].

Definition marketBaselines : gmap jsstring MarketBase.t :=
  list_to_map
    [ ((lit "BTCUSDT"), MarketBase.mk 67420 520 68450 66180 28500000000);
      ((lit "ETHUSDT"), MarketBase.mk 3175 (- 85) 3290 3120 15800000000);
      ((lit "BNBUSDT"), MarketBase.mk 502 (- 8.5) 515 496 1840000000);
      ((lit "SOLUSDT"), MarketBase.mk 188 6.4 195 178 3200000000);
      ((lit "XRPUSDT"), MarketBase.mk 0.6 0.018 0.62 0.58 1200000000) ].

Definition accountState : AccountState.t :=
  AccountState.mk true 125400 87200
    (Some [1610; 1578; 1605; 32; 1578; 1581; 1583; 1610; 1579; 32; 1576; 1610; 1575; 1606; 1575; 1578; 32; 1575; 1604; 1581; 1587; 1575; 1576; 32; 1603; 1604; 32; 49; 48; 32; 1579; 1608; 1575; 1606; 1613; 46]%N) None
    [ AccountPosition.mk (lit "BTCUSDT") AccountPosition.LONG 67250.45 0.35 5;
      AccountPosition.mk (lit "ETHUSDT") AccountPosition.SHORT 3185.6 4.5 4;
      AccountPosition.mk (lit "SOLUSDT") AccountPosition.LONG 182.75 120 2 ].

Definition defaultSettings : gmap jsstring jsval :=
  list_to_map
    [ ((lit "id"), VString (lit "settings-demo"));
      ((lit "userId"), VString (lit "user-demo"));
      ((lit "binanceApiKey"), VString (lit "demo-api-key"));
      ((lit "binanceApiSecret"), VString (lit "demo-secret"));
      ((lit "customApiUrl"), VString (lit "https://demo.bot-enhancer.api"));
      ((lit "isTestnet"), VBool true);
      ((lit "isActive"), VBool true);
      ((lit "hedgingMode"), VBool true);
      ((lit "maxRiskPerTrade"), VNumber (Fin 1.5));
      ((lit "riskRewardRatio"), VNumber (Fin 2.2));
      ((lit "maShortPeriod"), VNumber (Fin 21));
      ((lit "maLongPeriod"), VNumber (Fin 200));
      ((lit "rsiPeriod"), VNumber (Fin 14));
      ((lit "rsiOverbought"), VNumber (Fin 70));
      ((lit "rsiOversold"), VNumber (Fin 30));
      ((lit "macdFast"), VNumber (Fin 12));
      ((lit "macdSlow"), VNumber (Fin 26));
      ((lit "macdSignal"), VNumber (Fin 9));
      ((lit "tradingPairs"), VArray [VString (lit "BTC/USDT"); VString (lit "ETH/USDT"); VString (lit "BNB/USDT"); VString (lit "SOL/USDT"); VString (lit "XRP/USDT")]);
      ((lit "telegramBotToken"), VString (lit "demo-telegram-token"));
      ((lit "telegramChatId"), VString (lit "123456789"));
      ((lit "emailNotifications"), VBool true);
      ((lit "notificationEmail"), VString (lit "alerts@bot-enhancer.ai"));
      ((lit "autoTradingEnabled"), VBool true);
      ((lit "minSignalStrength"), VNumber (Fin 70));
      ((lit "maxDailyTrades"), VNumber (Fin 12));
      ((lit "tradeCooldownMinutes"), VNumber (Fin 15));
      ((lit "trailingStopEnabled"), VBool true);
      ((lit "trailingStopPercent"), VNumber (Fin 0.8));
      ((lit "trailingStopActivationPercent"), VNumber (Fin 1.2));
      ((lit "multiTimeframeEnabled"), VBool true);
      ((lit "timeframes"), VArray [VString (lit "15m"); VString (lit "1h"); VString (lit "4h")]);
      ((lit "weeklyReportEnabled"), VBool true);
      ((lit "monthlyReportEnabled"), VBool true);
      ((lit "reportDay"), VNumber (Fin 0));
      ((lit "aiTradingEnabled"), VBool true);
      ((lit "aiMinConfidence"), VNumber (Fin 75));
      ((lit "aiMinSignalStrength"), VNumber (Fin 65));
      ((lit "aiRequiredSignals"), VNumber (Fin 3));
      ((lit "advancedStrategiesEnabled"), VBool true);
      ((lit "enabledStrategies"), VArray [VString (lit "breakout"); VString (lit "momentum"); VString (lit "meanReversion"); VString (lit "swing")]);
      ((lit "strategyMinConfidence"), VNumber (Fin 62));
      ((lit "strategyMinStrength"), VNumber (Fin 54));
      ((lit "requireStrategyConsensus"), VBool false);
      ((lit "breakoutLookbackPeriod"), VNumber (Fin 20));
      ((lit "breakoutThreshold"), VNumber (Fin 1.6));
      ((lit "breakoutVolumeMultiplier"), VNumber (Fin 1.5));
      ((lit "scalpingProfitTarget"), VNumber (Fin 0.45));
      ((lit "scalpingStopLoss"), VNumber (Fin 0.25));
      ((lit "scalpingMaxHoldingPeriod"), VNumber (Fin 12));
      ((lit "momentumLookbackPeriod"), VNumber (Fin 14));
      ((lit "momentumThreshold"), VNumber (Fin 1.8));
      ((lit "meanReversionBollingerPeriod"), VNumber (Fin 20));
      ((lit "meanReversionBollingerStdDev"), VNumber (Fin 2));
      ((lit "meanReversionOversoldLevel"), VNumber (Fin 25));
      ((lit "meanReversionOverboughtLevel"), VNumber (Fin 75));
      ((lit "swingPeriod"), VNumber (Fin 10));
      ((lit "swingMinSize"), VNumber (Fin 2.2));
      ((lit "swingConfirmationCandles"), VNumber (Fin 3));
      ((lit "gridLevels"), VNumber (Fin 6));
      ((lit "gridSpacing"), VNumber (Fin 0.9));
      ((lit "gridOrderSize"), VNumber (Fin 50));
      ((lit "smartPositionSizingEnabled"), VBool true);
      ((lit "atrPeriod"), VNumber (Fin 14));
      ((lit "atrMultiplier"), VNumber (Fin 1.7));
      ((lit "maxPositionPercent"), VNumber (Fin 12));
      ((lit "minPositionPercent"), VNumber (Fin 1.2));
      ((lit "volatilityAdjustment"), VBool true);
      ((lit "marketFilterEnabled"), VBool true);
      ((lit "avoidHighVolatility"), VBool true);
      ((lit "maxVolatilityPercent"), VNumber (Fin 4));
      ((lit "trendFilterEnabled"), VBool true);
      ((lit "minTrendStrength"), VNumber (Fin 32));
      ((lit "avoidRangingMarket"), VBool true);
      ((lit "accountProtectionEnabled"), VBool true);
      ((lit "maxDailyLossPercent"), VNumber (Fin 3));
      ((lit "maxConcurrentTrades"), VNumber (Fin 4));
      ((lit "pauseAfterConsecutiveLosses"), VNumber (Fin 2));
      ((lit "diversificationEnabled"), VBool true) ].

Definition autoTradingState : AutoTradingState.t :=
  AutoTradingState.mk true true.

Definition initial_state (iso_ago : Z -> jsstring) : Store :=
  mkStore defaultSettings (initialActiveTrades iso_ago)
          (initialHistoryTrades iso_ago) (initialLogs iso_ago)
          marketBaselines accountState autoTradingState.


(** *** Control operations and read accessors *)

Definition getAutoTradingStatus (st : Store) : AutoTradingState.t :=
  autoTrading st.

Definition startAutoTrading (k : Stamp) (st : Store) : Store :=
  let st1 :=
    mkStore (<[lit "autoTradingEnabled" := VBool true]> (settings st))
            (trades_active st) (trades_history st) (logs st) (market st)
            (account st) (AutoTradingState.mk true true) in
  snd (addLog k st1 success
         [1578; 1605; 32; 1578; 1588; 1594; 1610; 1604; 32; 1575; 1604; 1578;
          1583; 1575; 1608; 1604; 32; 1575; 1604; 1578; 1604; 1602; 1575;
          1574; 1610]%N
         (Some [1587; 1610; 1576; 1583; 1571; 32; 1575; 1604; 1585; 1608;
                1576; 1608; 1578; 32; 1601; 1610; 32; 1605; 1585; 1575; 1602;
                1576; 1577; 32; 1575; 1604; 1573; 1588; 1575; 1585; 1575;
                1578; 32; 1608; 1578; 1606; 1601; 1610; 1584; 32; 1575; 1604;
                1589; 1601; 1602; 1575; 1578]%N)).

Definition stopAutoTrading (k : Stamp) (st : Store) : Store :=
  let st1 :=
    mkStore (<[lit "autoTradingEnabled" := VBool false]> (settings st))
            (trades_active st) (trades_history st) (logs st) (market st)
            (account st)
            (AutoTradingState.mk (AutoTradingState.enabled (autoTrading st))
                                 false) in
  snd (addLog k st1 warning
         [1578; 1605; 32; 1573; 1610; 1602; 1575; 1601; 32; 1575; 1604; 1578;
          1583; 1575; 1608; 1604; 32; 1575; 1604; 1578; 1604; 1602; 1575;
          1574; 1610]%N
         (Some [1604; 1606; 32; 1610; 1578; 1605; 32; 1601; 1578; 1581; 32;
                1589; 1601; 1602; 1575; 1578; 32; 1580; 1583; 1610; 1583;
                1577; 32; 1578; 1604; 1602; 1575; 1574; 1610; 1611; 1575; 32;
                1581; 1578; 1609; 32; 1610; 1578; 1605; 32; 1573; 1593; 1575;
                1583; 1577; 32; 1578; 1588; 1594; 1610; 1604; 1607]%N)).

(** [toggleBotActive]: the flag becomes [!state.settings.isActive], and the
    new flag is returned. *)
Definition toggleBotActive (k : Stamp) (st : Store) : bool * Store :=
  let isActive :=
    negb (Boolean (default VUndefined (settings st !! lit "isActive"))) in
  let st1 :=
    mkStore (<[lit "isActive" := VBool isActive]> (settings st))
            (trades_active st) (trades_history st) (logs st) (market st)
            (account st) (autoTrading st) in
  let st2 :=
    snd (addLog k st1
           (if isActive then success else warning)
           (if isActive
            then [1578; 1605; 32; 1578; 1601; 1593; 1610; 1604; 32; 1575;
                  1604; 1585; 1608; 1576; 1608; 1578]%N
            else [1578; 1605; 32; 1573; 1610; 1602; 1575; 1601; 32; 1575;
                  1604; 1585; 1608; 1576; 1608; 1578]%N)
           (Some (if isActive
                  then [1587; 1610; 1587; 1578; 1571; 1606; 1601; 32; 1575;
                        1604; 1585; 1608; 1576; 1608; 1578; 32; 1605; 1585;
                        1575; 1602; 1576; 1577; 32; 1601; 1585; 1589; 32;
                        1575; 1604; 1578; 1583; 1575; 1608; 1604]%N
                  else [1578; 1608; 1602; 1601; 32; 1578; 1606; 1601; 1610;
                        1584; 32; 1575; 1604; 1573; 1588; 1575; 1585; 1575;
                        1578; 32; 1578; 1604; 1602; 1575; 1574; 1610; 1611;
                        1575]%N))) in
  (isActive, st2).

Definition getActiveTrades (st : Store) : list Trade.t := trades_active st.

Module PositionWithPnl.
Record t : Type := mk {
  position : AccountPosition.t;
  unrealizedPnl : Q
}.
End PositionWithPnl.

(** [getAccountInfo]: the account with [unrealizedPnl] added to every
    position.  The snapshot taken for the [n]-th position reads the
    environment [(sines n, isos n)]. *)
Fixpoint positionsWithPnl (sines : nat -> Q -> Q) (isos : nat -> jsstring)
    (st : Store) (n : nat) (positions : list AccountPosition.t)
  : list PositionWithPnl.t :=
  match positions with
  | [] => []
  | position :: rest =>
      let market :=
        getMarketSnapshot (sines n) (isos n) st
                          (AccountPosition.symbol position) in
      let currentPrice :=
        match market with
        | Some m => MarketSnapshot.price m
        | None => AccountPosition.entryPrice position
        end in
      let direction :=
        match AccountPosition.side position with
        | AccountPosition.LONG => 1
        | AccountPosition.SHORT => - (1)
        end in
      let profit :=
        (currentPrice - AccountPosition.entryPrice position)
        * AccountPosition.quantity position * direction in
      PositionWithPnl.mk position (round profit 2)
      :: positionsWithPnl sines isos st (S n) rest
  end.

Definition getAccountInfo (sines : nat -> Q -> Q) (isos : nat -> jsstring)
    (st : Store) : AccountState.t * list PositionWithPnl.t :=
  (account st,
   positionsWithPnl sines isos st 0%nat (AccountState.positions (account st))).


(** *** Technical analysis *)

Inductive Signal : Type := buy | sell | hold.

Module TechnicalAnalysis.
Record rsi_t : Type := mkRsi { rsi_value : Q; rsi_signal : Signal }.
Record macd_t : Type := mkMacd {
  macd_value : Q;
  macd_signal : Signal;
  histogram : Q
}.
Record ma_t : Type := mkMa { ma_signal : Signal; shortMA : Q; longMA : Q }.
Record t : Type := mk {
  symbol : jsstring;
  currentPrice : Q;
  rsi : rsi_t;
  macd : macd_t;
  ma : ma_t;
  overallSignal : Signal;
  signalStrength : Q
}.
End TechnicalAnalysis.

(** The text [`${key.slice(0, -4)}/${key.slice(-4)}`]. *)
Definition slash_before_last4 (key : jsstring) : jsstring :=
  take (length key - 4) key ++ lit "/" ++ drop (length key - 4) key.

(** [getTechnicalAnalysis]; [technical] is the table [state.technical],
    which no function writes.  The function reads the clock seven times:
    [sines 0] in the market snapshot, [sines 1] to [sines 6] in the six
    calls of [jitter], in the order of the source. *)
Definition getTechnicalAnalysis
    (technical : gmap jsstring TechnicalAnalysis.t)
    (sines : nat -> Q -> Q) (iso : jsstring) (st : Store)
    (symbol : jsstring) : option TechnicalAnalysis.t :=
  let key := toSymbolKey symbol in
  let template := technical !! key in
  let market := getMarketSnapshot (sines 0%nat) iso st key in
  match template, market with
  | None, None => None
  | _, _ =>
      let market_price (fallback : Q) : Q :=
        match market with
        | Some m => MarketSnapshot.price m
        | None => fallback
        end in
      let base :=
        match template with
        | Some t => t
        | None =>
            TechnicalAnalysis.mk (slash_before_last4 key) (market_price 0)
              (TechnicalAnalysis.mkRsi 50 hold)
              (TechnicalAnalysis.mkMacd 0 hold 0)
              (TechnicalAnalysis.mkMa hold (market_price 0) (market_price 0))
              hold 50
        end in
      Some
        (TechnicalAnalysis.mk
           (slash_before_last4 key)
           (market_price (TechnicalAnalysis.currentPrice base))
           (TechnicalAnalysis.mkRsi
              (round
                 (jitter (sines 1%nat)
                    (TechnicalAnalysis.rsi_value (TechnicalAnalysis.rsi base))
                    1.5) 2)
              (TechnicalAnalysis.rsi_signal (TechnicalAnalysis.rsi base)))
           (TechnicalAnalysis.mkMacd
              (round
                 (jitter (sines 2%nat)
                    (TechnicalAnalysis.macd_value
                       (TechnicalAnalysis.macd base))
                    1.8) 2)
              (TechnicalAnalysis.macd_signal (TechnicalAnalysis.macd base))
              (round
                 (jitter (sines 3%nat)
                    (TechnicalAnalysis.histogram
                       (TechnicalAnalysis.macd base))
                    1.2) 2))
           (TechnicalAnalysis.mkMa
              (TechnicalAnalysis.ma_signal (TechnicalAnalysis.ma base))
              (round
                 (jitter (sines 4%nat)
                    (TechnicalAnalysis.shortMA (TechnicalAnalysis.ma base))
                    20) 2)
              (round
                 (jitter (sines 5%nat)
                    (TechnicalAnalysis.longMA (TechnicalAnalysis.ma base))
                    15) 2))
           (TechnicalAnalysis.overallSignal base)
           (inject_Z
              (clamp_round 0 100
                 (jitter (sines 6%nat)
                    (TechnicalAnalysis.signalStrength base) 3))))
  end.


(** *** AI predictions *)

Inductive MarketRegime : Type :=
  trending_up | trending_down | ranging | volatile.
Inductive RiskLevel : Type := low | medium | high.
Inductive Outlook : Type := bullish | bearish | neutral.

Module AISignal.
Record t : Type := mk {
  signal : Signal;
  strength : Q;
  confidence : Q;
  description : jsstring
}.
End AISignal.

Module PatternResult.
Record t : Type := mk {
  pattern : jsstring;
  signal : Signal;
  strength : Q;
  description : jsstring
}.
End PatternResult.

Module AIPrediction.
Record predictions_t : Type := mkPredictions {
  patternRecognition : AISignal.t;
  momentumAnalysis : AISignal.t;
  volatilityAnalysis : AISignal.t;
  trendStrength : AISignal.t;
  priceAction : AISignal.t
}.
Record t : Type := mk {
  overallSignal : Signal;
  confidence : Q;
  signalStrength : Q;
  predictions : predictions_t;
  detectedPatterns : list PatternResult.t;
  marketRegime : MarketRegime;
  riskLevel : RiskLevel;
  shortTermPrediction : Outlook;
  mediumTermPrediction : Outlook
}.
End AIPrediction.

Module PredictionData.
Record t : Type := mk {
  symbol : jsstring;
  currentPrice : Q;
  prediction : AIPrediction.t
}.
End PredictionData.

(** One [AISignal] with its strength and confidence perturbed and clamped to
    20..95; the two calls of [jitter] read [sines n] and [sines (n + 1)]. *)
Definition jitter_signal (sines : nat -> Q -> Q) (n : nat) (s : AISignal.t)
  : AISignal.t :=
  AISignal.mk (AISignal.signal s)
    (inject_Z (clamp_round 20 95 (jitter (sines n) (AISignal.strength s) 3)))
    (inject_Z
       (clamp_round 20 95 (jitter (sines (S n)) (AISignal.confidence s) 3)))
    (AISignal.description s).

(** The callback of [state.aiPredictions[key].map(...)]: thirteen readings
    of the clock, [sines n] for the market snapshot and [sines (n + 1)] to
    [sines (n + 12)] for the calls of [jitter]. *)
Definition jitter_prediction (sines : nat -> Q -> Q) (iso : jsstring)
    (st : Store) (n : nat) (prediction : PredictionData.t)
  : PredictionData.t :=
  let market :=
    getMarketSnapshot (sines n) iso st
                      (toSymbolKey (PredictionData.symbol prediction)) in
  let basePrediction := PredictionData.prediction prediction in
  let sub := AIPrediction.predictions basePrediction in
  PredictionData.mk (PredictionData.symbol prediction)
    match market with
    | Some m => MarketSnapshot.price m
    | None => PredictionData.currentPrice prediction
    end
    (AIPrediction.mk (AIPrediction.overallSignal basePrediction)
       (inject_Z
          (clamp_round 40 95
             (jitter (sines (n + 1)%nat)
                     (AIPrediction.confidence basePrediction) 3)))
       (inject_Z
          (clamp_round 30 90
             (jitter (sines (n + 2)%nat)
                     (AIPrediction.signalStrength basePrediction) 4)))
       (AIPrediction.mkPredictions
          (jitter_signal sines (n + 3) (AIPrediction.patternRecognition sub))
          (jitter_signal sines (n + 5) (AIPrediction.momentumAnalysis sub))
          (jitter_signal sines (n + 7) (AIPrediction.volatilityAnalysis sub))
          (jitter_signal sines (n + 9) (AIPrediction.trendStrength sub))
          (jitter_signal sines (n + 11) (AIPrediction.priceAction sub)))
       (AIPrediction.detectedPatterns basePrediction)
       (AIPrediction.marketRegime basePrediction)
       (AIPrediction.riskLevel basePrediction)
       (AIPrediction.shortTermPrediction basePrediction)
       (AIPrediction.mediumTermPrediction basePrediction)).

Fixpoint jitter_predictions (sines : nat -> Q -> Q) (iso : jsstring)
    (st : Store) (n : nat) (l : list PredictionData.t)
  : list PredictionData.t :=
  match l with
  | [] => []
  | p :: rest =>
      jitter_prediction sines iso st n p
      :: jitter_predictions sines iso st (n + 13) rest
  end.

Module PredictionsEnvelope.
Record t : Type := mk {
  timeframe : jsstring;
  predictions : list PredictionData.t;
  timestamp : jsstring
}.
End PredictionsEnvelope.

(** The names every object literal inherits from [Object.prototype]: a
    lookup of one of them on a table that does not define it yields a
    function (for ['__proto__'], the prototype object), which is truthy. *)
Definition Object_prototype_names : list jsstring :=
  map lit
    ["constructor"; "__defineGetter__"; "__defineSetter__"; "hasOwnProperty";
     "__lookupGetter__"; "__lookupSetter__"; "isPrototypeOf";
     "propertyIsEnumerable"; "toString"; "valueOf"; "__proto__";
     "toLocaleString"]%string.

Definition inherited (name : jsstring) : bool :=
  bool_decide (name ∈ Object_prototype_names).

(** [getAiPredictions]; [aiPredictions] is the table [state.aiPredictions],
    which no function writes.  A time frame the table does not answer falls
    back to ['1h'].  The call fails ([None]) on [.map] when the entry used is
    not a list: an inherited name, whose value is truthy, or a table without
    ['1h']. *)
Definition getAiPredictions
    (aiPredictions : gmap jsstring (list PredictionData.t))
    (sines : nat -> Q -> Q) (snapshot_iso now : jsstring) (st : Store)
    (timeframe : jsstring) : option PredictionsEnvelope.t :=
  let envelope (key : jsstring) (l : list PredictionData.t) :=
    PredictionsEnvelope.mk key
      (jitter_predictions sines snapshot_iso st 0%nat l) now in
  match aiPredictions !! timeframe with
  | Some l => Some (envelope timeframe l)
  | None =>
      if inherited timeframe then None
      else
        match aiPredictions !! lit "1h" with
        | Some l => Some (envelope (lit "1h") l)
        | None => None
        end
  end.

End State.

(** ** The exchange adapter (src/binance/service.ts) *)

Module Service.
Import JS Schema.

Definition QUOTE_ASSETS : list jsstring :=
  map lit
    ["USDT"; "USDC"; "BUSD"; "TUSD"; "FDUSD"; "BTC"; "ETH"; "BNB"; "TRY";
     "EUR"; "AUD"; "GBP"; "DAI"; "BRL"; "IDR"]%string.

Inductive OrderSide : Type := BUY | SELL.
Inductive OrderType : Type :=
  MARKET | LIMIT | STOP_MARKET | TAKE_PROFIT_MARKET | STOP | TAKE_PROFIT.
Inductive TimeInForce : Type := GTC | IOC | FOK | GTX.
Inductive WorkingType : Type := MARK_PRICE | CONTRACT_PRICE.

Module FuturesPositionRisk.
Record t : Type := mk {
  entryPrice : jsstring;
  leverage : jsstring;
  maxNotionalValue : jsstring;
  liquidationPrice : jsstring;
  markPrice : jsstring;
  positionAmt : jsstring;
  symbol : jsstring;
  unRealizedProfit : jsstring;
  positionSide : PositionSide;
  updateTime : Z
}.
End FuturesPositionRisk.

Module FuturesOrderPayload.
Record t : Type := mk {
  symbol : jsstring;
  side : OrderSide;
  type : OrderType;
  quantity : option jsstring;
  positionSide : option PositionSide;
  price : option jsstring;
  timeInForce : option TimeInForce;
  reduceOnly : option bool;
  closePosition : option bool;
  activationPrice : option jsstring;
  callbackRate : option jsstring;
  stopPrice : option jsstring;
  workingType : option WorkingType
}.
End FuturesOrderPayload.

Module FuturesOrderResponse.
Record t : Type := mk {
  clientOrderId : jsstring;
  cumQty : jsstring;
  cumQuote : jsstring;
  executedQty : jsstring;
  orderId : N;
  avgPrice : jsstring;
  origQty : jsstring;
  price : jsstring;
  reduceOnly : bool;
  side : OrderSide;
  positionSide : PositionSide;
  status : jsstring;
  stopPrice : jsstring;
  closePosition : bool;
  symbol : jsstring;
  timeInForce : TimeInForce;
  type : OrderType;
  origType : OrderType;
  activatePrice : jsstring;
  priceRate : jsstring;
  updateTime : Z;
  workingType : WorkingType;
  priceProtect : bool
}.
End FuturesOrderResponse.

Module ClosePositionResult.
Record t : Type := mk {
  success : bool;
  symbol : jsstring;
  positionSide : PositionSide;
  order : option FuturesOrderResponse.t;
  error : option jsstring
}.
End ClosePositionResult.

(** A thrown value: an [Error] with its message, or something else. *)
Inductive thrown : Type :=
| ErrorObject (message : jsstring)
| OtherValue.

(** The remote client as the adapter sees it: what [getPositionRisk]
    settles to, and what [postOrder] settles to for a payload. *)
Record Client : Type := mkClient {
  getPositionRisk : thrown + list FuturesPositionRisk.t;
  postOrder : FuturesOrderPayload.t -> thrown + FuturesOrderResponse.t
}.

(** What a request can change: the mock store (through [recordLog]), the
    memoised position promise of the service instance, and the orders sent
    to the exchange, oldest first. *)
Record World : Type := mkWorld {
  store : State.Store;
  positionPromise : option (thrown + list FuturesPositionRisk.t);
  sent : list FuturesOrderPayload.t
}.

(** An asynchronous method: it changes the world and is fulfilled with a
    value or rejected with a thrown one. *)
Definition M (A : Type) : Type := World -> (thrown + A) * World.

Definition ret {A : Type} (a : A) : M A := fun w => (inr a, w).

Definition bind {A B : Type} (m : M A) (f : A -> M B) : M B :=
  fun w =>
    match m w with
    | (inl e, w') => (inl e, w')
    | (inr a, w') => f a w'
    end.

Notation "x <- m ;; k" := (bind m (fun x => k))
  (at level 100, m at next level, right associativity).

Definition roundNumber (value : Q) (precision : nat) : Q :=
  let factor := pow10 precision in
  inject_Z (Math_round (value * factor)) / factor.

Definition roundNumber_ext (n : number) (precision : nat) : number :=
  match n with
  | Fin q => Fin (roundNumber q precision)
  | other => other
  end.

Fixpoint formatDisplaySymbol_from (quotes : list jsstring)
    (symbol : jsstring) : jsstring :=
  match quotes with
  | [] => symbol
  | quote :: rest =>
      if endsWith symbol quote then
        let base := take (length symbol - length quote) symbol in
        base ++ lit "/" ++ quote
      else formatDisplaySymbol_from rest symbol
  end.

Definition formatDisplaySymbol (symbol : jsstring) : jsstring :=
  formatDisplaySymbol_from QUOTE_ASSETS symbol.

Definition pairToSymbol (pair : jsstring) : jsstring :=
  match pair with
  | [] => []
  | _ => toUpperCase (replace_first 47 [] pair)
  end.

Definition normalizeQuantity (quantity : Q) : jsstring :=
  if Qle_bool quantity 0 then lit "0"
  else
    let asString := toFixed quantity 8 in
    remove_suffix_match lone_dot
      (remove_suffix_match some_zeros
         (remove_suffix_match dot_zeros asString)).

Definition PositionSide_string (s : PositionSide) : jsstring :=
  match s with
  | BOTH => lit "BOTH"
  | LONG => lit "LONG"
  | SHORT => lit "SHORT"
  end.

Definition matchesTradeId (position : FuturesPositionRisk.t)
    (tradeId : jsstring) : bool :=
  match split 58 tradeId with
  | [symbol; side] =>
      bool_decide (symbol = FuturesPositionRisk.symbol position)
      && bool_decide
           (toUpperCase side
            = PositionSide_string (FuturesPositionRisk.positionSide position))
  | _ =>
      bool_decide (FuturesPositionRisk.symbol position = tradeId)
      || bool_decide
           (FuturesPositionRisk.symbol position ++ lit "-"
            ++ PositionSide_string (FuturesPositionRisk.positionSide position)
            = tradeId)
  end.

Definition getPositions (client : Client) : M (list FuturesPositionRisk.t) :=
  fun w =>
    match positionPromise w with
    | Some settled => (settled, w)
    | None =>
        let settled := getPositionRisk client in
        (settled, mkWorld (store w) (Some settled) (sent w))
    end.

Definition recordLog (k : State.Stamp) (level : LogLevel)
    (message : jsstring) (details : option jsstring) : M ActivityLog.t :=
  fun w =>
    let '(log, st) := State.recordLog k (store w) level message details in
    (inr log, mkWorld st (positionPromise w) (sent w)).

(** [await this.client.postOrder(payload)]: the payload reaches the exchange
    whether the call is fulfilled or rejected. *)
Definition client_postOrder (client : Client)
    (payload : FuturesOrderPayload.t) : M FuturesOrderResponse.t :=
  fun w =>
    (postOrder client payload,
     mkWorld (store w) (positionPromise w) (sent w ++ [payload])).

(** [try { body } catch (error) { handler }] *)
Definition try_catch {A : Type} (body : M A) (handler : thrown -> M A)
  : M A :=
  fun w =>
    match body w with
    | (inl e, w') => handler e w'
    | r => r
    end.

(** [closePosition]; [parseFloat] is the built-in on the decimal numerals the
    exchange reports, [k] the environment read by [recordLog]. *)
Definition closePosition (parseFloat : jsstring -> Q) (client : Client)
    (k : State.Stamp) (position : FuturesPositionRisk.t)
  : M ClosePositionResult.t :=
  let amt := parseFloat (FuturesPositionRisk.positionAmt position) in
  let quantity := Qabs amt in
  if Qeq_bool quantity 0 then
    ret (ClosePositionResult.mk true (FuturesPositionRisk.symbol position)
           (FuturesPositionRisk.positionSide position) None
           (Some (lit "NO_QUANTITY")))
  else
    let orderSide := if Qltb 0 amt then SELL else BUY in
    let quantityString := normalizeQuantity quantity in
    let reduceOnly := true in
    let payload :=
      FuturesOrderPayload.mk (FuturesPositionRisk.symbol position) orderSide
        MARKET (Some quantityString)
        (Some (FuturesPositionRisk.positionSide position)) None None
        (Some reduceOnly) None None None None None in
    try_catch
      (response <- client_postOrder client payload ;;
       _ <- recordLog k success
              ([1578; 1605; 32; 1573; 1594; 1604; 1575; 1602; 32; 1575; 1604;
                1605; 1585; 1603; 1586; 32]%N
               ++ formatDisplaySymbol (FuturesPositionRisk.symbol position))
              (Some ([1585; 1602; 1605; 32; 1575; 1604; 1571; 1605; 1585;
                      32]%N
                     ++ digits (FuturesOrderResponse.orderId response))) ;;
       ret (ClosePositionResult.mk true (FuturesPositionRisk.symbol position)
              (FuturesPositionRisk.positionSide position) (Some response)
              None))
      (fun error_ =>
         let message :=
           match error_ with
           | ErrorObject m => m
           | OtherValue => lit "UNKNOWN_ERROR"
           end in
         _ <- recordLog k error
                ([1601; 1588; 1604; 32; 1573; 1594; 1604; 1575; 1602; 32;
                  1575; 1604; 1605; 1585; 1603; 1586; 32]%N
                 ++ formatDisplaySymbol (FuturesPositionRisk.symbol position))
                (Some message) ;;
         ret (ClosePositionResult.mk false
                (FuturesPositionRisk.symbol position)
                (FuturesPositionRisk.positionSide position) None
                (Some message))).

Definition closePositionByTradeId (parseFloat : jsstring -> Q)
    (client : Client) (k : State.Stamp) (tradeId : jsstring)
  : M ClosePositionResult.t :=
  positions <- getPositions client ;;
  match List.find (fun position => matchesTradeId position tradeId) positions with
  | None =>
      ret (ClosePositionResult.mk false (lit "UNKNOWN") BOTH None
             (Some (lit "POSITION_NOT_FOUND")))
  | Some target => closePosition parseFloat client k target
  end.

(** The part of [getDetailedStats] after its two awaits: [summary] is the
    result of [getSummaryStats()], [history] that of
    [getTradesHistory(DEFAULT_HISTORY_LIMIT * 2)]. *)
Definition getDetailedStats (summary : Stats.Summary)
    (history : list Trade.t) : Stats.Detailed :=
  let closedTrades :=
    List.filter (fun trade => TradeStatus_eqb (Trade.status trade) closed)
                history in
  let totalTrades :=
    (length closedTrades + Stats.s_activeTrades summary)%nat in
  let wins :=
    List.filter (fun trade => Qltb 0 (Trade.profit_or_0 trade))
                closedTrades in
  let losses :=
    List.filter (fun trade => Qltb (Trade.profit_or_0 trade) 0)
                closedTrades in
  let avgProfit :=
    match length wins with
    | O => 0
    | S _ =>
        fold_left (fun sum trade => sum + Trade.profit_or_0 trade) wins 0
        / Stats.of_nat (length wins)
    end in
  let avgLoss :=
    match length losses with
    | O => 0
    | S _ =>
        Qabs (fold_left (fun sum trade => sum + Trade.profit_or_0 trade)
                        losses 0
              / Stats.of_nat (length losses))
    end in
  let bestTrade :=
    fold_left
      (fun max trade =>
         Math_max max (from_option Fin NInf (Trade.profit trade)))
      closedTrades (Fin 0) in
  let worstTrade :=
    fold_left
      (fun min trade =>
         Math_min min (from_option Fin PInf (Trade.profit trade)))
      closedTrades (Fin 0) in
  let totalVolume :=
    fold_left
      (fun sum trade =>
         sum + Trade.entryPrice trade * Trade.quantity trade)
      closedTrades 0 in
  Stats.mkDetailed
    (Stats.s_totalBalance summary) (Stats.s_todayProfit summary)
    (Stats.s_todayProfitPercent summary) (Stats.s_activeTrades summary)
    (Stats.s_successRate summary)
    totalTrades
    match length closedTrades with
    | O => 0
    | S _ =>
        roundNumber
          ((Stats.of_nat (length wins) / Stats.of_nat (length closedTrades))
           * 100) 2
    end
    (roundNumber avgProfit 2) (roundNumber avgLoss 2)
    (roundNumber_ext bestTrade 2) (roundNumber_ext worstTrade 2)
    (Math_round totalVolume).


(** *** Credentials and masking *)

Definition DEFAULT_HISTORY_LIMIT : nat := 25.
Definition MAX_SYMBOLS_PER_HISTORY_REQUEST : nat := 8.

Module AppBindings.
Record t : Type := mk {
  BINANCE_API_KEY : option jsstring;
  BINANCE_API_SECRET : option jsstring;
  BINANCE_FUTURES_BASE_URL : option jsstring;
  BINANCE_TESTNET : option jsstring;
  BINANCE_RECV_WINDOW : option jsstring
}.
End AppBindings.

Module ResolvedCredentials.
Record t : Type := mk {
  apiKey : jsstring;
  apiSecret : jsstring;
  baseUrl : option jsstring;
  testnet : bool;
  recvWindow : option number
}.
End ResolvedCredentials.

(** What a call either returns or throws. *)
Inductive outcome (A : Type) : Type :=
| Returns (a : A)
| Throws.
Arguments Returns {A} a.
Arguments Throws {A}.

(** [(setting ?? binding)?.trim()]: [undefined] when both are missing, the
    trimmed text of a string, a [TypeError] for a value that has no [trim]
    method. *)
Definition trimmed_setting (setting : option jsval) (binding : option jsstring)
  : outcome (option jsstring) :=
  if nullish setting then Returns (option_map trim binding)
  else
    match setting with
    | Some (VString s) => Returns (Some (trim s))
    | _ => Throws
    end.

Definition resolveCredentials (Number : jsstring -> number)
    (env : AppBindings.t) (settings : gmap jsstring jsval)
  : outcome (option ResolvedCredentials.t) :=
  match
    trimmed_setting (settings !! lit "binanceApiKey")
                    (AppBindings.BINANCE_API_KEY env)
  with
  | Throws => Throws
  | Returns apiKey =>
      match
        trimmed_setting (settings !! lit "binanceApiSecret")
                        (AppBindings.BINANCE_API_SECRET env)
      with
      | Throws => Throws
      | Returns apiSecret =>
          match apiKey, apiSecret with
          | Some ((_ :: _) as key), Some ((_ :: _) as secret) =>
              let testnetFlag :=
                if nullish (settings !! lit "isTestnet")
                then VBool (bool_decide (AppBindings.BINANCE_TESTNET env
                                         = Some (lit "true")))
                else default VUndefined (settings !! lit "isTestnet") in
              match
                trimmed_setting (settings !! lit "customApiUrl")
                                (AppBindings.BINANCE_FUTURES_BASE_URL env)
              with
              | Throws => Throws
              | Returns baseUrl =>
                  let recvWindow :=
                    match AppBindings.BINANCE_RECV_WINDOW env with
                    | Some ((_ :: _) as text) => Some (Number text)
                    | _ => None
                    end in
                  Returns
                    (Some
                       (ResolvedCredentials.mk key secret
                          match baseUrl with
                          | Some ((_ :: _) as url) => Some url
                          | _ => None
                          end
                          (Boolean testnetFlag) recvWindow))
              end
          | _, _ => Returns None
          end
      end
  end.

(** [maskKey] on a string, [null] or [undefined] ([None]). *)
Definition maskKey (value : option jsstring) : option jsstring :=
  match value with
  | None | Some [] => value
  | Some v =>
      if (length v <=? 6)%nat then Some (repeat_unit 42 (length v))
      else
        Some (take 3 v ++ repeat_unit 42 (length v - 6)
              ++ drop (length v - 3) v)
  end.


(** *** Positions and fills as trades *)

(** The fields of the settings that the adapter reads, at their declared
    types. *)
Module ServiceSettings.
Record t : Type := mk {
  isTestnet : option bool;
  autoTradingEnabled : option bool;
  tradingPairs : option (list jsstring)
}.
End ServiceSettings.

(** What the adapter takes from the runtime: [Number(text)],
    [parseFloat(text)] on the decimal numerals the exchange reports,
    [parseInt(text, 10)] ([None] for [NaN]) and
    [new Date(ms).toISOString()]. *)
Record Runtime : Type := mkRuntime {
  Number : jsstring -> number;
  parseFloat : jsstring -> Q;
  parseInt10 : jsstring -> option Z;
  toISOString : Z -> jsstring
}.

(** [toNumber(value, precision)] on a string or [undefined]. *)
Definition toNumber (rt : Runtime) (value : option jsstring)
    (precision : nat) : Q :=
  match value with
  | None => 0
  | Some text =>
      match Number rt text with
      | Fin parsed => toFixed_value parsed precision
      | _ => 0
      end
  end.

(** [parseInt(text, 10) || 1] *)
Definition leverage_or_1 (rt : Runtime) (text : jsstring) : Q :=
  match parseInt10 rt text with
  | Some z => if (z =? 0)%Z then 1 else inject_Z z
  | None => 1
  end.

Definition transformPosition (rt : Runtime)
    (position : FuturesPositionRisk.t) : option State.PositionWithPnl.t :=
  let amt := parseFloat rt (FuturesPositionRisk.positionAmt position) in
  let quantity := Qabs amt in
  if Qeq_bool quantity 0 then None
  else
    let side :=
      if Qltb 0 amt then State.AccountPosition.LONG
      else State.AccountPosition.SHORT in
    let entryPrice :=
      toNumber rt (Some (FuturesPositionRisk.entryPrice position)) 4 in
    let markPrice :=
      toNumber rt (Some (FuturesPositionRisk.markPrice position)) 4 in
    let leverage := leverage_or_1 rt (FuturesPositionRisk.leverage position) in
    let direction :=
      match side with
      | State.AccountPosition.LONG => 1
      | State.AccountPosition.SHORT => - (1)
      end in
    let unrealized :=
      roundNumber ((markPrice - entryPrice) * quantity * direction) 2 in
    Some (State.PositionWithPnl.mk
            (State.AccountPosition.mk (FuturesPositionRisk.symbol position)
               side entryPrice quantity leverage)
            unrealized).

Definition TradeType_upper (side : TradeType) : jsstring :=
  match side with
  | long => lit "LONG"
  | short => lit "SHORT"
  end.

Definition transformPositionToTrade (rt : Runtime)
    (settings : ServiceSettings.t) (position : FuturesPositionRisk.t)
    (dualSide : bool) : option Trade.t :=
  let amt := parseFloat rt (FuturesPositionRisk.positionAmt position) in
  let quantity := Qabs amt in
  if Qeq_bool quantity 0 then None
  else
    let side := if Qltb 0 amt then long else short in
    let entryPrice :=
      toNumber rt (Some (FuturesPositionRisk.entryPrice position)) 4 in
    let markPrice :=
      toNumber rt (Some (FuturesPositionRisk.markPrice position)) 4 in
    let leverage := leverage_or_1 rt (FuturesPositionRisk.leverage position) in
    let unrealized :=
      toNumber rt (Some (FuturesPositionRisk.unRealizedProfit position)) 4 in
    let profitPercent :=
      if Qeq_bool entryPrice 0 then 0
      else (unrealized / (entryPrice * quantity)) * 100 in
    let symbolDisplay :=
      formatDisplaySymbol (FuturesPositionRisk.symbol position) in
    let idSide :=
      if dualSide
      then PositionSide_string (FuturesPositionRisk.positionSide position)
      else TradeType_upper side in
    Some
      (Trade.mk
         (FuturesPositionRisk.symbol position ++ lit ":" ++ idSide)
         (lit "binance-futures") symbolDisplay side active entryPrice None
         quantity leverage
         match side with
         | long => roundNumber (entryPrice * 0.98) 2
         | short => roundNumber (entryPrice * 1.02) 2
         end
         match side with
         | long => roundNumber (entryPrice * 1.02) 2
         | short => roundNumber (entryPrice * 0.98) 2
         end
         (Some (roundNumber unrealized 2))
         (Some (roundNumber profitPercent 2))
         (toISOString rt (FuturesPositionRisk.updateTime position)) None []
         [] false None None None
         (default false (ServiceSettings.autoTradingEnabled settings))).

Module FuturesUserTrade.
Record t : Type := mk {
  buyer : bool;
  commission : jsstring;
  commissionAsset : jsstring;
  id : N;
  maker : bool;
  orderId : N;
  price : jsstring;
  qty : jsstring;
  quoteQty : jsstring;
  realizedPnl : jsstring;
  side : OrderSide;
  positionSide : PositionSide;
  symbol : jsstring;
  time : Z
}.
End FuturesUserTrade.

Definition transformUserTrade (rt : Runtime) (settings : ServiceSettings.t)
    (trade : FuturesUserTrade.t) (leverage : Q) : Trade.t :=
  let symbolDisplay := formatDisplaySymbol (FuturesUserTrade.symbol trade) in
  let side :=
    match FuturesUserTrade.side trade with
    | BUY => long
    | SELL => short
    end in
  let price := toNumber rt (Some (FuturesUserTrade.price trade)) 4 in
  let quantity := Qabs (toNumber rt (Some (FuturesUserTrade.qty trade)) 4) in
  let realizedPnl :=
    toNumber rt (Some (FuturesUserTrade.realizedPnl trade)) 4 in
  let notional := price * quantity in
  let profitPercent :=
    if Qeq_bool notional 0 then 0 else (realizedPnl / notional) * 100 in
  let timestamp := toISOString rt (FuturesUserTrade.time trade) in
  Trade.mk
    (lit "hist-" ++ FuturesUserTrade.symbol trade ++ lit "-"
     ++ digits (FuturesUserTrade.id trade))
    (lit "binance-futures") symbolDisplay side closed price (Some price)
    quantity leverage price price
    (Some (roundNumber realizedPnl 2)) (Some (roundNumber profitPercent 2))
    timestamp (Some timestamp) []
    (digits (FuturesUserTrade.orderId trade)) false None None None
    (default false (ServiceSettings.autoTradingEnabled settings)).

(** The mapping steps of [getAccountState] and [getActiveTrades], once the
    positions and the account's [dualSidePosition] flag are fetched. *)
Definition mapped_positions (rt : Runtime)
    (positions : list FuturesPositionRisk.t) : list State.PositionWithPnl.t :=
  omap (transformPosition rt) positions.

Definition active_trades_of (rt : Runtime) (settings : ServiceSettings.t)
    (positions : list FuturesPositionRisk.t) (dualSide : bool)
  : list Trade.t :=
  omap (fun position => transformPositionToTrade rt settings position dualSide)
       positions.


(** *** Closing every position *)

(** The loop of [closeAllPositions]; the call of [closePosition] for the
    position of index [n] reads the environment [stamps n]. *)
Fixpoint closeAll_loop (parse : jsstring -> Q) (client : Client)
    (stamps : nat -> State.Stamp) (n : nat)
    (positions : list FuturesPositionRisk.t)
    (results : list ClosePositionResult.t)
  : M (list ClosePositionResult.t) :=
  match positions with
  | [] => ret results
  | position :: rest =>
      let absQty := Qabs (parse (FuturesPositionRisk.positionAmt position)) in
      if Qeq_bool absQty 0
      then closeAll_loop parse client stamps (S n) rest results
      else
        result <- closePosition parse client (stamps n) position ;;
        closeAll_loop parse client stamps (S n) rest (results ++ [result])
  end.

Definition closeAllPositions (parse : jsstring -> Q) (client : Client)
    (stamps : nat -> State.Stamp) : M (list ClosePositionResult.t) :=
  positions <- getPositions client ;;
  closeAll_loop parse client stamps 0%nat positions [].

(** *** The symbols and the page size of a history request *)

(** [Array.from(new Set(l))], and [l.filter((x, i, a) => a.indexOf(x) === i)]:
    the first occurrence of every element, in order. *)
Fixpoint unique (l : list jsstring) : list jsstring :=
  match l with
  | [] => []
  | x :: rest => x :: List.filter (fun y => negb (bool_decide (y = x))) (unique rest)
  end.

(** [determineSymbolsForHistory], once the positions are fetched. *)
Definition determineSymbolsForHistory (settings : ServiceSettings.t)
    (positions : list FuturesPositionRisk.t) : list jsstring :=
  let preferred :=
    match ServiceSettings.tradingPairs settings with
    | Some pairs => List.filter truthy_string (map pairToSymbol pairs)
    | None => []
    end in
  let fromPositions := unique (map FuturesPositionRisk.symbol positions) in
  let unique_ := unique (preferred ++ fromPositions) in
  take MAX_SYMBOLS_PER_HISTORY_REQUEST unique_.

(** [Math.max(5, Math.ceil(limit / symbols.length))] in [getTradesHistory],
    for a natural [limit]. *)
Definition perSymbolLimit (limit symbols : nat) : Z :=
  Z.max 5 (Qceiling (Stats.of_nat limit / Stats.of_nat symbols)).

End Service.

(** ** The settings route (HTTP routing module) *)

Module Routes.
Import JS.

Record AppBindings : Type := mkEnv {
  BINANCE_API_KEY : option jsstring;
  BINANCE_API_SECRET : option jsstring;
  BINANCE_FUTURES_BASE_URL : option jsstring;
  BINANCE_TESTNET : option jsstring;
  BINANCE_RECV_WINDOW : option jsstring
}.

(** Truthiness of an optional binding. *)
Definition is_set (o : option jsstring) : bool :=
  match o with
  | Some s => truthy_string s
  | None => false
  end.

(** The test applied to a submitted secret:
    [typeof v === 'string' && (v.startsWith('__env__') || v.trim() === ''
      || v.includes('•'))]. *)
Definition placeholder_value (v : option jsval) : bool :=
  match v with
  | Some (VString s) =>
      startsWith s (lit "__env__")
      || bool_decide (trim s = [])
      || includes s [8226%N]
  | _ => false
  end.

Definition sanitizeIncomingSettings (payload : gmap jsstring jsval)
    (env : AppBindings) : gmap jsstring jsval :=
  let sanitized := payload in
  let apiKeyValue := sanitized !! lit "binanceApiKey" in
  let sanitized :=
    if is_set (BINANCE_API_KEY env) || placeholder_value apiKeyValue
    then delete (lit "binanceApiKey") sanitized
    else sanitized in
  let apiSecretValue := sanitized !! lit "binanceApiSecret" in
  let sanitized :=
    if is_set (BINANCE_API_SECRET env) || placeholder_value apiSecretValue
    then delete (lit "binanceApiSecret") sanitized
    else sanitized in
  sanitized.

(** The handler of [PUT /api/settings] on an object body, up to the call of
    [updateSettings]; the masking of the response is not part of it. *)
Definition put_settings (Number : jsstring -> number) (k : State.Stamp)
    (env : AppBindings) (st : State.Store) (body : gmap jsstring jsval)
  : gmap jsstring jsval * State.Store :=
  let sanitizedPayload := sanitizeIncomingSettings body env in
  State.updateSettings Number k st sanitizedPayload.


(** *** Masking on read *)

(** [maskSecret] on a string, [null] or [undefined] ([None]). *)
Definition maskSecret (value : option jsstring) : jsstring :=
  match value with
  | None | Some [] => []
  | Some v =>
      if (length v <=? 4)%nat then repeat_unit 8226 (length v)
      else
        let visible := drop (length v - 4) v in
        repeat_unit 8226 (Nat.max (length v - 4) 0) ++ visible
  end.




End Routes.

(** ** The exchange REST client (the client module of src/binance) *)

Module BinanceClient.
Import JS.

Definition FUTURES_BASE_URL : jsstring := lit "https://fapi.binance.com".
Definition FUTURES_TESTNET_BASE_URL : jsstring :=
  lit "https://testnet.binancefuture.com".

Inductive HttpMethod : Type := GET | POST | DELETE.

Definition HttpMethod_eqb (a b : HttpMethod) : bool :=
  match a, b with
  | GET, GET | POST, POST | DELETE, DELETE => true
  | _, _ => false
  end.

Module BinanceClientOptions.
Record t : Type := mk {
  apiKey : jsstring;
  apiSecret : jsstring;
  baseUrl : option jsstring;
  recvWindow : option number;
  testnet : option bool
}.
End BinanceClientOptions.

(** The private fields of a client instance. *)
Record Instance : Type := mkInstance {
  apiKey : jsstring;
  apiSecret : jsstring;
  baseUrl : jsstring;
  recvWindow : number
}.

(** The constructor. *)
Definition new_client (options : BinanceClientOptions.t) : Instance :=
  mkInstance (BinanceClientOptions.apiKey options)
    (BinanceClientOptions.apiSecret options)
    match BinanceClientOptions.baseUrl options with
    | Some ((_ :: _) as url) =>
        if endsWith url (lit "/") then take (length url - 1) url else url
    | _ =>
        if default false (BinanceClientOptions.testnet options)
        then FUTURES_TESTNET_BASE_URL
        else FUTURES_BASE_URL
    end
    (default (Fin 5000) (BinanceClientOptions.recvWindow options)).

(** *** Hexadecimal output *)

Definition hex_char (d : N) : N :=
  if (d <? 10)%N then (48 + d)%N else (87 + d)%N.

(** [n.toString(16)] for a natural number; [fuel] bounds the number of
    digits. *)
Fixpoint hex_fuel (fuel : nat) (n : N) : jsstring :=
  match fuel with
  | O => []
  | S f =>
      if (n <? 16)%N then [hex_char n]
      else hex_fuel f (n / 16) ++ [hex_char (n mod 16)]
  end.

Definition toString16 (n : N) : jsstring :=
  hex_fuel (S (N.to_nat (N.log2 n))) n.

(** [s.padStart(width, '0')] *)
Definition padStart0 (width : nat) (s : jsstring) : jsstring :=
  repeat_unit 48 (width - length s) ++ s.

(** [bufferToHex] on the bytes of the buffer. *)
Definition bufferToHex (bytes : list N) : jsstring :=
  fold_left (fun hex byte => hex ++ padStart0 2 (toString16 byte)) bytes [].

(** *** Requests *)

Inductive param_value : Type :=
| PString (s : jsstring)
| PNumber (n : number)
| PBool (b : bool).

(** What the client takes from the runtime: the text of a number, the
    serialisation of [URLSearchParams], the UTF-8 encoder, HMAC-SHA256 on
    bytes, and the clock in milliseconds. *)
Record Runtime : Type := mkRuntime {
  number_toString : number -> jsstring;
  form_urlencode : list (jsstring * jsstring) -> jsstring;
  utf8_encode : jsstring -> list N;
  hmac_sha256 : list N -> list N -> list N;
  Date_now : Z
}.

(** [String(value)] *)
Definition String_of (rt : Runtime) (v : param_value) : jsstring :=
  match v with
  | PString s => s
  | PNumber n => number_toString rt n
  | PBool true => lit "true"
  | PBool false => lit "false"
  end.

(** [URLSearchParams]: the list of name-value pairs, in order. *)
Definition sp_append (name value : jsstring) (l : list (jsstring * jsstring))
  : list (jsstring * jsstring) :=
  l ++ [(name, value)].

Definition sp_has (name : jsstring) (l : list (jsstring * jsstring)) : bool :=
  existsb (fun p => bool_decide (fst p = name)) l.

(** [set]: the first pair of that name takes the value and the later ones
    are removed; without such a pair the new one is appended. *)
Fixpoint sp_set (name value : jsstring) (l : list (jsstring * jsstring))
  : list (jsstring * jsstring) :=
  match l with
  | [] => [(name, value)]
  | p :: rest =>
      if bool_decide (fst p = name)
      then (name, value)
           :: List.filter (fun q => negb (bool_decide (fst q = name))) rest
      else p :: sp_set name value rest
  end.

Definition sign (rt : Runtime) (c : Instance) (payload : jsstring) : jsstring :=
  bufferToHex
    (hmac_sha256 rt (utf8_encode rt (apiSecret c)) (utf8_encode rt payload)).

Module RequestOptions.
Record t : Type := mk {
  method : HttpMethod;
  path : jsstring;
  params : list (jsstring * option param_value);
  signed : bool
}.
End RequestOptions.

(** What [request] hands to [fetch]. *)
Module Fetch.
Record t : Type := mk {
  base : jsstring;
  path : jsstring;
  search : jsstring;
  method : HttpMethod;
  headers : list (jsstring * jsstring);
  body : option jsstring
}.
End Fetch.

(** The loop over [Object.entries(params)]. *)
Fixpoint collect_params (rt : Runtime)
    (params : list (jsstring * option param_value))
    (searchParams : list (jsstring * jsstring))
  : list (jsstring * jsstring) :=
  match params with
  | [] => searchParams
  | (key, None) :: rest => collect_params rt rest searchParams
  | (key, Some value) :: rest =>
      collect_params rt rest (sp_append key (String_of rt value) searchParams)
  end.

(** The parameters sent, the signature included when the request is
    signed. *)
Definition request_params (rt : Runtime) (c : Instance)
    (o : RequestOptions.t) : list (jsstring * jsstring) :=
  let searchParams := collect_params rt (RequestOptions.params o) [] in
  if RequestOptions.signed o then
    let searchParams :=
      sp_set (lit "timestamp")
             (number_toString rt (Fin (inject_Z (Date_now rt)))) searchParams in
    let searchParams :=
      if sp_has (lit "recvWindow") searchParams then searchParams
      else sp_set (lit "recvWindow") (number_toString rt (recvWindow c))
                  searchParams in
    let signature := sign rt c (form_urlencode rt searchParams) in
    sp_set (lit "signature") signature searchParams
  else searchParams.

(** [request], up to the call of [fetch]. *)
Definition prepare (rt : Runtime) (c : Instance) (o : RequestOptions.t)
  : Fetch.t :=
  let searchParams := request_params rt c o in
  let is_get := HttpMethod_eqb (RequestOptions.method o) GET in
  let headers :=
    (if is_get then []
     else [(lit "Content-Type", lit "application/x-www-form-urlencoded")])
    ++ (if RequestOptions.signed o || negb is_get
        then [(lit "X-MBX-APIKEY", apiKey c)]
        else []) in
  Fetch.mk (baseUrl c) (RequestOptions.path o)
    (if is_get then form_urlencode rt searchParams else [])
    (RequestOptions.method o) headers
    (if is_get then None else Some (form_urlencode rt searchParams)).

(** *** Responses *)

Module Response.
Record t : Type := mk {
  status : N;
  statusText : jsstring;
  contentType : option jsstring;
  text : jsstring
}.
(** [response.ok] *)
Definition ok (r : t) : bool := ((200 <=? status r) && (status r <=? 299))%N.
End Response.

(** How a request settles: fulfilled with a value, rejected with an [Error]
    of the client, or rejected with the [SyntaxError] of [response.json()]. *)
Inductive settled : Type :=
| Fulfilled (v : jsval)
| RejectedError (message : jsstring)
| RejectedSyntaxError.

(** [request], from the response on; [JSON_parse] is the parser, [None]
    when it throws. *)
Definition settle (JSON_parse : jsstring -> option jsval) (r : Response.t)
  : settled :=
  if negb (Response.ok r) then
    let message := Response.text r in
    RejectedError
      (lit "Binance API error (" ++ digits (Response.status r) ++ lit "): "
       ++ (if truthy_string message then message else Response.statusText r))
  else
    let contentType := default [] (Response.contentType r) in
    if includes contentType (lit "application/json") then
      match JSON_parse (Response.text r) with
      | Some v => Fulfilled v
      | None => RejectedSyntaxError
      end
    else
      match Response.text r with
      | [] => Fulfilled (VObject [])
      | text =>
          match JSON_parse text with
          | Some v => Fulfilled v
          | None =>
              RejectedError (lit "Failed to parse Binance response as JSON")
          end
      end.

End BinanceClient.

(** ** Vocabulary of the statements *)

Module Spec.
Import JS Schema.

(** [+1] for a long trade, [-1] for a short one. *)
Definition direction (t : Trade.t) : Q :=
  match Trade.type t with
  | long => 1
  | short => - (1)
  end.

(** The margin bound by a list of positions: the sum of
    [entryPrice * quantity / max(leverage, 1)]. *)
Fixpoint margin_sum (ps : list State.AccountPosition.t) : Q :=
  match ps with
  | [] => 0
  | p :: rest =>
      State.AccountPosition.entryPrice p * State.AccountPosition.quantity p
      / Qmax (State.AccountPosition.leverage p) 1
      + margin_sum rest
  end.

(** A sample environment: [Math.sin] evaluates to [0], and one fixed string
    stands for every time stamp (time stamps play no role below). *)
Definition sample_time : jsstring := lit "2024-01-01T00:00:00.000Z".

Definition sample_stamp : State.Stamp := State.mkStamp (lit "k3x9a0bz") sample_time.

Definition sample_clock : State.CloseClock :=
  State.mkCloseClock (fun _ => 0) sample_time sample_time sample_stamp.

Definition seed : State.Store := State.initial_state (fun _ => sample_time).

(** The balance invariant of the mock account: the available balance is the
    total balance less the bound margin, not below zero, rounded to two
    decimals. *)
Definition balances_synced (st : State.Store) : Prop :=
  let a := State.account st in
  State.AccountState.availableBalance a
  == State.round
       (Qmax (State.AccountState.totalBalance a
              - margin_sum (State.AccountState.positions a)) 0) 2.

(** The sum of [entryPrice * quantity / leverage] over a list of positions. *)
Fixpoint leveraged_notional (ps : list State.AccountPosition.t) : Q :=
  match ps with
  | [] => 0
  | p :: rest =>
      State.AccountPosition.entryPrice p * State.AccountPosition.quantity p
      / State.AccountPosition.leverage p
      + leveraged_notional rest
  end.


(** *** Statistics *)

(** Number of trades of a list with a known profit above zero. *)
Fixpoint wins (l : list Trade.t) : nat :=
  match l with
  | [] => 0%nat
  | t :: rest =>
      match Trade.profit t with
      | Some p => if Qltb 0 p then S (wins rest) else wins rest
      | None => wins rest
      end
  end.

(** The largest known profit of a list, not below zero, and the smallest
    one, not above zero. *)
Fixpoint best_of (l : list Trade.t) : Q :=
  match l with
  | [] => 0
  | t :: rest =>
      match Trade.profit t with
      | Some p => Qmax p (best_of rest)
      | None => best_of rest
      end
  end.

Definition Qmin (a b : Q) : Q := if Qle_bool a b then a else b.

Fixpoint worst_of (l : list Trade.t) : Q :=
  match l with
  | [] => 0
  | t :: rest =>
      match Trade.profit t with
      | Some p => Qmin p (worst_of rest)
      | None => worst_of rest
      end
  end.

(** An amount with at most two decimals. *)
Definition is_cents (q : Q) : Prop := exists z : Z, q == inject_Z z / 100.

(** [p] is [x] rounded to the cent: a whole number of cents at most half a
    cent away from [x].  At a tie both neighbours qualify, so that the
    statement does not depend on how the arithmetic of the runtime resolves
    it. *)
Definition rounded_to_cents (x p : Q) : Prop :=
  is_cents p /\ x - (1 # 200) <= p <= x + (1 # 200).

Definition profit_satisfies (P : Q -> Prop) (t : Trade.t) : Prop :=
  match Trade.profit t with
  | Some p => P p
  | None => True
  end.

(** The trades a back end counts as closed: the adapter keeps those with
    [status = closed]; the mock store takes its whole history list. *)
Definition closed_only (history : list Trade.t) : list Trade.t :=
  List.filter (fun t => TradeStatus_eqb (Trade.status t) closed) history.


(** [entryPrice * quantity] *)
Definition notional (t : Trade.t) : Q := Trade.entryPrice t * Trade.quantity t.



(** What C2 says of the extremes reported for a list of closed trades. *)
Definition extremes_of (l : list Trade.t) (d : Stats.Detailed) : Prop :=
  exists b w,
    Stats.bestTrade d = Fin b
    /\ Stats.worstTrade d = Fin w
    /\ b == State.round (best_of l) 2
    /\ w == State.round (worst_of l) 2
    /\ 0 <= b
    /\ w <= 0
    /\ (Forall (profit_satisfies (fun p => p <= 0)) l -> b == 0)
    /\ (Forall (profit_satisfies (fun p => 0 <= p)) l -> w == 0)
    /\ (Forall (profit_satisfies is_cents) l ->
        b == best_of l /\ w == worst_of l).

(** What C5 says of the win rate reported for a list of closed trades, with
    the rounding of the code. *)
Definition win_rate_of (l : list Trade.t) (r : Q) : Prop :=
  0 <= r <= 100
  /\ (l = [] -> r == 0)
  /\ (l <> [] ->
      r == State.round (100 * Stats.of_nat (wins l) / Stats.of_nat (length l)) 2).

(** The three trades of the scenario of C1, with sample prices. *)
Definition scenario_trade (name : String.string) (profit : Q) : Trade.t :=
  Trade.mk (lit name) (lit "user-demo") (lit "BTC/USDT") long closed
    100 (Some 101) 2 1 90 110 (Some profit) (Some 1)
    sample_time (Some sample_time) [] (lit "BN-1") false None None None false.

Definition scenario : list Trade.t :=
  [scenario_trade "a" 100; scenario_trade "b" (- (50)); scenario_trade "c" 0].

Definition scenario_store : State.Store :=
  State.mkStore State.defaultSettings [] scenario [] State.marketBaselines
    State.accountState State.autoTradingState.

Definition scenario_summary : Stats.Summary :=
  Stats.mkSummary 0 0 0 0 0.


(** *** Symbols *)

(** A code unit of an asset code: ASCII, not a lower-case letter, not the
    slash. *)
Definition asset_unit (c : N) : bool :=
  ((c <? 128) && negb ((97 <=? c) && (c <=? 122)) && negb (c =? 47))%N.

Definition asset_code (s : jsstring) : bool := forallb asset_unit s.


(** *** Settings *)

(** The masked values of C8: the value contains the mask character U+2022,
    starts with the environment placeholder, or is empty. *)
Definition masked_secret (s : jsstring) : Prop :=
  includes s [8226%N] = true
  \/ startsWith s (lit "__env__") = true
  \/ s = [].

(** The value [updateSettings] stores for a submitted one: a string meant
    for a numeric setting is converted, anything else is stored as it is. *)
Definition stored_value (Number : jsstring -> number)
    (current : option jsval) (submitted : jsval) : jsval :=
  match current, submitted with
  | Some (VNumber _), VString s => VNumber (Number s)
  | _, _ => submitted
  end.

Definition no_bindings : Routes.AppBindings :=
  Routes.mkEnv None None None None None.

(** A payload as the settings form sends it back: the masked key it was
    shown, and a changed flag. *)
Definition masked_payload : gmap jsstring jsval :=
  list_to_map
    [ (lit "binanceApiKey",
       VString ([8226; 8226; 8226; 8226; 8226; 8226; 8226; 8226]%N
                ++ lit "-key"));
      (lit "isTestnet", VBool false) ].


(** *** Decimal numerals *)

Definition is_digit (c : N) : bool := ((48 <=? c) && (c <=? 57))%N.

(** The natural number written by a string of digits. *)
Definition int_value (s : jsstring) : N :=
  fold_left (fun acc c => (acc * 10 + (c - 48))%N) s 0%N.

(** The fraction written by the digits after a decimal point. *)
Fixpoint frac_value (s : jsstring) : Q :=
  match s with
  | [] => 0
  | c :: r => (inject_Z (Z.of_N (c - 48)) + frac_value r) / 10
  end.

(** The digits before the first point, and what follows them. *)
Fixpoint integer_part (s : jsstring) : jsstring * jsstring :=
  match s with
  | [] => ([], [])
  | c :: r =>
      if (c =? 46)%N then ([], s)
      else let '(a, b) := integer_part r in (c :: a, b)
  end.

Definition digit_string (s : jsstring) : bool :=
  match s with
  | [] => false
  | _ => forallb is_digit s
  end.

(** The number denoted by an unsigned decimal numeral: digits, optionally
    followed by a point and more digits.  Anything else, the empty string
    included, denotes no number. *)
Definition decimal_value (s : jsstring) : option Q :=
  let '(a, b) := integer_part s in
  if digit_string a then
    match b with
    | [] => Some (inject_Z (Z.of_N (int_value a)))
    | _ :: f =>
        if digit_string f
        then Some (inject_Z (Z.of_N (int_value a)) + frac_value f)
        else None
    end
  else None.

(** A quantity of [n] units of 10^-8. *)
Definition units (n : N) : Q := inject_Z (Z.of_N n) / pow10 8.

(** A sample [parseFloat]: signed decimal numerals are read, anything else
    is taken as 0. *)
Definition sample_parseFloat (s : jsstring) : Q :=
  match s with
  | 45%N :: r => - default 0 (decimal_value r)
  | _ => default 0 (decimal_value s)
  end.

(** *** Closing a position through the adapter *)

(** The positions a request sees: those of the memoised promise if there is
    one, else those the client reports. *)
Definition positions_seen (client : Service.Client) (w : Service.World)
    (positions : list Service.FuturesPositionRisk.t) : Prop :=
  match Service.positionPromise w with
  | Some settled => settled = inr positions
  | None => Service.getPositionRisk client = inr positions
  end.

(** The order [closePosition] sends for a position of signed amount [amt]. *)
Definition closing_order (position : Service.FuturesPositionRisk.t) (amt : Q)
  : Service.FuturesOrderPayload.t :=
  Service.FuturesOrderPayload.mk
    (Service.FuturesPositionRisk.symbol position)
    (if Qltb 0 amt then Service.SELL else Service.BUY)
    Service.MARKET
    (Some (Service.normalizeQuantity (Qabs amt)))
    (Some (Service.FuturesPositionRisk.positionSide position))
    None None (Some true) None None None None None.

Definition sample_position (symbol amt : String.string) (side : PositionSide)
  : Service.FuturesPositionRisk.t :=
  Service.FuturesPositionRisk.mk (lit "67250.45") (lit "5") (lit "1000000")
    (lit "0") (lit "67420.00") (lit amt) (lit symbol) (lit "0.00") side
    1700000000000%Z.

Definition sample_response (payload : Service.FuturesOrderPayload.t)
  : Service.FuturesOrderResponse.t :=
  Service.FuturesOrderResponse.mk (lit "web_1") (lit "0") (lit "0") (lit "0")
    42%N (lit "0.00") (default [] (Service.FuturesOrderPayload.quantity payload))
    (lit "0") true (Service.FuturesOrderPayload.side payload)
    (default BOTH (Service.FuturesOrderPayload.positionSide payload))
    (lit "NEW") (lit "0") false (Service.FuturesOrderPayload.symbol payload)
    Service.GTC Service.MARKET Service.MARKET (lit "0") (lit "0")
    1700000000001%Z Service.CONTRACT_PRICE false.

(** A sample exchange: a flat BTC position and a long ETH position. *)
Definition sample_client : Service.Client :=
  Service.mkClient
    (inr [sample_position "BTCUSDT" "0.000" LONG;
          sample_position "ETHUSDT" "12.50000000" BOTH])
    (fun payload => inr (sample_response payload)).

Definition sample_world : Service.World := Service.mkWorld seed None [].


(** *** Invariants of the mock store *)

(** The activity log holds at most [MAX_LOGS] entries. *)
Definition log_bounded (st : State.Store) : Prop :=
  (length (State.logs st) <= State.MAX_LOGS)%nat.

(** An open trade: active, without exit price and exit time. *)
Definition open_trade (t : Trade.t) : Prop :=
  Trade.status t = active
  /\ Trade.exitPrice t = None
  /\ Trade.exitTime t = None.

(** A settled trade: closed, with exit price, exit time and profit. *)
Definition settled_trade (t : Trade.t) : Prop :=
  Trade.status t = closed
  /\ is_Some (Trade.exitPrice t)
  /\ is_Some (Trade.exitTime t)
  /\ is_Some (Trade.profit t).

(** The life cycle of trades: the active list holds open trades, the history
    list settled ones. *)
Definition lifecycle (st : State.Store) : Prop :=
  Forall open_trade (State.trades_active st)
  /\ Forall settled_trade (State.trades_history st).


(** The value a field holds after [updateSettings]: the stored form of the
    submitted value, or the old value when the field is missing from the
    payload or submitted as [undefined]. *)
Definition field_after_update (Number : jsstring -> number)
    (current submitted : option jsval) : option jsval :=
  match submitted with
  | None | Some VUndefined => current
  | Some v => Some (stored_value Number current v)
  end.


(** [q] is a whole number between [lo] and [hi]. *)
Definition whole_between (lo hi : Z) (q : Q) : Prop :=
  exists z : Z, q = inject_Z z /\ (lo <= z <= hi)%Z.

Definition signal_in_range (s : State.AISignal.t) : Prop :=
  whole_between 20 95 (State.AISignal.strength s)
  /\ whole_between 20 95 (State.AISignal.confidence s).

(** The scores of a served prediction lie in the ranges the dashboard
    shows. *)
Definition prediction_in_range (p : State.PredictionData.t) : Prop :=
  let a := State.PredictionData.prediction p in
  let sub := State.AIPrediction.predictions a in
  whole_between 40 95 (State.AIPrediction.confidence a)
  /\ whole_between 30 90 (State.AIPrediction.signalStrength a)
  /\ signal_in_range (State.AIPrediction.patternRecognition sub)
  /\ signal_in_range (State.AIPrediction.momentumAnalysis sub)
  /\ signal_in_range (State.AIPrediction.volatilityAnalysis sub)
  /\ signal_in_range (State.AIPrediction.trendStrength sub)
  /\ signal_in_range (State.AIPrediction.priceAction sub).

Definition same_signal (s s' : State.AISignal.t) : Prop :=
  State.AISignal.signal s' = State.AISignal.signal s
  /\ State.AISignal.description s' = State.AISignal.description s.

(** [p'] gives the verdict of the template [p]: the same symbol, signals,
    patterns, regime, risk and outlooks. *)
Definition same_verdict (p p' : State.PredictionData.t) : Prop :=
  let a := State.PredictionData.prediction p in
  let a' := State.PredictionData.prediction p' in
  let sub := State.AIPrediction.predictions a in
  let sub' := State.AIPrediction.predictions a' in
  State.PredictionData.symbol p' = State.PredictionData.symbol p
  /\ State.AIPrediction.overallSignal a' = State.AIPrediction.overallSignal a
  /\ State.AIPrediction.detectedPatterns a'
     = State.AIPrediction.detectedPatterns a
  /\ State.AIPrediction.marketRegime a' = State.AIPrediction.marketRegime a
  /\ State.AIPrediction.riskLevel a' = State.AIPrediction.riskLevel a
  /\ State.AIPrediction.shortTermPrediction a'
     = State.AIPrediction.shortTermPrediction a
  /\ State.AIPrediction.mediumTermPrediction a'
     = State.AIPrediction.mediumTermPrediction a
  /\ same_signal (State.AIPrediction.patternRecognition sub)
                 (State.AIPrediction.patternRecognition sub')
  /\ same_signal (State.AIPrediction.momentumAnalysis sub)
                 (State.AIPrediction.momentumAnalysis sub')
  /\ same_signal (State.AIPrediction.volatilityAnalysis sub)
                 (State.AIPrediction.volatilityAnalysis sub')
  /\ same_signal (State.AIPrediction.trendStrength sub)
                 (State.AIPrediction.trendStrength sub')
  /\ same_signal (State.AIPrediction.priceAction sub)
                 (State.AIPrediction.priceAction sub').

Definition sample_signal : State.AISignal.t :=
  State.AISignal.mk State.buy 70 65 (lit "momentum").

Definition sample_prediction : State.PredictionData.t :=
  State.PredictionData.mk (lit "BTC/USDT") 67420
    (State.AIPrediction.mk State.buy 99 12
       (State.AIPrediction.mkPredictions sample_signal sample_signal
          sample_signal sample_signal sample_signal)
       [] State.trending_up State.medium State.bullish State.neutral).

Definition sample_predictions : gmap jsstring (list State.PredictionData.t) :=
  {[ lit "1h" := [sample_prediction] ]}.


(** *** Positions and trade ids of the adapter *)

(** A text without the separator [:] of trade ids. *)
Definition no_colon (s : jsstring) : Prop := Forall (fun c => c <> 58%N) s.

Definition sample_runtime : Service.Runtime :=
  Service.mkRuntime (fun s => Fin (sample_parseFloat s)) sample_parseFloat
    (fun s => Some (Qfloor (sample_parseFloat s))) (fun _ => sample_time).

Definition sample_service_settings : Service.ServiceSettings.t :=
  Service.ServiceSettings.mk (Some false) (Some true)
    (Some [lit "BTC/USDT"; lit "eth/usdt"; lit "BTC/USDT"]).

(** An account in one-way mode: every position is reported with side
    [BOTH]. *)
Definition one_way_positions : list Service.FuturesPositionRisk.t :=
  [sample_position "BTCUSDT" "-0.250" BOTH;
   sample_position "ETHUSDT" "12.50000000" BOTH].

Definition one_way_client : Service.Client :=
  Service.mkClient (inr one_way_positions)
    (fun payload => inr (sample_response payload)).


(** The trade [getActiveTrades] lists and the position [getAccountState]
    lists describe the same holding. *)
Definition same_holding (trade : Trade.t) (held : State.PositionWithPnl.t)
  : Prop :=
  let p := State.PositionWithPnl.position held in
  Trade.symbol trade
  = Service.formatDisplaySymbol (State.AccountPosition.symbol p)
  /\ Trade.entryPrice trade = State.AccountPosition.entryPrice p
  /\ Trade.quantity trade = State.AccountPosition.quantity p
  /\ Trade.leverage trade = State.AccountPosition.leverage p
  /\ (Trade.type trade = long
      <-> State.AccountPosition.side p = State.AccountPosition.LONG)
  /\ 0 < Trade.quantity trade
  /\ open_trade trade.

(** The positions that hold a quantity. *)
Definition has_quantity (parseFloat : jsstring -> Q)
    (p : Service.FuturesPositionRisk.t) : bool :=
  negb (Qeq_bool
          (Qabs (parseFloat (Service.FuturesPositionRisk.positionAmt p))) 0).

Definition order_for (parseFloat : jsstring -> Q)
    (p : Service.FuturesPositionRisk.t) : Service.FuturesOrderPayload.t :=
  closing_order p (parseFloat (Service.FuturesPositionRisk.positionAmt p)).

(** [r] reports the closing of [p]: its symbol and side, and success
    exactly when the exchange accepted the order. *)
Definition reports_closing (parseFloat : jsstring -> Q)
    (client : Service.Client) (p : Service.FuturesPositionRisk.t)
    (r : Service.ClosePositionResult.t) : Prop :=
  Service.ClosePositionResult.symbol r = Service.FuturesPositionRisk.symbol p
  /\ Service.ClosePositionResult.positionSide r
     = Service.FuturesPositionRisk.positionSide p
  /\ Service.ClosePositionResult.success r
     = match Service.postOrder client (order_for parseFloat p) with
       | inr _ => true
       | inl _ => false
       end.

(** An exchange that rejects every order. *)
Definition rejecting_client : Service.Client :=
  Service.mkClient (inr one_way_positions)
    (fun _ => inl (Service.ErrorObject (lit "Binance API error (400): -2019"))).


(** *** Hexadecimal text and signed requests *)

(** The value of a lower-case hexadecimal digit. *)
Definition hex_digit_value (c : N) : option N :=
  if ((48 <=? c) && (c <=? 57))%N then Some (c - 48)%N
  else if ((97 <=? c) && (c <=? 102))%N then Some (c - 87)%N
  else None.

(** The bytes written by a text of two hexadecimal digits per byte. *)
Fixpoint hex_decode (s : jsstring) : option (list N) :=
  match s with
  | [] => Some []
  | [_] => None
  | high :: low :: rest =>
      match hex_digit_value high, hex_digit_value low, hex_decode rest with
      | Some h, Some l, Some bytes => Some ((16 * h + l)%N :: bytes)
      | _, _, _ => None
      end
  end.

(** A sample runtime of the client: numbers are written in decimal, pairs
    are joined by [=] and [&], and the digest is a stand-in (the bytes of
    the key followed by those of the message). *)
Definition sample_number_toString (n : number) : jsstring :=
  match n with
  | Fin q => digits (Z.to_N (Qfloor q))
  | PInf => lit "Infinity"
  | NInf => lit "-Infinity"
  | NaN => lit "NaN"
  end.

Fixpoint sample_urlencode (l : list (jsstring * jsstring)) : jsstring :=
  match l with
  | [] => []
  | [(k, v)] => k ++ lit "=" ++ v
  | (k, v) :: rest => k ++ lit "=" ++ v ++ lit "&" ++ sample_urlencode rest
  end.

Definition sample_client_runtime : BinanceClient.Runtime :=
  BinanceClient.mkRuntime sample_number_toString sample_urlencode
    (fun s => s) (fun key message => key ++ message) 1700000000000.

Definition sample_instance : BinanceClient.Instance :=
  BinanceClient.new_client
    (BinanceClient.BinanceClientOptions.mk (lit "key") (lit "secret") None
       None (Some true)).

Definition sample_order_request : BinanceClient.RequestOptions.t :=
  BinanceClient.RequestOptions.mk BinanceClient.POST (lit "/fapi/v1/order")
    [(lit "symbol", Some (BinanceClient.PString (lit "ETHUSDT")));
     (lit "price", None);
     (lit "reduceOnly", Some (BinanceClient.PBool true))]
    true.


(** *** Text in the ASCII range *)

(** Every code unit of the text is below 128; on such text
    [JS.toUpperCase] is the built-in. *)
Definition ascii (s : jsstring) : Prop := Forall (fun c => (c < 128)%N) s.

(** What [updated] inherits for the name [autoTradingEnabled] when the
    payload holds an object under [__proto__]. *)
Definition inherited_flag (input : gmap jsstring jsval) : option jsval :=
  match input !! lit "__proto__" with
  | Some (VObject fields) => get_field (lit "autoTradingEnabled") fields
  | _ => None
  end.

End Spec.

(** * Properties *)

Import JS Schema.

(** ** Closing a trade of the mock store *)

Section CloseTrade.

Variable k : State.CloseClock.
Variable st : State.Store.
Variable tradeId : jsstring.

Lemma closeTrade_find_None :
  list_find (fun trade => Trade.id trade = tradeId) (State.trades_active st)
  = None ->
  State.closeTrade k st tradeId = (None, st).
Proof. intros Hfind. unfold State.closeTrade. now rewrite Hfind. Qed.

End CloseTrade.

(** C10. When no active trade carries the identifier, [closeTrade] returns
    [null] and the store it leaves is the store it found: active list,
    history, account (balances and positions) and activity log are all
    unchanged, and no log entry is written. *)
Theorem closeTrade_absent_is_noop (k : State.CloseClock) (st : State.Store)
    (tradeId : jsstring) :
  Forall (fun trade => Trade.id trade <> tradeId) (State.trades_active st) ->
  State.closeTrade k st tradeId = (None, st)
  /\ State.trades_active (snd (State.closeTrade k st tradeId))
     = State.trades_active st
  /\ State.trades_history (snd (State.closeTrade k st tradeId))
     = State.trades_history st
  /\ State.account (snd (State.closeTrade k st tradeId)) = State.account st
  /\ State.logs (snd (State.closeTrade k st tradeId)) = State.logs st.
Proof.
  intros Habsent.
  assert (Hnone : State.closeTrade k st tradeId = (None, st)).
  { apply closeTrade_find_None. now apply list_find_None. }
  rewrite Hnone. repeat split.
Qed.

Lemma closeTrade_absent_is_noop_witness :
  State.closeTrade Spec.sample_clock Spec.seed (lit "trade-unknown")
  = (None, Spec.seed).
Proof.
  apply (closeTrade_absent_is_noop Spec.sample_clock Spec.seed
           (lit "trade-unknown")).
  repeat constructor; discriminate.
Defined.

Section CloseTradeFound.

Variable k : State.CloseClock.
Variable st : State.Store.
Variable tradeId : jsstring.
Variable i : nat.
Variable trade : Trade.t.
Hypothesis Hfind :
  list_find (fun t => Trade.id t = tradeId) (State.trades_active st)
  = Some (i, trade).

(** The successful path of [closeTrade], step by step. *)
Lemma closeTrade_found_steps :
  exists exitPrice,
    let profit :=
      State.round
        ((exitPrice - Trade.entryPrice trade) * Trade.quantity trade
         * Spec.direction trade) 2 in
    let c :=
      State.closed_record trade exitPrice (State.exit_iso k) profit
        (snd (State.calculateProfit trade exitPrice)) in
    let st2 :=
      State.set_trades_history
        (State.set_trades_active st (delete i (State.trades_active st)))
        (c :: State.trades_history st) in
    let st3 :=
      State.set_totalBalance st2
        (State.round
           (State.AccountState.totalBalance (State.account st) + profit) 2) in
    let st5 :=
      State.syncAccountBalances
        (State.removePosition (State.toSymbolKey (Trade.symbol trade)) st3) in
    exists level message details,
      State.closeTrade k st tradeId
      = (Some c, snd (State.addLog (State.log_stamp k) st5 level message details)).
Proof.
  unfold State.closeTrade. rewrite Hfind. cbv zeta.
  match goal with
  | |- context [State.calculateProfit trade ?x] => exists x
  end.
  unfold State.calculateProfit at 1. cbv zeta.
  do 3 eexists. reflexivity.
Qed.

End CloseTradeFound.

Lemma find_first_by_id (l : list Trade.t) (tradeId : jsstring) :
  In tradeId (map Trade.id l) ->
  exists i trade,
    list_find (fun t => Trade.id t = tradeId) l = Some (i, trade).
Proof.
  intros Hin. apply in_map_iff in Hin as (x & Hid & Hx).
  apply list_elem_of_In in Hx.
  destruct (list_find_elem_of (fun t => Trade.id t = tradeId) l x Hx Hid)
    as [[i trade] Hfind].
  now exists i, trade.
Qed.

Lemma marginUsed_margin_sum_from (ps : list State.AccountPosition.t) (a : Q) :
  fold_left
    (fun acc position =>
       acc
       + State.AccountPosition.entryPrice position
         * State.AccountPosition.quantity position
         / Qmax (State.AccountPosition.leverage position) 1)
    ps a
  == a + Spec.margin_sum ps.
Proof.
  revert a. induction ps as [|p ps IH]; intros a; simpl.
  - ring.
  - rewrite IH. ring.
Qed.

Lemma marginUsed_margin_sum (st : State.Store) :
  State.marginUsed st
  == Spec.margin_sum (State.AccountState.positions (State.account st)).
Proof.
  unfold State.marginUsed. cbv zeta.
  rewrite marginUsed_margin_sum_from. ring.
Qed.

(** Removing a position, synchronising the balances and logging leave the
    two trade lists alone. *)
Lemma closeTrade_tail_active (s : State.Stamp) (key : jsstring)
    (st : State.Store) (level : LogLevel) (message : jsstring)
    (details : option jsstring) :
  State.trades_active
    (snd (State.addLog s
            (State.syncAccountBalances (State.removePosition key st))
            level message details))
  = State.trades_active st.
Proof.
  unfold State.removePosition. cbv zeta.
  destruct (list_find _ _) as [[? ?]|]; reflexivity.
Qed.

Lemma closeTrade_tail_history (s : State.Stamp) (key : jsstring)
    (st : State.Store) (level : LogLevel) (message : jsstring)
    (details : option jsstring) :
  State.trades_history
    (snd (State.addLog s
            (State.syncAccountBalances (State.removePosition key st))
            level message details))
  = State.trades_history st.
Proof.
  unfold State.removePosition. cbv zeta.
  destruct (list_find _ _) as [[? ?]|]; reflexivity.
Qed.

Lemma round_rounded_to_cents (x : Q) :
  Spec.rounded_to_cents x (State.round x 2).
Proof.
  split.
  - exists (Math_round (x * pow10 2)). reflexivity.
  - unfold State.round, Math_round. cbv zeta. change (pow10 2) with 100.
    pose proof (Qfloor_le (x * 100 + (1 # 2))) as Hlo.
    pose proof (Qlt_floor (x * 100 + (1 # 2))) as Hhi.
    rewrite inject_Z_plus in Hhi. change (inject_Z 1) with 1 in Hhi.
    set (z := inject_Z (Qfloor (x * 100 + (1 # 2)))) in *.
    split.
    + apply Qle_shift_div_l; lra.
    + apply Qle_shift_div_r; lra.
Qed.

(** C3, as the code has it.  For every identifier carried by an active
    trade, [closeTrade] takes the first such trade out of the active list
    and puts exactly one new record at the head of the history list: the
    trade with [status = closed], an exit price, the exit time, and
    [profit] equal to
    [(exitPrice - entryPrice) * quantity * (+1 long, -1 short)]
    rounded to the cent, that is a whole number of cents at most half a
    cent away from that product. *)
Theorem closeTrade_moves_trade_to_history (k : State.CloseClock)
    (st : State.Store) (tradeId : jsstring) :
  In tradeId (map Trade.id (State.trades_active st)) ->
  exists i trade exitPrice profit profitPercent c,
    State.trades_active st !! i = Some trade
    /\ Trade.id trade = tradeId
    /\ (forall j t, State.trades_active st !! j = Some t -> (j < i)%nat ->
                    Trade.id t <> tradeId)
    /\ c = State.closed_record trade exitPrice (State.exit_iso k) profit
             profitPercent
    /\ fst (State.closeTrade k st tradeId) = Some c
    /\ State.trades_active (snd (State.closeTrade k st tradeId))
       = delete i (State.trades_active st)
    /\ State.trades_history (snd (State.closeTrade k st tradeId))
       = c :: State.trades_history st
    /\ Trade.status c = closed
    /\ Trade.exitPrice c = Some exitPrice
    /\ Trade.exitTime c = Some (State.exit_iso k)
    /\ Trade.profit c = Some profit
    /\ Spec.rounded_to_cents
         ((exitPrice - Trade.entryPrice trade) * Trade.quantity trade
          * Spec.direction trade)
         profit.
Proof.
  intros Hin.
  destruct (find_first_by_id _ _ Hin) as (i & trade & Hfind).
  destruct (closeTrade_found_steps k st tradeId i trade Hfind)
    as (exitPrice & level & message & details & Hrun).
  cbv zeta in Hrun.
  apply list_find_Some in Hfind as (Hi & Hid & Hfirst).
  exists i, trade, exitPrice,
    (fst (State.calculateProfit trade exitPrice)),
    (snd (State.calculateProfit trade exitPrice)).
  eexists. split; [exact Hi|]. split; [exact Hid|].
  split; [exact Hfirst|]. split; [reflexivity|].
  rewrite Hrun. cbn [fst snd].
  split; [reflexivity|].
  rewrite closeTrade_tail_active, closeTrade_tail_history.
  do 6 (split; [reflexivity|]).
  apply round_rounded_to_cents.
Qed.

Lemma closeTrade_moves_trade_to_history_witness :
  exists c,
    fst (State.closeTrade Spec.sample_clock Spec.seed
           (lit "trade-btc-long-active")) = Some c
    /\ Trade.status c = closed.
Proof.
  destruct (closeTrade_moves_trade_to_history Spec.sample_clock Spec.seed
              (lit "trade-btc-long-active"))
    as (i & trade & x & p & pp & c & _ & _ & _ & _ & Hfst & _ & _ & Hst & _).
  - vm_compute. left. reflexivity.
  - exists c. split; [exact Hfst | exact Hst].
Defined.

(** C3 as literally stated fails on the seed store: closing the BTC long at
    a market price of 67420 gives the exit price 67420.40 and the stored
    profit 59.48, while [(exitPrice - entryPrice) * quantity] is 59.4825;
    and the new record is the first element of the history list, not the
    last. *)
Lemma closeTrade_profit_not_exact_product :
  exists c x p,
    fst (State.closeTrade Spec.sample_clock Spec.seed
           (lit "trade-btc-long-active")) = Some c
    /\ Trade.exitPrice c = Some x
    /\ Trade.profit c = Some p
    /\ x == 67420.4
    /\ p == 59.48
    /\ ~ p == (x - Trade.entryPrice c) * Trade.quantity c * Spec.direction c
    /\ State.trades_history
         (snd (State.closeTrade Spec.sample_clock Spec.seed
                 (lit "trade-btc-long-active")))
       <> State.trades_history Spec.seed ++ [c].
Proof.
  do 3 eexists.
  split; [vm_compute; reflexivity|].
  split; [reflexivity|].
  split; [reflexivity|].
  split; [reflexivity|].
  split; [reflexivity|].
  split.
  - vm_compute. discriminate.
  - vm_compute. discriminate.
Qed.

(** ** The balance invariant of the mock account *)

Lemma Qmax_comp (a b c d : Q) : a == b -> c == d -> Qmax a c == Qmax b d.
Proof.
  intros Hab Hcd. unfold Qmax.
  destruct (Qle_bool a c) eqn:E1, (Qle_bool b d) eqn:E2; trivial.
  - apply Qle_bool_iff in E1. rewrite Hab, Hcd in E1.
    apply Qle_bool_iff in E1. congruence.
  - apply Qle_bool_iff in E2. rewrite <- Hab, <- Hcd in E2.
    apply Qle_bool_iff in E2. congruence.
Qed.

Lemma round_comp (x y : Q) (p : nat) : x == y -> State.round x p == State.round y p.
Proof.
  intros Hxy. unfold State.round, Math_round. cbv zeta.
  assert (H : Qfloor (x * pow10 p + (1 # 2)) = Qfloor (y * pow10 p + (1 # 2))).
  { apply Qfloor_comp. now rewrite Hxy. }
  now rewrite H.
Qed.

Lemma syncAccountBalances_synced (st : State.Store) :
  Spec.balances_synced (State.syncAccountBalances st).
Proof.
  unfold Spec.balances_synced, State.syncAccountBalances. cbn.
  apply round_comp, Qmax_comp; [|reflexivity].
  now rewrite marginUsed_margin_sum.
Qed.

Lemma addLog_account (s : State.Stamp) (st : State.Store) (level : LogLevel)
    (message : jsstring) (details : option jsstring) :
  State.account (snd (State.addLog s st level message details))
  = State.account st.
Proof. reflexivity. Qed.

Lemma closeTrade_found_synced (k : State.CloseClock) (st : State.Store)
    (tradeId : jsstring) (i : nat) (trade : Trade.t) :
  list_find (fun t => Trade.id t = tradeId) (State.trades_active st)
  = Some (i, trade) ->
  Spec.balances_synced (snd (State.closeTrade k st tradeId)).
Proof.
  intros Hfind.
  destruct (closeTrade_found_steps k st tradeId i trade Hfind)
    as (exitPrice & level & message & details & Hrun).
  cbv zeta in Hrun. rewrite Hrun. cbn [snd].
  unfold Spec.balances_synced. rewrite addLog_account.
  apply syncAccountBalances_synced.
Qed.

Lemma closeTrade_found_lists (k : State.CloseClock) (st : State.Store)
    (tradeId : jsstring) (i : nat) (trade : Trade.t) :
  list_find (fun t => Trade.id t = tradeId) (State.trades_active st)
  = Some (i, trade) ->
  State.trades_active (snd (State.closeTrade k st tradeId))
  = delete i (State.trades_active st)
  /\ length (State.trades_history (snd (State.closeTrade k st tradeId)))
     = S (length (State.trades_history st)).
Proof.
  intros Hfind.
  destruct (closeTrade_found_steps k st tradeId i trade Hfind)
    as (exitPrice & level & message & details & Hrun).
  cbv zeta in Hrun. rewrite Hrun. cbn [snd].
  rewrite closeTrade_tail_active, closeTrade_tail_history. split; reflexivity.
Qed.

Lemma find_head_by_id (t : Trade.t) (rest : list Trade.t) :
  list_find (fun x => Trade.id x = Trade.id t) (t :: rest) = Some (0%nat, t).
Proof.
  apply list_find_Some. repeat split; trivial. intros j y _ Hj. lia.
Qed.

(** Every iteration of [closeAllTrades] closes the head of the active list. *)
Lemma closeAll_loop_spec (clock : nat -> State.CloseClock)
    (l : list Trade.t) :
  forall (n : nat) (st : State.Store) (acc : list Trade.t),
    State.trades_active st = l ->
    (l = [] -> Spec.balances_synced st) ->
    let st' := snd (State.closeAll_loop clock n l st acc) in
    Spec.balances_synced st'
    /\ State.trades_active st' = []
    /\ length (State.trades_history st')
       = (length (State.trades_history st) + length l)%nat.
Proof.
  induction l as [|t rest IH]; intros n st acc Hact Hsync; cbn.
  - repeat split; auto.
  - pose proof (find_head_by_id t rest) as Hfind. rewrite <- Hact in Hfind.
    pose proof (closeTrade_found_synced (clock n) st _ _ _ Hfind) as Hs.
    pose proof (closeTrade_found_lists (clock n) st _ _ _ Hfind) as [Ha Hh].
    destruct (State.closeTrade (clock n) st (Trade.id t)) as [result st1].
    cbn [snd] in Hs, Ha, Hh.
    rewrite Hact in Ha. cbn in Ha.
    destruct (IH (S n) st1
                match result with Some c => acc ++ [c] | None => acc end
                Ha (fun _ => Hs)) as (H1 & H2 & H3).
    repeat split; trivial. rewrite H3, Hh. lia.
Qed.

(** C6, as the code has it.  After [closeTrade] has closed a trade, and
    after [closeAllTrades] on a store with at least one active trade, the
    available balance equals the total balance less the sum over the
    remaining positions of [entryPrice * quantity / max(leverage, 1)],
    floored at zero and rounded to two decimals. *)
Theorem available_balance_synced_after_close :
  (forall (k : State.CloseClock) (st : State.Store) (tradeId : jsstring),
      In tradeId (map Trade.id (State.trades_active st)) ->
      Spec.balances_synced (snd (State.closeTrade k st tradeId)))
  /\ (forall (clock : nat -> State.CloseClock) (st : State.Store),
         State.trades_active st <> [] ->
         Spec.balances_synced (snd (State.closeAllTrades clock st))
         /\ State.trades_active (snd (State.closeAllTrades clock st)) = []).
Proof.
  split.
  - intros k st tradeId Hin.
    destruct (find_first_by_id _ _ Hin) as (i & trade & Hfind).
    eapply closeTrade_found_synced; eauto.
  - intros clock st Hne. unfold State.closeAllTrades.
    destruct (closeAll_loop_spec clock (State.trades_active st) 0%nat st []
                eq_refl (fun H => False_ind _ (Hne H))) as (H1 & H2 & _).
    now split.
Qed.

Lemma available_balance_synced_after_close_witness :
  Spec.balances_synced
    (snd (State.closeTrade Spec.sample_clock Spec.seed
            (lit "trade-sol-long-active")))
  /\ Spec.balances_synced
       (snd (State.closeAllTrades (fun _ => Spec.sample_clock) Spec.seed)).
Proof.
  split.
  - apply (proj1 available_balance_synced_after_close).
    vm_compute. do 2 right. left. reflexivity.
  - apply (proj2 available_balance_synced_after_close).
    discriminate.
Defined.

(** C6 as literally stated fails on the seed store: after the SOL long is
    closed the account holds 126078.00 in total, the two remaining positions
    bind 4707.5315 + 3583.80, and the available balance is 117786.67, not
    117786.6685. *)
Lemma available_balance_not_exact_difference :
  let a :=
    State.account
      (snd (State.closeTrade Spec.sample_clock Spec.seed
              (lit "trade-sol-long-active"))) in
  State.AccountState.totalBalance a == 126078
  /\ Spec.leveraged_notional (State.AccountState.positions a) == 8291.3315
  /\ State.AccountState.availableBalance a == 117786.67
  /\ ~ State.AccountState.availableBalance a
       == State.AccountState.totalBalance a
          - Spec.leveraged_notional (State.AccountState.positions a).
Proof.
  cbv zeta. repeat split; try (vm_compute; reflexivity).
  vm_compute. discriminate.
Qed.

(** ** Statistics *)

Lemma roundNumber_is_round (x : Q) (p : nat) :
  Service.roundNumber x p = State.round x p.
Proof. reflexivity. Qed.

Lemma Math_round_comp (x y : Q) : x == y -> Math_round x = Math_round y.
Proof. intros H. unfold Math_round. apply Qfloor_comp. now rewrite H. Qed.



Section Scenario.

Variables t1 t2 t3 : Trade.t.
Hypothesis Hp1 : Trade.profit t1 = Some 100.
Hypothesis Hp2 : Trade.profit t2 = Some (- (50)).
Hypothesis Hp3 : Trade.profit t3 = Some 0.




End Scenario.



(** *** Rounding *)

Lemma Qfloor_unique (x : Q) (z : Z) :
  inject_Z z <= x -> x < inject_Z (z + 1) -> Qfloor x = z.
Proof.
  intros Hlo Hhi.
  assert (H1 : (z <= Qfloor x)%Z).
  { rewrite <- (Qfloor_Z z). now apply Qfloor_resp_le. }
  assert (H2 : (Qfloor x < z + 1)%Z).
  { rewrite Zlt_Qlt. eapply Qle_lt_trans; [apply Qfloor_le | exact Hhi]. }
  lia.
Qed.

Lemma Math_round_inject_Z (z : Z) : Math_round (inject_Z z) = z.
Proof.
  unfold Math_round. apply Qfloor_unique.
  - lra.
  - rewrite inject_Z_plus. change (inject_Z 1) with 1. lra.
Qed.

Lemma round_cents (q : Q) : Spec.is_cents q -> State.round q 2 == q.
Proof.
  intros [z Hz]. unfold State.round. cbv zeta.
  change (pow10 2) with 100.
  rewrite (Math_round_comp (q * 100) (inject_Z z)).
  - rewrite Math_round_inject_Z. now symmetry.
  - rewrite Hz. field.
Qed.

Lemma round_mono (x y : Q) : x <= y -> State.round x 2 <= State.round y 2.
Proof.
  intros Hxy. unfold State.round, Math_round. cbv zeta.
  change (pow10 2) with 100.
  assert (H : (Qfloor (x * 100 + (1 # 2)) <= Qfloor (y * 100 + (1 # 2)))%Z).
  { apply Qfloor_resp_le. lra. }
  rewrite Zle_Qle in H. apply Qmult_le_compat_r with (z := / 100) in H.
  - exact H.
  - apply Qinv_le_0_compat. lra.
Qed.

Lemma round_0 : State.round 0 2 == 0.
Proof. reflexivity. Qed.

Lemma round_100 : State.round 100 2 == 100.
Proof. reflexivity. Qed.

(** *** Maximum and minimum *)

Lemma Qmax_cases (a b : Q) :
  (a <= b /\ Qmax a b = b) \/ (b < a /\ Qmax a b = a).
Proof.
  unfold Qmax. destruct (Qle_bool a b) eqn:E.
  - left. split; [now apply Qle_bool_iff | reflexivity].
  - right. split; [|reflexivity].
    apply Qnot_le_lt. intros H. apply Qle_bool_iff in H. congruence.
Qed.

Lemma Qmin_cases (a b : Q) :
  (a <= b /\ Spec.Qmin a b = a) \/ (b < a /\ Spec.Qmin a b = b).
Proof.
  unfold Spec.Qmin. destruct (Qle_bool a b) eqn:E.
  - left. split; [now apply Qle_bool_iff | reflexivity].
  - right. split; [|reflexivity].
    apply Qnot_le_lt. intros H. apply Qle_bool_iff in H. congruence.
Qed.

Ltac split_max a b :=
  let H := fresh in
  let E := fresh in
  destruct (Qmax_cases a b) as [[H E]|[H E]]; rewrite E in *; clear E.

Ltac split_min a b :=
  let H := fresh in
  let E := fresh in
  destruct (Qmin_cases a b) as [[H E]|[H E]]; rewrite E in *; clear E.

Ltac minmax_cases :=
  repeat match goal with
         | |- context [Qmax ?a ?b] => split_max a b
         | _ : context [Qmax ?a ?b] |- _ => split_max a b
         | |- context [Spec.Qmin ?a ?b] => split_min a b
         | _ : context [Spec.Qmin ?a ?b] |- _ => split_min a b
         end;
  try lra.

Lemma best_of_nonneg (l : list Trade.t) : 0 <= Spec.best_of l.
Proof.
  induction l as [|t l IH]; simpl; [lra|].
  destruct (Trade.profit t); [minmax_cases | exact IH].
Qed.

Lemma worst_of_nonpos (l : list Trade.t) : Spec.worst_of l <= 0.
Proof.
  induction l as [|t l IH]; simpl; [lra|].
  destruct (Trade.profit t); [minmax_cases | exact IH].
Qed.

(** The reduction of the code, seeded at 0, never leaves the finite
    numbers and computes the largest profit floored at 0. *)
Lemma best_reduce (l : list Trade.t) :
  forall a : Q,
    0 <= a ->
    exists b,
      fold_left
        (fun max trade =>
           Math_max max (from_option Fin NInf (Trade.profit trade)))
        l (Fin a)
      = Fin b
      /\ b == Qmax a (Spec.best_of l).
Proof.
  induction l as [|t l IH]; intros a Ha; simpl.
  - exists a. split; [reflexivity | minmax_cases].
  - destruct (Trade.profit t) as [p|]; simpl.
    + assert (Hstep : (if Qle_bool a p then Fin p else Fin a) = Fin (Qmax a p)).
      { unfold Qmax. now destruct (Qle_bool a p). }
      rewrite Hstep.
      destruct (IH (Qmax a p)) as (b & Hb & Hbq).
      { minmax_cases. }
      exists b. split; [exact Hb|]. rewrite Hbq.
      pose proof (best_of_nonneg l). minmax_cases.
    + destruct (IH a Ha) as (b & Hb & Hbq). exists b. now split.
Qed.

Lemma worst_reduce (l : list Trade.t) :
  forall a : Q,
    a <= 0 ->
    exists w,
      fold_left
        (fun min trade =>
           Math_min min (from_option Fin PInf (Trade.profit trade)))
        l (Fin a)
      = Fin w
      /\ w == Spec.Qmin a (Spec.worst_of l).
Proof.
  induction l as [|t l IH]; intros a Ha; simpl.
  - exists a. split; [reflexivity | minmax_cases].
  - destruct (Trade.profit t) as [p|]; simpl.
    + assert (Hstep : (if Qle_bool a p then Fin a else Fin p)
                      = Fin (Spec.Qmin a p)).
      { unfold Spec.Qmin. now destruct (Qle_bool a p). }
      rewrite Hstep.
      destruct (IH (Spec.Qmin a p)) as (w & Hw & Hwq).
      { minmax_cases. }
      exists w. split; [exact Hw|]. rewrite Hwq.
      pose proof (worst_of_nonpos l). minmax_cases.
    + destruct (IH a Ha) as (w & Hw & Hwq). exists w. now split.
Qed.

Lemma best_of_all_nonpos (l : list Trade.t) :
  Forall (Spec.profit_satisfies (fun p => p <= 0)) l -> Spec.best_of l == 0.
Proof.
  induction 1 as [|t l Ht _ IH]; simpl; [reflexivity|].
  unfold Spec.profit_satisfies in Ht.
  destruct (Trade.profit t); [minmax_cases | exact IH].
Qed.

Lemma worst_of_all_nonneg (l : list Trade.t) :
  Forall (Spec.profit_satisfies (fun p => 0 <= p)) l -> Spec.worst_of l == 0.
Proof.
  induction 1 as [|t l Ht _ IH]; simpl; [reflexivity|].
  unfold Spec.profit_satisfies in Ht.
  destruct (Trade.profit t); [minmax_cases | exact IH].
Qed.

Lemma is_cents_0 : Spec.is_cents 0.
Proof. exists 0%Z. reflexivity. Qed.

Lemma best_of_cents (l : list Trade.t) :
  Forall (Spec.profit_satisfies Spec.is_cents) l ->
  Spec.is_cents (Spec.best_of l).
Proof.
  induction 1 as [|t l Ht _ IH]; simpl; [apply is_cents_0|].
  unfold Spec.profit_satisfies in Ht.
  destruct (Trade.profit t) as [p|]; [|exact IH].
  destruct (Qmax_cases p (Spec.best_of l)) as [[_ E]|[_ E]]; now rewrite E.
Qed.

Lemma worst_of_cents (l : list Trade.t) :
  Forall (Spec.profit_satisfies Spec.is_cents) l ->
  Spec.is_cents (Spec.worst_of l).
Proof.
  induction 1 as [|t l Ht _ IH]; simpl; [apply is_cents_0|].
  unfold Spec.profit_satisfies in Ht.
  destruct (Trade.profit t) as [p|]; [|exact IH].
  destruct (Qmin_cases p (Spec.worst_of l)) as [[_ E]|[_ E]]; now rewrite E.
Qed.

(** Any statistics record whose extremes are the two rounded reductions of
    the code satisfies C2. *)
Lemma extremes_of_reductions (l : list Trade.t) (d : Stats.Detailed) :
  Stats.bestTrade d
  = State.round_number
      (fold_left
         (fun max trade =>
            Math_max max (from_option Fin NInf (Trade.profit trade)))
         l (Fin 0)) 2 ->
  Stats.worstTrade d
  = State.round_number
      (fold_left
         (fun min trade =>
            Math_min min (from_option Fin PInf (Trade.profit trade)))
         l (Fin 0)) 2 ->
  Spec.extremes_of l d.
Proof.
  intros Hbest Hworst.
  destruct (best_reduce l 0) as (b0 & Hb0 & Eb0); [lra|].
  destruct (worst_reduce l 0) as (w0 & Hw0 & Ew0); [lra|].
  rewrite Hb0 in Hbest. rewrite Hw0 in Hworst. cbn in Hbest, Hworst.
  pose proof (best_of_nonneg l) as Hbn.
  pose proof (worst_of_nonpos l) as Hwn.
  assert (Eb : b0 == Spec.best_of l) by (rewrite Eb0; minmax_cases).
  assert (Ew : w0 == Spec.worst_of l) by (rewrite Ew0; minmax_cases).
  exists (State.round b0 2), (State.round w0 2).
  split; [exact Hbest|]. split; [exact Hworst|].
  split; [now apply round_comp|]. split; [now apply round_comp|].
  split.
  { rewrite <- round_0. apply round_mono. lra. }
  split.
  { rewrite <- round_0. apply round_mono. lra. }
  split.
  { intros Hall. rewrite (round_comp b0 0); [apply round_0|].
    rewrite Eb. now apply best_of_all_nonpos. }
  split.
  { intros Hall. rewrite (round_comp w0 0); [apply round_0|].
    rewrite Ew. now apply worst_of_all_nonneg. }
  intros Hall. split.
  - rewrite (round_comp b0 (Spec.best_of l) 2 Eb).
    apply round_cents. now apply best_of_cents.
  - rewrite (round_comp w0 (Spec.worst_of l) 2 Ew).
    apply round_cents. now apply worst_of_cents.
Qed.

(** C2. In both statistics computations the best/worst reductions start at
    0 and stay finite: [bestTrade] is the largest closed-trade profit
    floored at 0 and [worstTrade] the smallest one capped at 0 (each passed
    through the two-decimal rounding of the output, which changes nothing
    when profits have two decimals, as every profit the two back ends store
    has); a history without a winning trade reports [bestTrade = 0] and one
    without a losing trade reports [worstTrade = 0]. *)
Theorem best_worst_seeded_at_zero (within_day : jsstring -> bool)
    (st : State.Store) (summary : Stats.Summary) (history : list Trade.t) :
  Spec.extremes_of (State.trades_history st)
    (State.getDetailedStats within_day st)
  /\ Spec.extremes_of (Spec.closed_only history)
       (Service.getDetailedStats summary history).
Proof.
  split; apply extremes_of_reductions; reflexivity.
Qed.

(** Every profit kept by the mock store has two decimals: the seed profits
    have, and [closeTrade] stores a rounded profit. *)
Lemma round_is_cents (x : Q) : Spec.is_cents (State.round x 2).
Proof. exists (Math_round (x * pow10 2)). reflexivity. Qed.

Lemma cents_of_round (q : Q) : State.round q 2 == q -> Spec.is_cents q.
Proof.
  intros H. destruct (round_is_cents q) as [z Hz]. exists z.
  now rewrite <- H.
Qed.

Lemma seed_history_cents (iso_ago : Z -> jsstring) :
  Forall (Spec.profit_satisfies Spec.is_cents)
         (State.trades_history (State.initial_state iso_ago)).
Proof.
  repeat constructor; unfold Spec.profit_satisfies; cbn;
    apply cents_of_round; vm_compute; reflexivity.
Qed.

Lemma closeTrade_history_cents (k : State.CloseClock) (st : State.Store)
    (tradeId : jsstring) :
  Forall (Spec.profit_satisfies Spec.is_cents) (State.trades_history st) ->
  Forall (Spec.profit_satisfies Spec.is_cents)
         (State.trades_history (snd (State.closeTrade k st tradeId))).
Proof.
  intros Hall.
  destruct (list_find (fun t => Trade.id t = tradeId) (State.trades_active st))
    as [[i trade]|] eqn:Hfind.
  - destruct (closeTrade_found_steps k st tradeId i trade Hfind)
      as (exitPrice & level & message & details & Hrun).
    cbv zeta in Hrun. rewrite Hrun. cbn [snd].
    rewrite closeTrade_tail_history. cbn.
    constructor; [|exact Hall].
    unfold Spec.profit_satisfies. cbn. apply round_is_cents.
  - now rewrite (closeTrade_find_None k st tradeId Hfind).
Qed.

(** *** Win rate *)

Lemma filter_wins (l : list Trade.t) :
  length (List.filter (fun t => Qltb 0 (Trade.profit_or_0 t)) l)
  = Spec.wins l.
Proof.
  induction l as [|t l IH]; simpl; [reflexivity|].
  unfold Trade.profit_or_0 at 1.
  destruct (Trade.profit t) as [p|]; simpl.
  - destruct (Qltb 0 p); simpl; now rewrite IH.
  - exact IH.
Qed.

Lemma wins_le_length (l : list Trade.t) : (Spec.wins l <= length l)%nat.
Proof.
  induction l as [|t l IH]; simpl; [lia|].
  destruct (Trade.profit t) as [p|]; [destruct (Qltb 0 p)|]; lia.
Qed.

Lemma ratio_bounds (w n : nat) :
  (w <= S n)%nat ->
  0 <= Stats.of_nat w / Stats.of_nat (S n) * 100 <= 100.
Proof.
  intros Hw. unfold Stats.of_nat.
  assert (Hn : 0 < inject_Z (Z.of_nat (S n))).
  { change 0 with (inject_Z 0). rewrite <- Zlt_Qlt. lia. }
  assert (H0 : 0 <= inject_Z (Z.of_nat w)).
  { change 0 with (inject_Z 0). rewrite <- Zle_Qle. lia. }
  assert (H1 : inject_Z (Z.of_nat w) <= inject_Z (Z.of_nat (S n))).
  { rewrite <- Zle_Qle. lia. }
  set (W := inject_Z (Z.of_nat w)) in *.
  set (L := inject_Z (Z.of_nat (S n))) in *.
  assert (Hq : 0 <= W / L <= 1).
  { split.
    - apply Qle_shift_div_l; [exact Hn | lra].
    - apply Qle_shift_div_r; [exact Hn | lra]. }
  lra.
Qed.

(** The rounded ratio computed by both back ends satisfies the win-rate
    statement. *)
Lemma win_rate_of_ratio (l : list Trade.t) (r : Q) :
  r == match length l with
       | O => 0
       | S _ =>
           State.round
             (Stats.of_nat (Spec.wins l) / Stats.of_nat (length l) * 100) 2
       end ->
  Spec.win_rate_of l r.
Proof.
  intros Hr. unfold Spec.win_rate_of.
  destruct l as [|t l]; cbn [length] in Hr.
  - rewrite Hr. repeat split; try lra; try reflexivity.
  - pose proof (wins_le_length (t :: l)) as Hw. cbn [length] in Hw.
    pose proof (ratio_bounds _ _ Hw) as [Hlo Hhi].
    split; [|split; [discriminate|]].
    + pose proof round_0 as R0. pose proof round_100 as R100.
      pose proof (round_mono _ _ Hlo). pose proof (round_mono _ _ Hhi).
      lra.
    + intros _. rewrite Hr. cbn [length]. apply round_comp.
      unfold Stats.of_nat. field.
      change 0 with (inject_Z 0). rewrite inject_Z_injective. lia.
Qed.

(** C5, as the code has it.  For every trade list, winRate lies in [0, 100];
    it is 0 when there is no closed trade, and otherwise it is
    [100 * wins / closed] rounded to two decimals, where [wins] counts the
    closed trades with a profit above zero.  The closed trades of the
    adapter are the trades with [status = closed]; those of the mock store
    are the records of its history list. *)
Theorem win_rate_rounded_ratio (within_day : jsstring -> bool)
    (st : State.Store) (summary : Stats.Summary) (history : list Trade.t) :
  Spec.win_rate_of (State.trades_history st)
    (Stats.winRate (State.getDetailedStats within_day st))
  /\ Spec.win_rate_of (Spec.closed_only history)
       (Stats.winRate (Service.getDetailedStats summary history)).
Proof.
  split; apply win_rate_of_ratio.
  - unfold State.getDetailedStats. cbv zeta. cbn [Stats.winRate].
    rewrite filter_wins.
    destruct (State.trades_history st); [apply round_0 | reflexivity].
  - unfold Service.getDetailedStats. cbv zeta. cbn [Stats.winRate].
    rewrite filter_wins. reflexivity.
Qed.

(** C5 as literally stated fails on the scenario of C1: one win among three
    closed trades is reported as 33.33, which is not [100 * 1 / 3]. *)
Lemma win_rate_not_exact_ratio :
  let d := State.getDetailedStats (fun _ => true) Spec.scenario_store in
  let d' := Service.getDetailedStats Spec.scenario_summary Spec.scenario in
  Spec.wins Spec.scenario = 1%nat
  /\ length Spec.scenario = 3%nat
  /\ Stats.winRate d == 33.33
  /\ Stats.winRate d' == 33.33
  /\ ~ Stats.winRate d
       == 100 * Stats.of_nat (Spec.wins Spec.scenario)
          / Stats.of_nat (length Spec.scenario)
  /\ ~ Stats.winRate d'
       == 100 * Stats.of_nat (Spec.wins Spec.scenario)
          / Stats.of_nat (length Spec.scenario).
Proof.
  cbv zeta. repeat split; try (vm_compute; reflexivity);
    vm_compute; discriminate.
Qed.

(** ** Display symbols and wire symbols *)

Lemma endsWith_suffix (s q : jsstring) :
  endsWith s q = true <-> q `suffix_of` s.
Proof.
  unfold endsWith. rewrite andb_true_iff, Nat.leb_le, bool_decide_eq_true.
  split.
  - intros [_ Hdrop]. exists (take (length s - length q) s).
    rewrite <- Hdrop at 2. symmetry. apply take_drop.
  - intros [k ->]. rewrite length_app. split; [lia|].
    replace (length k + length q - length q)%nat with (length k) by lia.
    apply drop_app_length.
Qed.

Lemma endsWith_app (b q : jsstring) : endsWith (b ++ q) q = true.
Proof. apply endsWith_suffix. now exists b. Qed.

Lemma suffix_of_app (q' b q : jsstring) :
  q' `suffix_of` (b ++ q) -> q' `suffix_of` q \/ q `suffix_of` q'.
Proof.
  intros [k Hk].
  apply app_eq_inv in Hk as [(m & _ & Hm)|(m & _ & Hm)].
  - right. now exists m.
  - left. now exists m.
Qed.

(** No recognised quote asset is a suffix of another one. *)
Lemma QUOTE_ASSETS_suffix_free (q1 q2 : jsstring) :
  In q1 Service.QUOTE_ASSETS -> In q2 Service.QUOTE_ASSETS ->
  q1 `suffix_of` q2 -> q1 = q2.
Proof.
  intros H1 H2 Hs.
  assert (Hb :
    forallb
      (fun a =>
         forallb (fun b => implb (endsWith b a) (bool_decide (a = b)))
                 Service.QUOTE_ASSETS)
      Service.QUOTE_ASSETS = true) by (vm_compute; reflexivity).
  rewrite forallb_forall in Hb. specialize (Hb q1 H1).
  rewrite forallb_forall in Hb. specialize (Hb q2 H2).
  apply endsWith_suffix in Hs. rewrite Hs in Hb. cbn in Hb.
  now apply bool_decide_eq_true in Hb.
Qed.

Lemma QUOTE_ASSETS_upper (q : jsstring) :
  In q Service.QUOTE_ASSETS -> toUpperCase q = q.
Proof.
  intros Hq.
  assert (Hb :
    forallb (fun a => bool_decide (toUpperCase a = a)) Service.QUOTE_ASSETS
    = true) by (vm_compute; reflexivity).
  rewrite forallb_forall in Hb. specialize (Hb q Hq).
  now apply bool_decide_eq_true in Hb.
Qed.

Lemma formatDisplaySymbol_from_app (quotes : list jsstring) (b q : jsstring) :
  (forall q1 q2, In q1 quotes -> In q2 quotes -> q1 `suffix_of` q2 -> q1 = q2) ->
  In q quotes ->
  Service.formatDisplaySymbol_from quotes (b ++ q) = b ++ lit "/" ++ q.
Proof.
  induction quotes as [|q' rest IH]; intros Hfree Hq; [destruct Hq|].
  cbn [Service.formatDisplaySymbol_from].
  destruct (endsWith (b ++ q) q') eqn:E.
  - assert (q' = q) as ->.
    { apply endsWith_suffix, suffix_of_app in E as [Hs|Hs].
      - apply Hfree; [now left | exact Hq | exact Hs].
      - symmetry. apply Hfree; [exact Hq | now left | exact Hs]. }
    cbv zeta. rewrite length_app.
    replace (length b + length q - length q)%nat with (length b) by lia.
    now rewrite take_app_length.
  - destruct Hq as [->|Hq].
    + now rewrite endsWith_app in E.
    + apply IH; [|exact Hq].
      intros q1 q2 H1 H2. apply Hfree; now right.
Qed.

Lemma replace_first_slash (b r : jsstring) :
  Spec.asset_code b = true ->
  replace_first 47 [] (b ++ 47%N :: r) = b ++ r.
Proof.
  induction b as [|c b IH]; intros Hb; cbn.
  - reflexivity.
  - cbn in Hb. apply andb_true_iff in Hb as [Hc Hb].
    unfold Spec.asset_unit in Hc.
    destruct (c =? 47)%N eqn:E.
    + rewrite andb_false_r in Hc. discriminate.
    + now rewrite IH.
Qed.

Lemma toUpperCase_asset_code (b : jsstring) :
  Spec.asset_code b = true -> toUpperCase b = b.
Proof.
  unfold toUpperCase.
  induction b as [|c b IH]; intros Hb; cbn [map]; [reflexivity|].
  cbn in Hb. apply andb_true_iff in Hb as [Hc Hb].
  rewrite (IH Hb). f_equal.
  unfold Spec.asset_unit in Hc. unfold upper_unit.
  destruct ((97 <=? c) && (c <=? 122))%N; [|reflexivity].
  rewrite andb_false_r in Hc. discriminate.
Qed.

(** C7. For every recognised quote asset [q] and every base asset code [b]
    (ASCII, no lower-case letter, no slash), the display pair [b/q] goes to
    the wire symbol [bq] and back to [b/q]. *)
Theorem display_symbol_round_trip (b q : jsstring) :
  In q Service.QUOTE_ASSETS ->
  Spec.asset_code b = true ->
  Service.pairToSymbol (b ++ lit "/" ++ q) = b ++ q
  /\ Service.formatDisplaySymbol (Service.pairToSymbol (b ++ lit "/" ++ q))
     = b ++ lit "/" ++ q.
Proof.
  intros Hq Hb.
  assert (Hwire : Service.pairToSymbol (b ++ lit "/" ++ q) = b ++ q).
  { unfold Service.pairToSymbol.
    destruct (b ++ lit "/" ++ q) eqn:E.
    - now destruct b.
    - rewrite <- E. change (lit "/" ++ q) with (47%N :: q).
      rewrite (replace_first_slash b q Hb).
      unfold toUpperCase. rewrite map_app.
      fold (toUpperCase b). fold (toUpperCase q).
      now rewrite (toUpperCase_asset_code b Hb), (QUOTE_ASSETS_upper q Hq). }
  split; [exact Hwire|]. rewrite Hwire.
  apply formatDisplaySymbol_from_app; [|exact Hq].
  apply QUOTE_ASSETS_suffix_free.
Qed.

Lemma display_symbol_round_trip_witness :
  Service.pairToSymbol (lit "BTC/USDT") = lit "BTCUSDT"
  /\ Service.formatDisplaySymbol (Service.pairToSymbol (lit "BTC/USDT"))
     = lit "BTC/USDT".
Proof.
  apply (display_symbol_round_trip (lit "BTC") (lit "USDT")).
  - left. reflexivity.
  - reflexivity.
Defined.

(** Outside the asset codes the round trip is not the identity:
    [pairToSymbol] raises lower-case letters. *)
Example lower_case_pair_is_normalised :
  Service.formatDisplaySymbol (Service.pairToSymbol (lit "btc/USDT"))
  = lit "BTC/USDT".
Proof. reflexivity. Qed.

(** ** Settings updates *)

Lemma masked_secret_placeholder (s : jsstring) :
  Spec.masked_secret s ->
  Routes.placeholder_value (Some (VString s)) = true.
Proof.
  unfold Routes.placeholder_value.
  intros [H|[H|H]].
  - rewrite H. apply orb_true_r.
  - now rewrite H.
  - subst s. reflexivity.
Qed.

Lemma secret_keys_differ : lit "binanceApiSecret" <> lit "binanceApiKey".
Proof. intros E. vm_compute in E. discriminate E. Qed.

Section Sanitize.

Variable body : gmap jsstring jsval.
Variable env : Routes.AppBindings.

Lemma sanitize_drops_key (s : jsstring) :
  body !! lit "binanceApiKey" = Some (VString s) ->
  Spec.masked_secret s ->
  Routes.sanitizeIncomingSettings body env !! lit "binanceApiKey" = None.
Proof.
  intros Hlook Hm. unfold Routes.sanitizeIncomingSettings. cbv zeta.
  rewrite Hlook, (masked_secret_placeholder s Hm), orb_true_r.
  destruct (_ || _).
  - rewrite lookup_delete_ne by exact secret_keys_differ.
    apply lookup_delete_eq.
  - apply lookup_delete_eq.
Qed.

Lemma sanitize_drops_secret (s : jsstring) :
  body !! lit "binanceApiSecret" = Some (VString s) ->
  Spec.masked_secret s ->
  Routes.sanitizeIncomingSettings body env !! lit "binanceApiSecret" = None.
Proof.
  intros Hlook Hm. unfold Routes.sanitizeIncomingSettings. cbv zeta.
  destruct (Routes.is_set (Routes.BINANCE_API_KEY env)
            || Routes.placeholder_value (body !! lit "binanceApiKey")).
  - rewrite (lookup_delete_ne body (lit "binanceApiKey")
               (lit "binanceApiSecret"))
      by (intros E; symmetry in E; exact (secret_keys_differ E)).
    rewrite Hlook, (masked_secret_placeholder s Hm), orb_true_r.
    apply lookup_delete_eq.
  - rewrite Hlook, (masked_secret_placeholder s Hm), orb_true_r.
    apply lookup_delete_eq.
Qed.

Lemma sanitize_absent (key : jsstring) :
  body !! key = None ->
  Routes.sanitizeIncomingSettings body env !! key = None.
Proof.
  intros Hnone. unfold Routes.sanitizeIncomingSettings. cbv zeta.
  repeat match goal with
         | |- context [if ?c then _ else _] => destruct c
         end;
    repeat (apply lookup_delete_None; right); exact Hnone.
Qed.

Lemma sanitize_keeps_other (key : jsstring) :
  key <> lit "binanceApiKey" -> key <> lit "binanceApiSecret" ->
  Routes.sanitizeIncomingSettings body env !! key = body !! key.
Proof.
  intros H1 H2. unfold Routes.sanitizeIncomingSettings. cbv zeta.
  repeat match goal with
         | |- context [if ?c then _ else _] => destruct c
         end;
    rewrite ?lookup_delete_ne by congruence; reflexivity.
Qed.

End Sanitize.

Section UpdateSettings.

Variable Number : jsstring -> number.
Variable k : State.Stamp.
Variable st : State.Store.
Variable input : gmap jsstring jsval.

Lemma updateSettings_absent (key : jsstring) :
  input !! key = None ->
  State.settings (snd (State.updateSettings Number k st input)) !! key
  = State.settings st !! key.
Proof.
  intros Hnone. unfold State.updateSettings. cbv zeta. cbn.
  apply lookup_union_r. now rewrite map_lookup_imap, Hnone.
Qed.

Lemma updateSettings_present (key : jsstring) (v : jsval) :
  key <> lit "__proto__" ->
  input !! key = Some v ->
  v <> VUndefined ->
  State.settings (snd (State.updateSettings Number k st input)) !! key
  = Some (Spec.stored_value Number (State.settings st !! key) v).
Proof.
  intros Hkey Hsome Hv. unfold State.updateSettings. cbv zeta. cbn.
  apply lookup_union_Some_l. rewrite map_lookup_imap, Hsome. cbn.
  rewrite (bool_decide_eq_false_2 _ Hkey).
  unfold Spec.stored_value.
  destruct v; try congruence; try reflexivity;
    now destruct (State.settings st !! key) as [[]|].
Qed.

Lemma updateSettings_proto :
  State.settings (snd (State.updateSettings Number k st input))
    !! lit "__proto__"
  = State.settings st !! lit "__proto__".
Proof.
  unfold State.updateSettings, State.addLog. cbv zeta.
  cbn [snd State.settings State.set_logs].
  apply lookup_union_r. rewrite map_lookup_imap.
  destruct (input !! lit "__proto__") as [v|]; [|reflexivity].
  cbn [mbind option_bind].
  rewrite bool_decide_eq_true_2 by reflexivity. now destruct v.
Qed.

End UpdateSettings.

(** C8, as the code has it.  When a settings update submits, for one of
    the two secret fields, a masked value (containing the mask character, starting with the
    environment placeholder, or empty), the stored value of that field is
    left as it was, and so is the stored value of a secret field that the
    update does not mention; every submitted field other than the two
    secrets and other than one named [__proto__] is merged into the stored
    settings. *)
Theorem masked_secret_is_not_stored (Number : jsstring -> number)
    (k : State.Stamp) (env : Routes.AppBindings) (st : State.Store)
    (body : gmap jsstring jsval) (field s : jsstring) :
  field = lit "binanceApiKey" \/ field = lit "binanceApiSecret" ->
  body !! field = Some (VString s) ->
  Spec.masked_secret s ->
  let st' := snd (Routes.put_settings Number k env st body) in
  State.settings st' !! field = State.settings st !! field
  /\ (forall other,
         other = lit "binanceApiKey" \/ other = lit "binanceApiSecret" ->
         body !! other = None ->
         State.settings st' !! other = State.settings st !! other)
  /\ (forall key v,
         key <> lit "binanceApiKey" -> key <> lit "binanceApiSecret" ->
         key <> lit "__proto__" ->
         body !! key = Some v -> v <> VUndefined ->
         State.settings st' !! key
         = Some (Spec.stored_value Number (State.settings st !! key) v)).
Proof.
  intros Hfield Hlook Hm. cbv zeta. unfold Routes.put_settings. cbv zeta.
  split; [|split].
  - apply updateSettings_absent.
    destruct Hfield as [-> | ->].
    + now apply sanitize_drops_key with (s := s).
    + now apply sanitize_drops_secret with (s := s).
  - intros other _ Hnone.
    apply updateSettings_absent. now apply sanitize_absent.
  - intros key v H1 H2 H3 Hkey Hv.
    apply updateSettings_present; [exact H3 | | exact Hv].
    now rewrite sanitize_keeps_other.
Qed.

Lemma masked_secret_is_not_stored_witness :
  let st' :=
    snd (Routes.put_settings (fun _ => NaN) Spec.sample_stamp
           Spec.no_bindings Spec.seed Spec.masked_payload) in
  State.settings st' !! lit "binanceApiKey"
  = Some (VString (lit "demo-api-key"))
  /\ State.settings st' !! lit "isTestnet" = Some (VBool false).
Proof.
  destruct (masked_secret_is_not_stored (fun _ => NaN) Spec.sample_stamp
              Spec.no_bindings Spec.seed Spec.masked_payload
              (lit "binanceApiKey")
              ([8226; 8226; 8226; 8226; 8226; 8226; 8226; 8226]%N
               ++ lit "-key"))
    as (Hkept & _ & Hmerged).
  - left. reflexivity.
  - reflexivity.
  - left. reflexivity.
  - split.
    + exact Hkept.
    + apply (Hmerged (lit "isTestnet") (VBool false));
        [discriminate | discriminate | discriminate | reflexivity
        | discriminate].
Defined.

(** C8 as literally stated fails for a submitted field named [__proto__]:
    it is not merged into the stored settings.  Submitted beside a masked
    key it leaves no setting behind, and its field [autoTradingEnabled]
    switches auto-trading off although the setting of that name keeps its
    value. *)
Lemma proto_field_is_not_merged :
  let body : gmap jsstring jsval :=
    <[ lit "__proto__" := VObject [(lit "autoTradingEnabled", VBool false)] ]>
      {[ lit "binanceApiKey"
         := VString ([8226; 8226; 8226; 8226]%N ++ lit "-key") ]} in
  let st' :=
    snd (Routes.put_settings (fun _ => NaN) Spec.sample_stamp
           Spec.no_bindings Spec.seed body) in
  body !! lit "__proto__"
  = Some (VObject [(lit "autoTradingEnabled", VBool false)])
  /\ State.settings st' !! lit "__proto__" = None
  /\ State.settings st' !! lit "autoTradingEnabled" = Some (VBool true)
  /\ State.autoTrading Spec.seed = State.AutoTradingState.mk true true
  /\ State.autoTrading st' = State.AutoTradingState.mk false false.
Proof.
  cbv zeta. repeat split; vm_compute; reflexivity.
Qed.

(** ** Closing a position through the adapter *)

Lemma getPositions_seen (client : Service.Client) (w : Service.World)
    (positions : list Service.FuturesPositionRisk.t) :
  Spec.positions_seen client w positions ->
  exists w',
    Service.getPositions client w = (inr positions, w')
    /\ Service.store w' = Service.store w
    /\ Service.sent w' = Service.sent w.
Proof.
  unfold Spec.positions_seen, Service.getPositions.
  destruct (Service.positionPromise w) as [settled|]; intros H.
  - exists w. now rewrite H.
  - rewrite H. eexists. repeat split.
Qed.

Lemma find_matches_none (tradeId : jsstring)
    (positions : list Service.FuturesPositionRisk.t) :
  List.find (fun p => Service.matchesTradeId p tradeId) positions = None
  <-> Forall (fun p => Service.matchesTradeId p tradeId = false) positions.
Proof.
  induction positions as [|p l IH]; cbn.
  - split; [constructor | reflexivity].
  - destruct (Service.matchesTradeId p tradeId) eqn:E.
    + split; [discriminate|]. intros H. inversion H; congruence.
    + rewrite IH. split; [now constructor | intros H; now inversion H].
Qed.

Section MatchesTradeId.

Variable position : Service.FuturesPositionRisk.t.

Lemma split_no_separator (s : jsstring) :
  Forall (fun c => c <> 58%N) s -> split 58 s = [s].
Proof.
  induction 1 as [|c s Hc _ IH]; cbn; [reflexivity|].
  apply N.eqb_neq in Hc. now rewrite Hc, IH.
Qed.

Lemma split_one_separator (a b : jsstring) :
  Forall (fun c => c <> 58%N) a -> Forall (fun c => c <> 58%N) b ->
  split 58 (a ++ 58%N :: b) = [a; b].
Proof.
  induction 1 as [|c a Hc _ IH]; intros Hb; cbn.
  - now rewrite split_no_separator.
  - apply N.eqb_neq in Hc. now rewrite Hc, IH.
Qed.

(** An identifier [symbol:side] matches the position with that symbol and,
    up to case, that side. *)
Lemma matchesTradeId_symbol_side (symbol side : jsstring) :
  Forall (fun c => c <> 58%N) symbol -> Forall (fun c => c <> 58%N) side ->
  Service.matchesTradeId position (symbol ++ lit ":" ++ side)
  = bool_decide (symbol = Service.FuturesPositionRisk.symbol position)
    && bool_decide
         (toUpperCase side
          = Service.PositionSide_string
              (Service.FuturesPositionRisk.positionSide position)).
Proof.
  intros Hs Hd. unfold Service.matchesTradeId.
  change (lit ":" ++ side) with (58%N :: side).
  now rewrite split_one_separator.
Qed.

(** A legacy identifier without a colon matches by symbol alone, or as
    [symbol-SIDE]. *)
Lemma matchesTradeId_legacy (tradeId : jsstring) :
  Forall (fun c => c <> 58%N) tradeId ->
  Service.matchesTradeId position tradeId
  = bool_decide (Service.FuturesPositionRisk.symbol position = tradeId)
    || bool_decide
         (Service.FuturesPositionRisk.symbol position ++ lit "-"
          ++ Service.PositionSide_string
               (Service.FuturesPositionRisk.positionSide position)
          = tradeId).
Proof.
  intros Hs. unfold Service.matchesTradeId.
  now rewrite split_no_separator.
Qed.

End MatchesTradeId.

(** C9. Once the positions are fetched, [closePositionByTradeId] is
    fulfilled (not rejected) in the two expected cases, for an identifier
    in the ASCII range (where the upper-casing of the embedding is the
    built-in's): when no position matches the identifier the result is
    [success = false] with the error POSITION_NOT_FOUND, and when the
    matched position has zero quantity the result is [success = true] with
    the marker NO_QUANTITY; in both cases no order is sent and the store is
    left as it was. *)
Theorem closePositionByTradeId_domain_outcomes
    (parseFloat : jsstring -> Q) (client : Service.Client) (k : State.Stamp)
    (tradeId : jsstring) (w : Service.World)
    (positions : list Service.FuturesPositionRisk.t) :
  Spec.ascii tradeId ->
  Spec.positions_seen client w positions ->
  (Forall (fun p => Service.matchesTradeId p tradeId = false) positions ->
   exists w',
     Service.closePositionByTradeId parseFloat client k tradeId w
     = (inr (Service.ClosePositionResult.mk false (lit "UNKNOWN") BOTH None
               (Some (lit "POSITION_NOT_FOUND"))), w')
     /\ Service.sent w' = Service.sent w
     /\ Service.store w' = Service.store w)
  /\ (forall target,
         List.find (fun p => Service.matchesTradeId p tradeId) positions
         = Some target ->
         Qabs (parseFloat (Service.FuturesPositionRisk.positionAmt target))
         == 0 ->
         exists w',
           Service.closePositionByTradeId parseFloat client k tradeId w
           = (inr (Service.ClosePositionResult.mk true
                     (Service.FuturesPositionRisk.symbol target)
                     (Service.FuturesPositionRisk.positionSide target) None
                     (Some (lit "NO_QUANTITY"))), w')
           /\ Service.sent w' = Service.sent w
           /\ Service.store w' = Service.store w).
Proof.
  intros _ Hseen.
  destruct (getPositions_seen client w positions Hseen)
    as (w' & Hget & Hstore & Hsent).
  split.
  - intros Hnone. apply find_matches_none in Hnone.
    exists w'. unfold Service.closePositionByTradeId, Service.bind.
    rewrite Hget, Hnone. now repeat split.
  - intros target Hfind Hzero.
    exists w'. unfold Service.closePositionByTradeId, Service.bind.
    rewrite Hget, Hfind. unfold Service.closePosition. cbv zeta.
    apply Qeq_bool_iff in Hzero. rewrite Hzero.
    now repeat split.
Qed.

Lemma closePositionByTradeId_domain_outcomes_witness :
  fst (Service.closePositionByTradeId Spec.sample_parseFloat
         Spec.sample_client Spec.sample_stamp (lit "SOLUSDT:LONG")
         Spec.sample_world)
  = inr (Service.ClosePositionResult.mk false (lit "UNKNOWN") BOTH None
           (Some (lit "POSITION_NOT_FOUND")))
  /\ fst (Service.closePositionByTradeId Spec.sample_parseFloat
            Spec.sample_client Spec.sample_stamp (lit "BTCUSDT:long")
            Spec.sample_world)
     = inr (Service.ClosePositionResult.mk true (lit "BTCUSDT") LONG None
              (Some (lit "NO_QUANTITY"))).
Proof.
  split.
  - destruct (closePositionByTradeId_domain_outcomes Spec.sample_parseFloat
                Spec.sample_client Spec.sample_stamp (lit "SOLUSDT:LONG")
                Spec.sample_world
                [Spec.sample_position "BTCUSDT" "0.000" LONG;
                 Spec.sample_position "ETHUSDT" "12.50000000" BOTH])
      as [Hnone _]; [repeat constructor | reflexivity |].
    destruct Hnone as (w' & Hrun & _).
    + repeat constructor.
    + now rewrite Hrun.
  - destruct (closePositionByTradeId_domain_outcomes Spec.sample_parseFloat
                Spec.sample_client Spec.sample_stamp (lit "BTCUSDT:long")
                Spec.sample_world
                [Spec.sample_position "BTCUSDT" "0.000" LONG;
                 Spec.sample_position "ETHUSDT" "12.50000000" BOTH])
      as [_ Hzero]; [repeat constructor | reflexivity |].
    destruct (Hzero (Spec.sample_position "BTCUSDT" "0.000" LONG))
      as (w' & Hrun & _).
    + reflexivity.
    + reflexivity.
    + now rewrite Hrun.
Defined.

(** ** Quantity strings *)

(** *** Removing a suffix matched by an end-anchored expression *)

Lemma remove_suffix_match_nil (P : jsstring -> bool) :
  remove_suffix_match P [] = [].
Proof. cbn. now destruct (P []). Qed.

Lemma remove_suffix_match_cons (P : jsstring -> bool) (c : N) (r : jsstring) :
  remove_suffix_match P (c :: r)
  = if P (c :: r) then [] else c :: remove_suffix_match P r.
Proof. reflexivity. Qed.

Lemma remove_suffix_match_app (P : jsstring -> bool) (a b : jsstring) :
  (forall k s, s <> [] -> a = k ++ s -> P (s ++ b) = false) ->
  remove_suffix_match P (a ++ b) = a ++ remove_suffix_match P b.
Proof.
  induction a as [|c a IH]; intros Hno; [reflexivity|].
  rewrite <- app_comm_cons, remove_suffix_match_cons.
  rewrite app_comm_cons, (Hno [] (c :: a)) by (reflexivity || discriminate).
  rewrite <- !app_comm_cons. f_equal. apply IH.
  intros k s Hs ->. apply (Hno (c :: k) s Hs). reflexivity.
Qed.

Lemma remove_suffix_match_none (P : jsstring -> bool) (s : jsstring) :
  (forall k s', s' <> [] -> s = k ++ s' -> P s' = false) ->
  remove_suffix_match P s = s.
Proof.
  intros Hno.
  rewrite <- (app_nil_r s) at 1.
  rewrite remove_suffix_match_app, remove_suffix_match_nil.
  - apply app_nil_r.
  - intros k s' Hs Hk. rewrite app_nil_r. now apply (Hno k).
Qed.

(** *** Digits *)

Lemma is_digit_digit_char (d : N) : (d < 10)%N -> Spec.is_digit (digit_char d) = true.
Proof.
  intros Hd. unfold Spec.is_digit, digit_char.
  apply andb_true_iff. split; apply N.leb_le; lia.
Qed.

Lemma digit_char_value (d : N) : (digit_char d - 48 = d)%N.
Proof. unfold digit_char. lia. Qed.

Lemma int_value_snoc (s : jsstring) (c : N) :
  Spec.int_value (s ++ [c]) = (Spec.int_value s * 10 + (c - 48))%N.
Proof. unfold Spec.int_value. now rewrite fold_left_app. Qed.

Lemma digits_fuel_spec (f : nat) :
  forall n : N,
    (n < 2 ^ N.of_nat (S f))%N ->
    forallb Spec.is_digit (digits_fuel (S f) n) = true
    /\ Spec.int_value (digits_fuel (S f) n) = n
    /\ exists s0, digits_fuel (S f) n = s0 ++ [digit_char (n mod 10)].
Proof.
  induction f as [|f IH]; intros n Hn.
  - assert (Hlt : (n < 10)%N) by (change (2 ^ N.of_nat 1)%N with 2%N in Hn; lia).
    cbn [digits_fuel]. apply N.ltb_lt in Hlt as Hb. rewrite Hb.
    rewrite (N.mod_small n 10 Hlt).
    split; [|split].
    + cbn. now rewrite is_digit_digit_char.
    + cbn. rewrite digit_char_value. lia.
    + now exists [].
  - change (digits_fuel (S (S f)) n) with
      (if (n <? 10)%N then [digit_char n]
       else digits_fuel (S f) (n / 10) ++ [digit_char (n mod 10)]).
    destruct (n <? 10)%N eqn:Hb.
    + apply N.ltb_lt in Hb. rewrite (N.mod_small n 10 Hb).
      split; [|split].
      * cbn. now rewrite is_digit_digit_char.
      * cbn. rewrite digit_char_value. lia.
      * now exists [].
    + assert (Hdiv : (n / 10 < 2 ^ N.of_nat (S f))%N).
      { apply N.Div0.div_lt_upper_bound.
        replace (N.of_nat (S (S f))) with (N.succ (N.of_nat (S f))) in Hn by lia.
        rewrite N.pow_succ_r' in Hn. lia. }
      destruct (IH (n / 10)%N Hdiv) as (Hd & Hv & _).
      assert (Hm : (n mod 10 < 10)%N) by (apply N.mod_lt; lia).
      split; [|split].
      * rewrite forallb_app, Hd. cbn. now rewrite is_digit_digit_char.
      * rewrite int_value_snoc, Hv, digit_char_value.
        rewrite (N.div_mod n 10) at 3 by lia. lia.
      * now eexists.
Qed.

Lemma digits_spec (n : N) :
  forallb Spec.is_digit (digits n) = true
  /\ Spec.int_value (digits n) = n
  /\ exists s0, digits n = s0 ++ [digit_char (n mod 10)].
Proof.
  unfold digits. apply digits_fuel_spec.
  destruct (N.eq_dec n 0%N) as [->|Hn].
  - reflexivity.
  - destruct (N.log2_spec n) as [_ Hhi]; [lia|].
    replace (N.of_nat (S (N.to_nat (N.log2 n)))) with (N.succ (N.log2 n))
      by lia.
    exact Hhi.
Qed.

(** *** Fractions *)

Lemma pow10_S (p : nat) : pow10 (S p) == 10 * pow10 p.
Proof.
  unfold pow10. rewrite Nat2Z.inj_succ, Z.pow_succ_r by lia.
  now rewrite inject_Z_mult.
Qed.

Lemma pow10_pos (p : nat) : 0 < pow10 p.
Proof.
  unfold pow10. change 0 with (inject_Z 0). rewrite <- Zlt_Qlt.
  apply Z.pow_pos_nonneg; lia.
Qed.

Lemma frac_value_snoc (s : jsstring) (c : N) :
  Spec.frac_value (s ++ [c])
  == Spec.frac_value s + inject_Z (Z.of_N (c - 48)) / pow10 (S (length s)).
Proof.
  induction s as [|x s IH]; cbn [app Spec.frac_value length].
  - change (pow10 1) with 10. field.
  - rewrite IH, (pow10_S (S (length s))).
    pose proof (pow10_pos (S (length s))). field. lra.
Qed.

Lemma length_fixed_digits (k : nat) (m : N) : length (fixed_digits k m) = k.
Proof.
  revert m. induction k as [|k IH]; intros m; cbn [fixed_digits].
  - reflexivity.
  - rewrite length_app, IH. cbn. lia.
Qed.

Lemma fixed_digits_are_digits (k : nat) (m : N) :
  forallb Spec.is_digit (fixed_digits k m) = true.
Proof.
  revert m. induction k as [|k IH]; intros m; cbn [fixed_digits].
  - reflexivity.
  - rewrite forallb_app, IH. cbn.
    rewrite is_digit_digit_char; [reflexivity|]. apply N.mod_lt. lia.
Qed.

Lemma frac_value_fixed_digits (k : nat) :
  forall m : N,
    Spec.frac_value (fixed_digits k m)
    == inject_Z (Z.of_N (m mod 10 ^ N.of_nat k)) / pow10 k.
Proof.
  induction k as [|k IH]; intros m; cbn [fixed_digits].
  - cbn [Spec.frac_value]. change (10 ^ N.of_nat 0)%N with 1%N.
    rewrite N.mod_1_r. reflexivity.
  - rewrite frac_value_snoc, IH, length_fixed_digits, digit_char_value.
    replace (N.of_nat (S k)) with (N.succ (N.of_nat k)) by lia.
    rewrite N.pow_succ_r', N.Div0.mod_mul_r.
    rewrite N2Z.inj_add, N2Z.inj_mul, inject_Z_plus, inject_Z_mult.
    rewrite (pow10_S k). pose proof (pow10_pos k).
    change (inject_Z (Z.of_N 10)) with 10. field. lra.
Qed.

Lemma all_zeros_frac_value (s : jsstring) :
  all_zeros s = true -> Spec.frac_value s == 0.
Proof.
  unfold all_zeros.
  induction s as [|c s IH]; cbn [forallb Spec.frac_value]; intros H.
  - reflexivity.
  - apply andb_true_iff in H as [Hc Hs]. apply N.eqb_eq in Hc. subst c.
    rewrite (IH Hs). reflexivity.
Qed.

(** Stripping trailing zeros keeps the fraction and keeps digits. *)
Lemma frac_value_strip_zeros (s : jsstring) :
  Spec.frac_value (remove_suffix_match some_zeros s) == Spec.frac_value s.
Proof.
  induction s as [|c s IH].
  - now rewrite remove_suffix_match_nil.
  - rewrite remove_suffix_match_cons.
    destruct (some_zeros (c :: s)) eqn:E.
    + cbn [some_zeros] in E. now rewrite (all_zeros_frac_value _ E).
    + cbn [Spec.frac_value]. now rewrite IH.
Qed.

Lemma digits_strip_zeros (s : jsstring) :
  forallb Spec.is_digit s = true ->
  forallb Spec.is_digit (remove_suffix_match some_zeros s) = true.
Proof.
  induction s as [|c s IH]; intros H.
  - now rewrite remove_suffix_match_nil.
  - rewrite remove_suffix_match_cons.
    destruct (some_zeros (c :: s)); [reflexivity|].
    cbn [forallb] in *. apply andb_true_iff in H as [Hc Hs].
    now rewrite Hc, IH.
Qed.

(** A non-empty suffix of a string ends with the last character of the
    string. *)
Lemma suffix_last (s k s' s0 : jsstring) (c : N) :
  s = k ++ s' -> s' <> [] -> s = s0 ++ [c] ->
  exists s'', s' = s'' ++ [c].
Proof.
  intros Hk Hne Hc.
  destruct (exists_last Hne) as (s'' & x & ->).
  exists s''. rewrite Hk, app_assoc in Hc.
  apply app_inj_tail in Hc as [_ ->]. reflexivity.
Qed.

Lemma all_zeros_last (s : jsstring) (c : N) :
  all_zeros (s ++ [c]) = true -> c = 48%N.
Proof.
  unfold all_zeros. rewrite forallb_app. cbn [forallb].
  intros H. apply andb_true_iff in H as [_ H].
  rewrite andb_true_r in H. apply N.eqb_eq in H. now symmetry.
Qed.

Lemma digits_last (s : jsstring) :
  s <> [] -> forallb Spec.is_digit s = true ->
  exists s0 d, s = s0 ++ [d] /\ Spec.is_digit d = true.
Proof.
  intros Hne Hd. destruct (exists_last Hne) as (s0 & d & ->).
  exists s0, d. split; [reflexivity|].
  rewrite forallb_app in Hd. apply andb_true_iff in Hd as [_ Hd].
  cbn [forallb] in Hd. now rewrite andb_true_r in Hd.
Qed.

Lemma digits_no_point (s : jsstring) :
  forallb Spec.is_digit s = true -> Forall (fun c => c <> 46%N) s.
Proof.
  intros H. apply Forall_forall. intros c Hc.
  apply list_elem_of_In in Hc.
  rewrite forallb_forall in H. specialize (H c Hc).
  intros ->. discriminate H.
Qed.

(** *** Reading a numeral *)

Lemma integer_part_digits (a b : jsstring) :
  Forall (fun c => c <> 46%N) a ->
  (b = [] \/ exists f, b = 46%N :: f) ->
  Spec.integer_part (a ++ b) = (a, b).
Proof.
  induction 1 as [|c a Hc _ IH]; intros Hb; cbn [app Spec.integer_part].
  - destruct Hb as [->|[f ->]]; reflexivity.
  - apply N.eqb_neq in Hc. rewrite Hc, (IH Hb). reflexivity.
Qed.

Lemma decimal_value_integer (a : jsstring) :
  a <> [] -> forallb Spec.is_digit a = true ->
  Spec.decimal_value a = Some (inject_Z (Z.of_N (Spec.int_value a))).
Proof.
  intros Hne Hd. unfold Spec.decimal_value.
  rewrite <- (app_nil_r a) at 1.
  rewrite integer_part_digits; [|now apply digits_no_point|now left].
  unfold Spec.digit_string. rewrite Hd. now destruct a.
Qed.

Lemma decimal_value_point (a f : jsstring) :
  a <> [] -> forallb Spec.is_digit a = true ->
  f <> [] -> forallb Spec.is_digit f = true ->
  Spec.decimal_value (a ++ 46%N :: f)
  = Some (inject_Z (Z.of_N (Spec.int_value a)) + Spec.frac_value f).
Proof.
  intros Ha Hda Hf Hdf. unfold Spec.decimal_value.
  rewrite integer_part_digits; [|now apply digits_no_point|right; now eexists].
  unfold Spec.digit_string. rewrite Hda, Hdf.
  destruct a; [congruence|]. now destruct f.
Qed.

(** An expression that cannot match at a digit leaves leading digits
    alone. *)
Lemma remove_suffix_match_digits (P : jsstring -> bool) (a b : jsstring) :
  (forall c r, Spec.is_digit c = true -> P (c :: r) = false) ->
  forallb Spec.is_digit a = true ->
  remove_suffix_match P (a ++ b) = a ++ remove_suffix_match P b.
Proof.
  intros HP. induction a as [|c a IH]; intros Hd; [reflexivity|].
  cbn [forallb] in Hd. apply andb_true_iff in Hd as [Hc Hd].
  rewrite <- app_comm_cons, remove_suffix_match_cons, (HP c _ Hc).
  now rewrite (IH Hd).
Qed.

Lemma dot_zeros_digit (c : N) (r : jsstring) :
  Spec.is_digit c = true -> dot_zeros (c :: r) = false.
Proof.
  intros Hc. unfold dot_zeros. destruct r; [reflexivity|].
  destruct (c =? 46)%N eqn:E; [|reflexivity].
  apply N.eqb_eq in E. subst c. discriminate Hc.
Qed.

Lemma lone_dot_digit (c : N) (r : jsstring) :
  Spec.is_digit c = true -> lone_dot (c :: r) = false.
Proof.
  intros Hc. unfold lone_dot. destruct r; [|reflexivity].
  destruct (c =? 46)%N eqn:E; [|reflexivity].
  apply N.eqb_eq in E. subst c. discriminate Hc.
Qed.

Lemma Qltb_false (x y : Q) : y <= x -> Qltb x y = false.
Proof. intros H. unfold Qltb. now apply negb_false_iff, Qle_bool_iff. Qed.

Lemma Qle_bool_false (x y : Q) : y < x -> Qle_bool x y = false.
Proof.
  intros H. destruct (Qle_bool x y) eqn:E; [|reflexivity].
  apply Qle_bool_iff in E. lra.
Qed.

Lemma units_nonneg (n : N) : 0 <= Spec.units n.
Proof.
  unfold Spec.units. apply Qle_shift_div_l; [apply pow10_pos|].
  rewrite Qmult_0_l. change 0 with (inject_Z 0). rewrite <- Zle_Qle. lia.
Qed.

Lemma units_pos (n : N) : (0 < n)%N -> 0 < Spec.units n.
Proof.
  intros Hn. unfold Spec.units. apply Qlt_shift_div_l; [apply pow10_pos|].
  rewrite Qmult_0_l. change 0 with (inject_Z 0). rewrite <- Zlt_Qlt. lia.
Qed.

(** [toFixed(8)] of a whole number of units writes the integer part and the
    eight digits of the remainder. *)
Lemma toFixed_units (q : Q) (n : N) :
  q == Spec.units n ->
  toFixed q 8
  = digits (n / 10 ^ 8) ++ 46%N :: fixed_digits 8 (n mod 10 ^ 8).
Proof.
  intros Hq. unfold toFixed.
  rewrite Qltb_false by (rewrite Hq; apply units_nonneg).
  cbv zeta.
  assert (Hn : Qfloor (q * pow10 8 + (1 # 2)) = Z.of_N n).
  { change (Math_round (q * pow10 8) = Z.of_N n).
    rewrite (Math_round_comp _ (inject_Z (Z.of_N n))).
    - apply Math_round_inject_Z.
    - rewrite Hq. unfold Spec.units. pose proof (pow10_pos 8). field. lra. }
  rewrite Hn, N2Z.id. reflexivity.
Qed.

Lemma units_split (n : N) :
  Spec.units n
  == inject_Z (Z.of_N (n / 10 ^ 8))
     + inject_Z (Z.of_N (n mod 10 ^ 8)) / pow10 8.
Proof.
  unfold Spec.units.
  rewrite (N.div_mod n (10 ^ 8)) at 1 by discriminate.
  rewrite N2Z.inj_add, N2Z.inj_mul, inject_Z_plus, inject_Z_mult.
  change (inject_Z (Z.of_N (10 ^ 8))) with (pow10 8).
  pose proof (pow10_pos 8). field. lra.
Qed.

Section NormalizeQuantity.

Variable n : N.
Hypothesis Hpos : (0 < n)%N.
Hypothesis Hslip : (n mod 10 ^ 9 <> 0)%N.

Let I : N := (n / 10 ^ 8)%N.
Let F : N := (n mod 10 ^ 8)%N.

Lemma whole_quantity_last_digit : F = 0%N -> (I mod 10 <> 0)%N.
Proof.
  intros HF HI. apply Hslip.
  change (10 ^ 9)%N with (10 ^ 8 * 10)%N.
  rewrite N.Div0.mod_mul_r. fold I F. rewrite HF, HI. reflexivity.
Qed.

(** A whole quantity that does not end in 0 is written by its digits. *)
Lemma normalize_whole :
  F = 0%N ->
  remove_suffix_match lone_dot
    (remove_suffix_match some_zeros
       (remove_suffix_match dot_zeros
          (digits I ++ 46%N :: fixed_digits 8 F)))
  = digits I.
Proof.
  intros HF. rewrite HF.
  destruct (digits_spec I) as (Hd & _ & s0 & Hlast).
  pose proof (whole_quantity_last_digit HF) as Hnz.
  rewrite (remove_suffix_match_digits dot_zeros _ _ dot_zeros_digit Hd).
  change (remove_suffix_match dot_zeros (46%N :: fixed_digits 8 0)) with
    (@nil N).
  rewrite app_nil_r.
  rewrite (remove_suffix_match_none some_zeros).
  - rewrite <- (app_nil_r (digits I)) at 1.
    rewrite (remove_suffix_match_digits lone_dot _ _ lone_dot_digit Hd).
    rewrite remove_suffix_match_nil. apply app_nil_r.
  - intros k s' Hs' Hk.
    destruct (suffix_last _ _ _ _ _ Hk Hs' Hlast) as (s'' & ->).
    destruct (some_zeros (s'' ++ [digit_char (I mod 10)])) eqn:E;
      [|reflexivity].
    assert (Hz : all_zeros (s'' ++ [digit_char (I mod 10)]) = true).
    { unfold some_zeros in E. now destruct (s'' ++ _). }
    apply all_zeros_last in Hz. unfold digit_char in Hz. lia.
Qed.

Lemma fraction_not_zeros : F <> 0%N -> all_zeros (fixed_digits 8 F) = false.
Proof.
  intros HF. destruct (all_zeros (fixed_digits 8 F)) eqn:E; [|reflexivity].
  apply all_zeros_frac_value in E.
  rewrite frac_value_fixed_digits in E.
  assert (HF8 : (F mod 10 ^ N.of_nat 8 = F)%N).
  { apply N.mod_small. unfold F. apply N.mod_lt. discriminate. }
  rewrite HF8 in E.
  assert (Hq : 0 < inject_Z (Z.of_N F) / pow10 8).
  { apply Qlt_shift_div_l; [apply pow10_pos|].
    rewrite Qmult_0_l. change 0 with (inject_Z 0). rewrite <- Zlt_Qlt. lia. }
  lra.
Qed.

(** A quantity with a fraction keeps its integer digits, the point and the
    fraction digits up to the last one that is not 0. *)
Lemma normalize_fraction :
  F <> 0%N ->
  exists f,
    remove_suffix_match lone_dot
      (remove_suffix_match some_zeros
         (remove_suffix_match dot_zeros
            (digits I ++ 46%N :: fixed_digits 8 F)))
    = digits I ++ 46%N :: f
    /\ f <> []
    /\ forallb Spec.is_digit f = true
    /\ Spec.frac_value f == inject_Z (Z.of_N F) / pow10 8.
Proof.
  intros HF.
  destruct (digits_spec I) as (Hd & _ & s0 & Hlast).
  pose proof (fraction_not_zeros HF) as Hnz.
  pose proof (fixed_digits_are_digits 8 F) as Hfd.
  set (fx := fixed_digits 8 F) in *.
  set (f := remove_suffix_match some_zeros fx).
  assert (Hfrac : Spec.frac_value f == inject_Z (Z.of_N F) / pow10 8).
  { unfold f. rewrite frac_value_strip_zeros. unfold fx.
    rewrite frac_value_fixed_digits.
    replace (F mod 10 ^ N.of_nat 8)%N with F; [reflexivity|].
    symmetry. apply N.mod_small. unfold F. apply N.mod_lt. discriminate. }
  assert (Hfne : f <> []).
  { intros Hnil. rewrite Hnil in Hfrac. cbn [Spec.frac_value] in Hfrac.
    assert (0 < inject_Z (Z.of_N F) / pow10 8).
    { apply Qlt_shift_div_l; [apply pow10_pos|].
      rewrite Qmult_0_l. change 0 with (inject_Z 0). rewrite <- Zlt_Qlt.
      lia. }
    lra. }
  assert (Hfdig : forallb Spec.is_digit f = true)
    by now apply digits_strip_zeros.
  exists f. repeat split; trivial.
  (* first expression: nothing to remove *)
  rewrite (remove_suffix_match_digits dot_zeros _ _ dot_zeros_digit Hd).
  rewrite remove_suffix_match_cons.
  assert (Hdz : dot_zeros (46%N :: fx) = false).
  { unfold dot_zeros. destruct fx; [reflexivity|]. now rewrite Hnz. }
  rewrite Hdz.
  rewrite <- (app_nil_r fx) at 1.
  rewrite (remove_suffix_match_digits dot_zeros _ _ dot_zeros_digit Hfd).
  rewrite remove_suffix_match_nil, app_nil_r.
  (* second expression: the zeros at the end of the fraction *)
  change (digits I ++ 46%N :: fx) with (digits I ++ [46%N] ++ fx).
  rewrite app_assoc.
  rewrite (remove_suffix_match_app some_zeros).
  2:{ intros k s Hs Hk.
      destruct (suffix_last _ _ _ _ _ Hk Hs eq_refl) as (s'' & ->).
      unfold some_zeros.
      destruct ((s'' ++ [46%N]) ++ fx) eqn:E; [reflexivity|].
      rewrite <- E. unfold all_zeros.
      rewrite !forallb_app. cbn [forallb].
      change (48 =? 46)%N with false.
      now rewrite andb_false_r. }
  fold f. rewrite <- app_assoc.
  change ([46%N] ++ f) with (46%N :: f).
  (* third expression: the point is followed by a digit *)
  rewrite (remove_suffix_match_digits lone_dot _ _ lone_dot_digit Hd).
  rewrite remove_suffix_match_cons.
  assert (Hld : lone_dot (46%N :: f) = false).
  { unfold lone_dot. destruct f; [congruence | reflexivity]. }
  rewrite Hld.
  rewrite <- (app_nil_r f) at 1.
  rewrite (remove_suffix_match_digits lone_dot _ _ lone_dot_digit Hfdig).
  now rewrite remove_suffix_match_nil, app_nil_r.
Qed.

(** The string denotes the quantity. *)
Lemma normalizeQuantity_units (q : Q) :
  q == Spec.units n ->
  exists v,
    Spec.decimal_value (Service.normalizeQuantity q) = Some v /\ v == q.
Proof.
  intros Hq. unfold Service.normalizeQuantity.
  rewrite Qle_bool_false by (rewrite Hq; now apply units_pos).
  cbv zeta. rewrite (toFixed_units q n Hq). fold I F.
  destruct (digits_spec I) as (Hd & Hv & s0 & Hlast).
  assert (Hne : digits I <> []).
  { rewrite Hlast. now destruct s0. }
  pose proof (units_split n) as Hsplit. fold I F in Hsplit.
  destruct (N.eq_dec F 0%N) as [HF|HF].
  - rewrite (normalize_whole HF).
    rewrite (decimal_value_integer _ Hne Hd), Hv.
    eexists. split; [reflexivity|].
    rewrite Hq, Hsplit, HF. change (inject_Z (Z.of_N 0)) with 0.
    pose proof (pow10_pos 8). field. lra.
  - destruct (normalize_fraction HF) as (f & -> & Hfne & Hfd & Hfrac).
    rewrite (decimal_value_point _ _ Hne Hd Hfne Hfd), Hv.
    eexists. split; [reflexivity|].
    now rewrite Hq, Hsplit, Hfrac.
Qed.

End NormalizeQuantity.

Lemma Qabs_nonzero (x : Q) : ~ x == 0 -> Qeq_bool (Qabs x) 0 = false.
Proof.
  intros Hx. destruct (Qeq_bool (Qabs x) 0) eqn:E; [|reflexivity].
  apply Qeq_bool_iff in E. exfalso. apply Hx.
  revert E. apply Qabs_case; intros; lra.
Qed.

(** C4, the defect.  A position of 100 units, as the exchange reports it,
    is closed with an order for 1 unit: after [\.0+$] has removed the
    fraction of "100.00000000", [0+$] removes the zeros of the integer part.
    The order is accepted and reported as a success.  Likewise 120 is
    written "12" and 10 is written "1". *)
Theorem close_order_undersized :
  let position := Spec.sample_position "DOGEUSDT" "100" BOTH in
  let run :=
    Service.closePosition Spec.sample_parseFloat Spec.sample_client
      Spec.sample_stamp position Spec.sample_world in
  Spec.sample_parseFloat (Service.FuturesPositionRisk.positionAmt position)
  == 100
  /\ match fst run with
     | inr r => Service.ClosePositionResult.success r
     | inl _ => false
     end = true
  /\ map Service.FuturesOrderPayload.quantity (Service.sent (snd run))
     = [Some (lit "1")]
  /\ Service.normalizeQuantity 100 = lit "1"
  /\ (exists v, Spec.decimal_value (lit "1") = Some v /\ v == 1)
  /\ Service.normalizeQuantity 120 = lit "12"
  /\ Service.normalizeQuantity 10 = lit "1".
Proof.
  cbv zeta.
  split; [vm_compute; reflexivity|].
  split; [vm_compute; reflexivity|].
  split; [vm_compute; reflexivity|].
  split; [vm_compute; reflexivity|].
  split; [eexists; split; [vm_compute; reflexivity | reflexivity]|].
  split; vm_compute; reflexivity.
Qed.

(** * Further properties of the code *)

(** ** The activity log *)

(** X1. [addLog] puts the new entry first, keeps the older entries in their
    order, drops the oldest ones beyond [MAX_LOGS], and touches nothing but
    the log. *)
Theorem addLog_newest_first_bounded (k : State.Stamp) (st : State.Store)
    (level : LogLevel) (message : jsstring) (details : option jsstring) :
  let log := fst (State.addLog k st level message details) in
  let st' := snd (State.addLog k st level message details) in
  State.logs st' = take State.MAX_LOGS (log :: State.logs st)
  /\ length (State.logs st')
     = Nat.min State.MAX_LOGS (S (length (State.logs st)))
  /\ ActivityLog.level log = level
  /\ ActivityLog.message log = message
  /\ State.settings st' = State.settings st
  /\ State.trades_active st' = State.trades_active st
  /\ State.trades_history st' = State.trades_history st
  /\ State.account st' = State.account st
  /\ State.autoTrading st' = State.autoTrading st.
Proof.
  cbv zeta. unfold State.addLog. cbv zeta. cbn [fst snd State.set_logs State.logs].
  assert (Hlogs :
    (if (State.MAX_LOGS <? length (fst (State.addLog k st level message details)
                                   :: State.logs st))%nat
     then take State.MAX_LOGS
            (fst (State.addLog k st level message details) :: State.logs st)
     else fst (State.addLog k st level message details) :: State.logs st)
    = take State.MAX_LOGS
        (fst (State.addLog k st level message details) :: State.logs st)).
  { destruct (State.MAX_LOGS <? _)%nat eqn:E; [reflexivity|].
    apply Nat.ltb_ge in E. symmetry. now apply take_ge. }
  unfold State.addLog in Hlogs. cbv zeta in Hlogs. cbn [fst] in Hlogs.
  rewrite Hlogs. repeat split.
  rewrite length_take. cbn [length]. reflexivity.
Qed.

Lemma addLog_log_bounded (k : State.Stamp) (st : State.Store)
    (level : LogLevel) (message : jsstring) (details : option jsstring) :
  Spec.log_bounded (snd (State.addLog k st level message details)).
Proof.
  unfold Spec.log_bounded, State.addLog. cbv zeta.
  cbn [snd State.set_logs State.logs].
  destruct (State.MAX_LOGS <? _)%nat eqn:E.
  - rewrite length_take. lia.
  - now apply Nat.ltb_ge in E.
Qed.

(** Whatever [closeTrade] preserves, [closeAllTrades] preserves. *)
Lemma closeAll_loop_preserves (P : State.Store -> Prop)
    (clock : nat -> State.CloseClock) :
  (forall k st tradeId, P st -> P (snd (State.closeTrade k st tradeId))) ->
  forall l n st acc,
    P st -> P (snd (State.closeAll_loop clock n l st acc)).
Proof.
  intros Hstep. induction l as [|t l IH]; intros n st acc HP; cbn.
  - exact HP.
  - specialize (Hstep (clock n) st (Trade.id t) HP).
    destruct (State.closeTrade (clock n) st (Trade.id t)) as [r st1].
    now apply IH.
Qed.

Lemma closeTrade_log_bounded (k : State.CloseClock) (st : State.Store)
    (tradeId : jsstring) :
  Spec.log_bounded st -> Spec.log_bounded (snd (State.closeTrade k st tradeId)).
Proof.
  intros Hb.
  destruct (list_find (fun t => Trade.id t = tradeId) (State.trades_active st))
    as [[i trade]|] eqn:Hfind.
  - destruct (closeTrade_found_steps k st tradeId i trade Hfind)
      as (x & level & message & details & Hrun).
    cbv zeta in Hrun. rewrite Hrun. cbn [snd]. apply addLog_log_bounded.
  - now rewrite (closeTrade_find_None k st tradeId Hfind).
Qed.

(** X2. Every operation that writes to the store of the mock back end keeps
    the activity log within [MAX_LOGS] entries. *)
Theorem log_stays_bounded (st : State.Store) :
  Spec.log_bounded st ->
  (forall k tradeId, Spec.log_bounded (snd (State.closeTrade k st tradeId)))
  /\ (forall clock, Spec.log_bounded (snd (State.closeAllTrades clock st)))
  /\ (forall Number k input,
         Spec.log_bounded (snd (State.updateSettings Number k st input)))
  /\ (forall k, Spec.log_bounded (State.startAutoTrading k st))
  /\ (forall k, Spec.log_bounded (State.stopAutoTrading k st))
  /\ (forall k, Spec.log_bounded (snd (State.toggleBotActive k st))).
Proof.
  intros Hb. repeat split; intros.
  - now apply closeTrade_log_bounded.
  - unfold State.closeAllTrades.
    apply closeAll_loop_preserves; [|exact Hb].
    intros. now apply closeTrade_log_bounded.
  - apply addLog_log_bounded.
  - apply addLog_log_bounded.
  - apply addLog_log_bounded.
  - apply addLog_log_bounded.
Qed.

Lemma log_stays_bounded_witness :
  Spec.log_bounded
    (snd (State.closeAllTrades (fun _ => Spec.sample_clock) Spec.seed)).
Proof.
  assert (H : Spec.log_bounded Spec.seed)
    by (unfold Spec.log_bounded; vm_compute; lia).
  exact (proj1 (proj2 (log_stays_bounded Spec.seed H))
           (fun _ => Spec.sample_clock)).
Defined.

(** ** Closing trades *)

Lemma closeTrade_head (k : State.CloseClock) (st : State.Store)
    (t : Trade.t) (rest : list Trade.t) :
  State.trades_active st = t :: rest ->
  exists c,
    fst (State.closeTrade k st (Trade.id t)) = Some c
    /\ Trade.id c = Trade.id t
    /\ Trade.status c = closed
    /\ State.trades_active (snd (State.closeTrade k st (Trade.id t))) = rest
    /\ State.trades_history (snd (State.closeTrade k st (Trade.id t)))
       = c :: State.trades_history st.
Proof.
  intros Hact.
  pose proof (find_head_by_id t rest) as Hfind. rewrite <- Hact in Hfind.
  destruct (closeTrade_found_steps k st _ _ _ Hfind)
    as (x & level & message & details & Hrun).
  cbv zeta in Hrun. rewrite Hrun. cbn [fst snd].
  rewrite closeTrade_tail_active, closeTrade_tail_history.
  eexists. split; [reflexivity|]. cbn. rewrite Hact. repeat split.
Qed.

Lemma closeAll_loop_moves (clock : nat -> State.CloseClock) :
  forall l n st acc,
    State.trades_active st = l ->
    exists cs,
      fst (State.closeAll_loop clock n l st acc) = acc ++ cs
      /\ map Trade.id cs = map Trade.id l
      /\ Forall (fun c => Trade.status c = closed) cs
      /\ State.trades_active (snd (State.closeAll_loop clock n l st acc)) = []
      /\ State.trades_history (snd (State.closeAll_loop clock n l st acc))
         = rev cs ++ State.trades_history st.
Proof.
  induction l as [|t l IH]; intros n st acc Hact; cbn.
  - exists []. rewrite app_nil_r. repeat split; auto.
  - destruct (closeTrade_head (clock n) st t l Hact)
      as (c & Hfst & Hid & Hst & Ha & Hh).
    destruct (State.closeTrade (clock n) st (Trade.id t)) as [r st1].
    cbn [fst snd] in *. subst r.
    destruct (IH (S n) st1 (acc ++ [c]) Ha) as (cs & H1 & H2 & H3 & H4 & H5).
    exists (c :: cs). rewrite H1, H4, H5, Hh.
    repeat split.
    + now rewrite <- app_assoc.
    + cbn. now rewrite Hid, H2.
    + now constructor.
    + cbn. now rewrite <- app_assoc.
Qed.

(** X3. [closeAllTrades] closes every active trade once, in the order of the
    active list: the active list ends empty, the returned records are the
    closed versions of the active trades, and the history gains exactly
    those records, the last closed first. *)
Theorem closeAllTrades_moves_every_trade (clock : nat -> State.CloseClock)
    (st : State.Store) :
  let closed_ := fst (State.closeAllTrades clock st) in
  let st' := snd (State.closeAllTrades clock st) in
  State.trades_active st' = []
  /\ map Trade.id closed_ = map Trade.id (State.trades_active st)
  /\ length closed_ = length (State.trades_active st)
  /\ Forall (fun c => Trade.status c = closed) closed_
  /\ State.trades_history st' = rev closed_ ++ State.trades_history st
  /\ length (State.trades_history st')
     = (length (State.trades_history st) + length (State.trades_active st))%nat.
Proof.
  cbv zeta. unfold State.closeAllTrades.
  destruct (closeAll_loop_moves clock (State.trades_active st) 0%nat st []
              eq_refl) as (cs & H1 & H2 & H3 & H4 & H5).
  rewrite H1, H4, H5. cbn [app].
  assert (Hlen : length cs = length (State.trades_active st)).
  { rewrite <- (length_map Trade.id cs), H2. apply length_map. }
  repeat split; auto.
  rewrite length_app, length_rev. lia.
Qed.

Lemma closed_record_settled (trade : Trade.t) (x : Q) (time : jsstring)
    (p pp : Q) :
  Spec.settled_trade (State.closed_record trade x time p pp).
Proof. repeat split; cbn; eauto. Qed.

Lemma closeTrade_lifecycle (k : State.CloseClock) (st : State.Store)
    (tradeId : jsstring) :
  Spec.lifecycle st -> Spec.lifecycle (snd (State.closeTrade k st tradeId)).
Proof.
  intros [Hopen Hsettled].
  destruct (list_find (fun t => Trade.id t = tradeId) (State.trades_active st))
    as [[i trade]|] eqn:Hfind.
  - destruct (closeTrade_found_steps k st tradeId i trade Hfind)
      as (x & level & message & details & Hrun).
    cbv zeta in Hrun. rewrite Hrun. cbn [snd]. unfold Spec.lifecycle.
    rewrite closeTrade_tail_active, closeTrade_tail_history. cbn. split.
    + now apply Forall_delete.
    + constructor; [apply closed_record_settled | exact Hsettled].
  - rewrite (closeTrade_find_None k st tradeId Hfind). now split.
Qed.

Lemma seed_lifecycle (iso_ago : Z -> jsstring) :
  Spec.lifecycle (State.initial_state iso_ago).
Proof.
  split; repeat constructor; cbn; eauto.
Qed.

(** X4. The life cycle of trades is an invariant of the mock store: in the
    seed state every active trade is open (status active, no exit price, no
    exit time) and every history record is settled (status closed, with
    exit price, exit time and profit), and [closeTrade] and
    [closeAllTrades] keep it so. *)
Theorem trade_lifecycle_invariant :
  (forall iso_ago, Spec.lifecycle (State.initial_state iso_ago))
  /\ (forall k st tradeId,
         Spec.lifecycle st ->
         Spec.lifecycle (snd (State.closeTrade k st tradeId)))
  /\ (forall clock st,
         Spec.lifecycle st ->
         Spec.lifecycle (snd (State.closeAllTrades clock st))).
Proof.
  split; [exact seed_lifecycle|]. split.
  - exact closeTrade_lifecycle.
  - intros clock st H. unfold State.closeAllTrades.
    apply closeAll_loop_preserves; [|exact H].
    intros. now apply closeTrade_lifecycle.
Qed.

Lemma trade_lifecycle_invariant_witness :
  Spec.lifecycle
    (snd (State.closeAllTrades (fun _ => Spec.sample_clock) Spec.seed)).
Proof.
  apply (proj2 (proj2 trade_lifecycle_invariant)).
  apply (proj1 trade_lifecycle_invariant).
Defined.

(** X5. When [closeTrade] closes a trade, the total balance becomes the old
    total plus the stored profit, rounded to two decimals; the first account
    position whose symbol is the key of the trade's symbol is removed (none
    if there is no such position) and the other positions stay in order;
    settings, market baselines and the auto-trading state are untouched, and
    one entry is added to the log, of level success for a profit of at least
    zero and warning otherwise. *)
Theorem closeTrade_account_effect (k : State.CloseClock) (st : State.Store)
    (tradeId : jsstring) :
  In tradeId (map Trade.id (State.trades_active st)) ->
  exists c p entry,
    let st' := snd (State.closeTrade k st tradeId) in
    let key := State.toSymbolKey (Trade.symbol c) in
    let positions := State.AccountState.positions (State.account st) in
    fst (State.closeTrade k st tradeId) = Some c
    /\ Trade.profit c = Some p
    /\ State.AccountState.totalBalance (State.account st')
       = State.round (State.AccountState.totalBalance (State.account st) + p) 2
    /\ State.AccountState.positions (State.account st')
       = match
           list_find (fun pos => State.AccountPosition.symbol pos = key)
                     positions
         with
         | Some (j, _) => delete j positions
         | None => positions
         end
    /\ State.settings st' = State.settings st
    /\ State.market st' = State.market st
    /\ State.autoTrading st' = State.autoTrading st
    /\ State.logs st' = take State.MAX_LOGS (entry :: State.logs st)
    /\ ActivityLog.level entry = (if Qle_bool 0 p then success else warning).
Proof.
  intros Hin.
  destruct (find_first_by_id _ _ Hin) as (i & trade & Hfind).
  unfold State.closeTrade. rewrite Hfind. cbv zeta.
  match goal with
  | |- context [State.calculateProfit trade ?x] => set (exitPrice := x)
  end.
  unfold State.calculateProfit. cbv zeta.
  set (p := State.round _ 2). set (pp := State.round _ 2).
  exists (State.closed_record trade exitPrice (State.exit_iso k) p pp), p.
  eexists. cbn [fst snd].
  split; [reflexivity|]. split; [reflexivity|].
  cbn [State.closed_record Trade.symbol].
  unfold State.addLog, State.syncAccountBalances, State.removePosition.
  cbv zeta.
  cbn [State.account State.set_totalBalance State.set_account
       State.set_trades_history State.set_trades_active
       State.AccountState.positions].
  destruct (list_find _ (State.AccountState.positions (State.account st)))
    as [[j q]|];
    cbn [snd State.set_logs State.set_account State.account State.settings
         State.market State.autoTrading State.logs
         State.AccountState.totalBalance State.AccountState.positions].
  all: repeat split.
  all: try (destruct (State.MAX_LOGS <? _)%nat eqn:E;
            [reflexivity
            | apply Nat.ltb_ge in E; symmetry; now apply take_ge]).
  all: reflexivity.
Qed.

Lemma closeTrade_account_effect_witness :
  exists c p,
    fst (State.closeTrade Spec.sample_clock Spec.seed
           (lit "trade-sol-long-active")) = Some c
    /\ Trade.profit c = Some p
    /\ State.AccountState.totalBalance
         (State.account
            (snd (State.closeTrade Spec.sample_clock Spec.seed
                    (lit "trade-sol-long-active"))))
       = State.round (125400 + p) 2.
Proof.
  destruct (closeTrade_account_effect Spec.sample_clock Spec.seed
              (lit "trade-sol-long-active"))
    as (c & p & entry & H1 & H2 & H3 & _).
  - vm_compute. do 2 right. left. reflexivity.
  - exists c, p. repeat split; assumption.
Defined.

Lemma round_nonneg (x : Q) : 0 <= x -> 0 <= State.round x 2.
Proof.
  intros H. pose proof (round_mono 0 x H). pose proof round_0. lra.
Qed.

Lemma round_nonpos (x : Q) : x <= 0 -> State.round x 2 <= 0.
Proof.
  intros H. pose proof (round_mono x 0 H). pose proof round_0. lra.
Qed.

(** X6. With a quantity of at least zero, the stored profit never has the
    wrong sign: a long trade closed at or above its entry price, or a short
    one closed at or below it, has a profit of at least zero, and the other
    way round at most zero.  A trade closed at its entry price has profit
    and profit percent zero, and a zero basis gives percent zero instead of
    a division by zero. *)
Theorem calculateProfit_sign (trade : Trade.t) (exitPrice : Q) :
  0 <= Trade.quantity trade ->
  let profit := fst (State.calculateProfit trade exitPrice) in
  let percent := snd (State.calculateProfit trade exitPrice) in
  let entry := Trade.entryPrice trade in
  (Trade.type trade = long -> entry <= exitPrice -> 0 <= profit)
  /\ (Trade.type trade = long -> exitPrice <= entry -> profit <= 0)
  /\ (Trade.type trade = short -> exitPrice <= entry -> 0 <= profit)
  /\ (Trade.type trade = short -> entry <= exitPrice -> profit <= 0)
  /\ (exitPrice == entry -> profit == 0 /\ percent == 0)
  /\ (entry * Trade.quantity trade == 0 -> percent == 0).
Proof.
  intros Hq. cbv zeta. unfold State.calculateProfit. cbv zeta. cbn [fst snd].
  set (q := Trade.quantity trade) in *. set (e := Trade.entryPrice trade).
  repeat split.
  - intros -> He. apply round_nonneg. nra.
  - intros -> He. apply round_nonpos. nra.
  - intros -> He. apply round_nonneg. nra.
  - intros -> He. apply round_nonpos. nra.
  - rewrite (round_comp _ 0); [apply round_0|]. rewrite H. ring.
  - destruct (Qeq_bool (e * q) 0); [apply round_0|].
    rewrite (round_comp _ 0); [apply round_0|]. rewrite H.
    unfold Qdiv. ring.
  - intros H. destruct (Qeq_bool (e * q) 0) eqn:E; [apply round_0|].
    apply Qeq_bool_iff in H. congruence.
Qed.

Lemma calculateProfit_sign_witness :
  0 <= fst (State.calculateProfit (Spec.scenario_trade "a" 100) 101).
Proof.
  assert (Hq : 0 <= Trade.quantity (Spec.scenario_trade "a" 100))
    by (cbn; lra).
  apply (proj1 (calculateProfit_sign (Spec.scenario_trade "a" 100) 101 Hq)).
  - reflexivity.
  - cbn. lra.
Defined.

(** ** Market snapshots *)

Lemma round_close (x : Q) :
  x - (1 # 200) < State.round x 2 /\ State.round x 2 <= x + (1 # 200).
Proof.
  unfold State.round, Math_round. cbv zeta. change (pow10 2) with 100.
  pose proof (Qfloor_le (x * 100 + (1 # 2))) as Hlo.
  pose proof (Qlt_floor (x * 100 + (1 # 2))) as Hhi.
  rewrite inject_Z_plus in Hhi. change (inject_Z 1) with 1 in Hhi.
  set (z := inject_Z (Qfloor (x * 100 + (1 # 2)))) in *.
  split.
  - apply Qlt_shift_div_l; lra.
  - apply Qle_shift_div_r; lra.
Qed.

(** X7. [getMarketSnapshot] answers [null] exactly for the symbols whose key
    has no baseline.  Otherwise the simulated price stays within 0.25 % of
    the baseline price, up to the half cent of the rounding, whenever the
    sine is between -1 and 1 and the baseline price is not negative; high,
    low and volume are those of the baseline. *)
Theorem market_snapshot_near_baseline (sin_now : Q -> Q) (iso : jsstring)
    (st : State.Store) (symbol : jsstring) :
  (State.market st !! State.toSymbolKey symbol = None ->
   State.getMarketSnapshot sin_now iso st symbol = None)
  /\ (forall base,
         State.market st !! State.toSymbolKey symbol = Some base ->
         exists m,
           State.getMarketSnapshot sin_now iso st symbol = Some m
           /\ State.MarketSnapshot.high24h m = State.MarketBase.high24h base
           /\ State.MarketSnapshot.low24h m = State.MarketBase.low24h base
           /\ State.MarketSnapshot.volume24h m
              = State.MarketBase.volume24h base
           /\ State.MarketSnapshot.timestamp m = iso
           /\ (- (1) <= sin_now 0 <= 1 ->
               0 <= State.MarketBase.price base ->
               State.MarketBase.price base * 0.9975 - 0.005
               <= State.MarketSnapshot.price m
               <= State.MarketBase.price base * 1.0025 + 0.005)).
Proof.
  split.
  - intros Hnone. unfold State.getMarketSnapshot. cbv zeta. now rewrite Hnone.
  - intros base Hsome. unfold State.getMarketSnapshot. cbv zeta.
    rewrite Hsome. eexists. split; [reflexivity|].
    cbn [State.MarketSnapshot.high24h State.MarketSnapshot.low24h
         State.MarketSnapshot.volume24h State.MarketSnapshot.timestamp
         State.MarketSnapshot.price].
    repeat split; unfold State.jitter; cbv zeta;
      set (b := State.MarketBase.price base) in *;
      set (s := sin_now 0) in *;
      destruct (round_close (b + (0 + s * (b * 0.0025)))) as [Hlo Hhi];
      nra.
Qed.

Lemma market_snapshot_near_baseline_witness :
  exists m,
    State.getMarketSnapshot (fun _ => 1) Spec.sample_time Spec.seed
                            (lit "btc/usdt") = Some m
    /\ 67420 * 0.9975 - 0.005 <= State.MarketSnapshot.price m
       <= 67420 * 1.0025 + 0.005.
Proof.
  destruct (proj2 (market_snapshot_near_baseline (fun _ => 1)
                     Spec.sample_time Spec.seed (lit "btc/usdt"))
              (State.MarketBase.mk 67420 520 68450 66180 28500000000)
              eq_refl)
    as (m & Hm & _ & _ & _ & _ & Hprice).
  exists m. split; [exact Hm|]. apply Hprice.
  - split; lra.
  - cbn. lra.
Defined.

(** ** Statistics of the mock store and of the adapter *)

(** X8. In the mock store the detailed statistics agree with the summary:
    the success rate of the summary is the win rate of the details, it lies
    in [0, 100], and the total number of trades is the number of history
    records plus the number of active trades. *)
Theorem detailed_stats_agree_with_summary (within_day : jsstring -> bool)
    (st : State.Store) :
  let d := State.getDetailedStats within_day st in
  let s := State.getSummaryStats within_day st in
  Stats.successRate d = Stats.s_successRate s
  /\ Stats.s_successRate s = Stats.winRate d
  /\ 0 <= Stats.s_successRate s <= 100
  /\ Stats.activeTrades d = length (State.trades_active st)
  /\ Stats.totalTrades d
     = (length (State.trades_history st) + length (State.trades_active st))%nat
  /\ Stats.totalBalance d = Stats.s_totalBalance s
  /\ Stats.todayProfit d = Stats.s_todayProfit s.
Proof.
  cbv zeta. repeat split.
  - assert (H : Spec.win_rate_of (State.trades_history st)
                  (Stats.s_successRate (State.getSummaryStats within_day st))).
    { apply win_rate_of_ratio. unfold State.getSummaryStats. cbv zeta.
      cbn [Stats.s_successRate]. rewrite filter_wins.
      destruct (State.trades_history st); [apply round_0 | reflexivity]. }
    apply H.
  - assert (H : Spec.win_rate_of (State.trades_history st)
                  (Stats.s_successRate (State.getSummaryStats within_day st))).
    { apply win_rate_of_ratio. unfold State.getSummaryStats. cbv zeta.
      cbn [Stats.s_successRate]. rewrite filter_wins.
      destruct (State.trades_history st); [apply round_0 | reflexivity]. }
    apply H.
Qed.

Lemma sum_profits_from (l : list Trade.t) (P : Q -> Prop) :
  (forall a p, P a -> P p -> P (a + p)) ->
  Forall (fun t => P (Trade.profit_or_0 t)) l ->
  forall a, P a ->
    P (fold_left (fun sum trade => sum + Trade.profit_or_0 trade) l a).
Proof.
  intros Hadd. induction 1 as [|t l Ht _ IH]; intros a Ha; cbn.
  - exact Ha.
  - apply IH. now apply Hadd.
Qed.

Lemma wins_are_positive (l : list Trade.t) :
  Forall (fun t => 0 <= Trade.profit_or_0 t)
         (List.filter (fun t => Qltb 0 (Trade.profit_or_0 t)) l).
Proof.
  apply Forall_forall. intros t Ht. apply list_elem_of_In in Ht.
  apply filter_In in Ht as [_ Ht]. unfold Qltb in Ht.
  apply negb_true_iff in Ht.
  destruct (Qlt_le_dec 0 (Trade.profit_or_0 t)) as [H|H]; [lra|].
  apply Qle_bool_iff in H. congruence.
Qed.

Lemma mean_of_wins_nonneg (l : list Trade.t) :
  0 <= match length (List.filter (fun t => Qltb 0 (Trade.profit_or_0 t)) l) with
       | O => 0
       | S _ =>
           fold_left (fun sum trade => sum + Trade.profit_or_0 trade)
             (List.filter (fun t => Qltb 0 (Trade.profit_or_0 t)) l) 0
           / Stats.of_nat
               (length (List.filter (fun t => Qltb 0 (Trade.profit_or_0 t)) l))
       end.
Proof.
  set (w := List.filter _ l).
  assert (Hsum : 0 <= fold_left (fun sum trade => sum + Trade.profit_or_0 trade)
                        w 0).
  { apply (sum_profits_from w (fun q => 0 <= q)).
    - intros; lra.
    - apply wins_are_positive.
    - lra. }
  destruct (length w) as [|n] eqn:E; [lra|].
  apply Qle_shift_div_l; [|lra].
  unfold Stats.of_nat. change 0 with (inject_Z 0). rewrite <- Zlt_Qlt. lia.
Qed.

(** X9. In both statistics computations the average profit and the average
    loss are never negative, whatever the trade list. *)
Theorem averages_never_negative (within_day : jsstring -> bool)
    (st : State.Store) (summary : Stats.Summary) (history : list Trade.t) :
  0 <= Stats.avgProfit (State.getDetailedStats within_day st)
  /\ 0 <= Stats.avgLoss (State.getDetailedStats within_day st)
  /\ 0 <= Stats.avgProfit (Service.getDetailedStats summary history)
  /\ 0 <= Stats.avgLoss (Service.getDetailedStats summary history).
Proof.
  repeat split.
  - unfold State.getDetailedStats. cbv zeta. cbn [Stats.avgProfit].
    apply round_nonneg, mean_of_wins_nonneg.
  - unfold State.getDetailedStats. cbv zeta. cbn [Stats.avgLoss].
    apply round_nonneg.
    destruct (length _); [lra | apply Qabs_nonneg].
  - unfold Service.getDetailedStats. cbv zeta. cbn [Stats.avgProfit].
    rewrite roundNumber_is_round.
    apply round_nonneg, mean_of_wins_nonneg.
  - unfold Service.getDetailedStats. cbv zeta. cbn [Stats.avgLoss].
    rewrite roundNumber_is_round. apply round_nonneg.
    destruct (length _); [lra | apply Qabs_nonneg].
Qed.

(** ** Settings and control operations *)

Lemma flag_is_not_proto : lit "autoTradingEnabled" <> lit "__proto__".
Proof. intros E. vm_compute in E. discriminate E. Qed.

Section UpdateSettingsMore.

Variable Number : jsstring -> number.
Variable st : State.Store.
Variable input : gmap jsstring jsval.

Lemma updateSettings_lookup (k : State.Stamp) (key : jsstring) :
  key <> lit "__proto__" ->
  State.settings (snd (State.updateSettings Number k st input)) !! key
  = Spec.field_after_update Number (State.settings st !! key) (input !! key).
Proof.
  intros Hkey. unfold Spec.field_after_update.
  destruct (input !! key) as [v|] eqn:E.
  - destruct v;
      try (rewrite (updateSettings_present Number k st input key _ Hkey E);
           [reflexivity | discriminate]).
    unfold State.updateSettings, State.addLog. cbv zeta.
    cbn [snd State.settings State.set_logs].
    apply lookup_union_r. now rewrite map_lookup_imap, E.
  - now apply updateSettings_absent.
Qed.

Lemma updateSettings_autoTrading (k : State.Stamp) :
  State.autoTrading (snd (State.updateSettings Number k st input))
  = match input !! lit "autoTradingEnabled" with
    | None | Some VUndefined =>
        match Spec.inherited_flag input with
        | None | Some VUndefined => State.autoTrading st
        | Some v => State.AutoTradingState.mk (Boolean v) (Boolean v)
        end
    | Some v =>
        let b :=
          Boolean (Spec.stored_value Number
                     (State.settings st !! lit "autoTradingEnabled") v) in
        State.AutoTradingState.mk b b
    end.
Proof.
  unfold State.updateSettings, State.addLog, Spec.inherited_flag. cbv zeta.
  cbn [snd State.autoTrading State.set_logs].
  rewrite map_lookup_imap.
  pose proof flag_is_not_proto as Hne.
  destruct (input !! lit "autoTradingEnabled") as [v|]; [|reflexivity].
  cbn [mbind option_bind].
  rewrite (bool_decide_eq_false_2 _ Hne).
  unfold Spec.stored_value.
  destruct v; try reflexivity;
    now destruct (State.settings st !! lit "autoTradingEnabled") as [[]|].
Qed.

End UpdateSettingsMore.

Lemma stored_value_idempotent (Number : jsstring -> number)
    (current : option jsval) (v : jsval) :
  Spec.stored_value Number (Some (Spec.stored_value Number current v)) v
  = Spec.stored_value Number current v.
Proof.
  unfold Spec.stored_value.
  destruct current as [[]|], v; reflexivity.
Qed.

(** X10. [updateSettings] is idempotent on the settings and on the
    auto-trading state: submitting the same payload a second time changes
    neither.  After an update every field but [__proto__] holds the stored
    form of the submitted value (a string submitted for a numeric setting
    is converted to a number) or, when it was not submitted, its old value;
    a field named [__proto__] is never stored; the trade lists and the
    account are untouched. *)
Theorem updateSettings_idempotent (Number : jsstring -> number)
    (k1 k2 : State.Stamp) (st : State.Store) (input : gmap jsstring jsval) :
  let st1 := snd (State.updateSettings Number k1 st input) in
  let st2 := snd (State.updateSettings Number k2 st1 input) in
  State.settings st2 = State.settings st1
  /\ State.autoTrading st2 = State.autoTrading st1
  /\ (forall key,
         key <> lit "__proto__" ->
         State.settings st1 !! key
         = Spec.field_after_update Number (State.settings st !! key)
             (input !! key))
  /\ State.settings st1 !! lit "__proto__"
     = State.settings st !! lit "__proto__"
  /\ State.trades_active st1 = State.trades_active st
  /\ State.trades_history st1 = State.trades_history st
  /\ State.account st1 = State.account st.
Proof.
  cbv zeta. split; [|split; [|split; [|split; [|repeat split]]]].
  - apply map_eq. intros key.
    destruct (decide (key = lit "__proto__")) as [->|Hkey];
      [apply updateSettings_proto|].
    rewrite !updateSettings_lookup by exact Hkey.
    unfold Spec.field_after_update.
    destruct (input !! key) as [v|]; [|reflexivity].
    destruct v; try reflexivity; apply f_equal, stored_value_idempotent.
  - rewrite !updateSettings_autoTrading.
    rewrite updateSettings_lookup by exact flag_is_not_proto.
    unfold Spec.field_after_update.
    destruct (input !! lit "autoTradingEnabled") as [v|].
    + destruct v; cbv zeta; rewrite ?stored_value_idempotent;
        try reflexivity;
        now destruct (Spec.inherited_flag input) as [[]|].
    + now destruct (Spec.inherited_flag input) as [[]|].
  - intros key Hkey. now apply updateSettings_lookup.
  - apply updateSettings_proto.
Qed.

(** X11. After an update that submits [autoTradingEnabled], the auto-trading
    state is enabled and running exactly when the stored value is truthy.
    An update that does not submit it leaves the state alone, unless the
    payload holds, under [__proto__], an object with a field
    [autoTradingEnabled]: then the state follows the truthiness of that
    field although no setting is stored.  A string is stored as it is, so
    the text "false" switches auto-trading on. *)
Theorem updateSettings_autoTrading_follows_flag
    (Number : jsstring -> number) (k : State.Stamp) (st : State.Store)
    (input : gmap jsstring jsval) :
  let st' := snd (State.updateSettings Number k st input) in
  (forall v,
      input !! lit "autoTradingEnabled" = Some v -> v <> VUndefined ->
      State.settings st' !! lit "autoTradingEnabled"
      = Some (Spec.stored_value Number
                (State.settings st !! lit "autoTradingEnabled") v)
      /\ State.autoTrading st'
         = State.AutoTradingState.mk
             (Boolean (Spec.stored_value Number
                         (State.settings st !! lit "autoTradingEnabled") v))
             (Boolean (Spec.stored_value Number
                         (State.settings st !! lit "autoTradingEnabled") v)))
  /\ (input !! lit "autoTradingEnabled" = None ->
      Spec.inherited_flag input = None ->
      State.autoTrading st' = State.autoTrading st)
  /\ (forall fields v,
         input !! lit "autoTradingEnabled" = None ->
         input !! lit "__proto__" = Some (VObject fields) ->
         get_field (lit "autoTradingEnabled") fields = Some v ->
         v <> VUndefined ->
         State.autoTrading st'
         = State.AutoTradingState.mk (Boolean v) (Boolean v)
         /\ State.settings st' !! lit "autoTradingEnabled"
            = State.settings st !! lit "autoTradingEnabled")
  /\ (State.settings st !! lit "autoTradingEnabled" = Some (VBool true) ->
      input !! lit "autoTradingEnabled" = Some (VString (lit "false")) ->
      State.autoTrading st' = State.AutoTradingState.mk true true).
Proof.
  cbv zeta. split; [|split; [|split]].
  - intros v Hv Hdef. split.
    + rewrite updateSettings_lookup by exact flag_is_not_proto.
      rewrite Hv. now destruct v.
    + rewrite updateSettings_autoTrading, Hv. now destruct v.
  - intros Hnone Hinh. now rewrite updateSettings_autoTrading, Hnone, Hinh.
  - intros fields v Hnone Hproto Hfield Hdef. split.
    + rewrite updateSettings_autoTrading, Hnone.
      unfold Spec.inherited_flag. rewrite Hproto, Hfield. now destruct v.
    + now apply updateSettings_absent.
  - intros Hcur Hin. now rewrite updateSettings_autoTrading, Hin, Hcur.
Qed.

Lemma updateSettings_autoTrading_follows_flag_witness :
  State.autoTrading
    (snd (State.updateSettings (fun _ => NaN) Spec.sample_stamp Spec.seed
            {[ lit "__proto__" :=
                 VObject [(lit "autoTradingEnabled", VBool false)] ]}))
  = State.AutoTradingState.mk false false
  /\ State.autoTrading
       (snd (State.updateSettings (fun _ => NaN) Spec.sample_stamp Spec.seed
               {[ lit "autoTradingEnabled" := VString (lit "false") ]}))
     = State.AutoTradingState.mk true true.
Proof.
  split.
  - destruct (updateSettings_autoTrading_follows_flag (fun _ => NaN)
                Spec.sample_stamp Spec.seed
                {[ lit "__proto__" :=
                     VObject [(lit "autoTradingEnabled", VBool false)] ]})
      as (_ & _ & Hproto & _).
    apply (Hproto [(lit "autoTradingEnabled", VBool false)] (VBool false));
      [reflexivity | reflexivity | reflexivity | discriminate].
  - destruct (updateSettings_autoTrading_follows_flag (fun _ => NaN)
                Spec.sample_stamp Spec.seed
                {[ lit "autoTradingEnabled" := VString (lit "false") ]})
      as (_ & _ & _ & Htext).
    apply Htext; reflexivity.
Defined.

(** X12. [startAutoTrading] sets the settings flag and makes the state
    enabled and running.  [stopAutoTrading] clears the flag and stops the
    run, but leaves [enabled] as it was: after a start and a stop the state
    is still enabled, though not running.  Neither touches another setting. *)
Theorem auto_trading_start_stop (k : State.Stamp) (st : State.Store) :
  let started := State.startAutoTrading k st in
  let stopped := State.stopAutoTrading k st in
  State.getAutoTradingStatus started = State.AutoTradingState.mk true true
  /\ State.settings started !! lit "autoTradingEnabled" = Some (VBool true)
  /\ State.AutoTradingState.isRunning (State.getAutoTradingStatus stopped)
     = false
  /\ State.AutoTradingState.enabled (State.getAutoTradingStatus stopped)
     = State.AutoTradingState.enabled (State.autoTrading st)
  /\ State.settings stopped !! lit "autoTradingEnabled" = Some (VBool false)
  /\ (forall k', State.getAutoTradingStatus (State.stopAutoTrading k' started)
                 = State.AutoTradingState.mk true false)
  /\ (forall key,
         key <> lit "autoTradingEnabled" ->
         State.settings started !! key = State.settings st !! key
         /\ State.settings stopped !! key = State.settings st !! key).
Proof.
  cbv zeta. unfold State.startAutoTrading, State.stopAutoTrading,
    State.getAutoTradingStatus, State.addLog. cbv zeta.
  generalize (lit "autoTradingEnabled"). intros flag.
  cbn [snd State.set_logs State.settings State.autoTrading State.logs
       State.AutoTradingState.enabled State.AutoTradingState.isRunning].
  repeat split.
  - apply lookup_insert_eq.
  - apply lookup_insert_eq.
  - apply lookup_insert_ne. congruence.
  - apply lookup_insert_ne. congruence.
Qed.

(** X13. [toggleBotActive] stores and returns the negation of the truthiness
    of [isActive], and touches no other setting; on a boolean flag two
    toggles in a row give back the settings they started from. *)
Theorem toggleBotActive_flips (k1 k2 : State.Stamp) (st : State.Store) :
  let r1 := State.toggleBotActive k1 st in
  let r2 := State.toggleBotActive k2 (snd r1) in
  fst r1
  = negb (Boolean (default VUndefined (State.settings st !! lit "isActive")))
  /\ State.settings (snd r1) !! lit "isActive" = Some (VBool (fst r1))
  /\ fst r2 = negb (fst r1)
  /\ (forall key,
         key <> lit "isActive" ->
         State.settings (snd r1) !! key = State.settings st !! key)
  /\ (forall b,
         State.settings st !! lit "isActive" = Some (VBool b) ->
         State.settings (snd r2) = State.settings st).
Proof.
  cbv zeta. repeat split; cbn.
  - apply lookup_insert_eq.
  - now rewrite lookup_insert_eq.
  - intros key Hkey. apply lookup_insert_ne. congruence.
  - intros b Hb. rewrite lookup_insert_eq, Hb. cbn.
    rewrite insert_insert_eq, negb_involutive. now apply insert_id.
Qed.

Lemma toggleBotActive_flips_witness :
  State.settings
    (snd (State.toggleBotActive Spec.sample_stamp
            (snd (State.toggleBotActive Spec.sample_stamp Spec.seed))))
  = State.settings Spec.seed.
Proof.
  apply (proj2 (proj2 (proj2 (proj2
           (toggleBotActive_flips Spec.sample_stamp Spec.sample_stamp
              Spec.seed)))) true).
  reflexivity.
Defined.

(** ** Account, analysis and predictions served by the mock store *)

Lemma positionsWithPnl_spec (sines : nat -> Q -> Q) (isos : nat -> jsstring)
    (st : State.Store) (positions : list State.AccountPosition.t) (n : nat) :
  let served := State.positionsWithPnl sines isos st n positions in
  map State.PositionWithPnl.position served = positions
  /\ Forall (fun p =>
               Spec.is_cents (State.PositionWithPnl.unrealizedPnl p)
               /\ (State.market st
                     !! State.toSymbolKey
                          (State.AccountPosition.symbol
                             (State.PositionWithPnl.position p)) = None ->
                   State.PositionWithPnl.unrealizedPnl p == 0))
            served.
Proof.
  revert n. induction positions as [|position rest IH]; intros n; cbn.
  - split; [reflexivity | constructor].
  - destruct (IH (S n)) as [IH1 IH2]. split.
    + now rewrite IH1.
    + constructor; [|exact IH2]. cbn. split.
      * apply round_is_cents.
      * intros Hnone. unfold State.getMarketSnapshot. cbv zeta.
        rewrite Hnone. rewrite <- round_0. apply round_comp. ring.
Qed.

(** X14. [getAccountInfo] serves the stored account and its positions
    unchanged and in order, each with an unrealised profit that is a whole
    number of cents; a position whose symbol has no market baseline is
    valued at its entry price, so its unrealised profit is 0. *)
Theorem getAccountInfo_positions (sines : nat -> Q -> Q)
    (isos : nat -> jsstring) (st : State.Store) :
  let info := State.getAccountInfo sines isos st in
  fst info = State.account st
  /\ map State.PositionWithPnl.position (snd info)
     = State.AccountState.positions (State.account st)
  /\ Forall (fun p =>
               Spec.is_cents (State.PositionWithPnl.unrealizedPnl p)
               /\ (State.market st
                     !! State.toSymbolKey
                          (State.AccountPosition.symbol
                             (State.PositionWithPnl.position p)) = None ->
                   State.PositionWithPnl.unrealizedPnl p == 0))
            (snd info).
Proof.
  cbv zeta. unfold State.getAccountInfo. cbn [fst snd].
  split; [reflexivity|]. apply positionsWithPnl_spec.
Qed.

Lemma clamp_round_bounds (lo hi : Z) (x : Q) :
  (lo <= hi)%Z -> (lo <= clamp_round lo hi x <= hi)%Z.
Proof. unfold clamp_round. lia. Qed.

Lemma getMarketSnapshot_None (sin_now : Q -> Q) (iso : jsstring)
    (st : State.Store) (symbol : jsstring) :
  State.getMarketSnapshot sin_now iso st symbol = None
  <-> State.market st !! State.toSymbolKey symbol = None.
Proof.
  unfold State.getMarketSnapshot. cbv zeta.
  destruct (State.market st !! State.toSymbolKey symbol); split;
    congruence.
Qed.

(** X15. For a symbol in the ASCII range (where the upper-casing of the
    embedding is the built-in's), [getTechnicalAnalysis] answers null
    exactly when the symbol has neither a template nor a market baseline.  Any analysis it serves is
    labelled with the slashed key, has a signal strength that is a whole
    number between 0 and 100, and, when a template exists, carries the
    template's four signals unchanged. *)
Theorem getTechnicalAnalysis_served
    (technical : gmap jsstring State.TechnicalAnalysis.t)
    (sines : nat -> Q -> Q) (iso : jsstring) (st : State.Store)
    (symbol : jsstring) :
  Spec.ascii symbol ->
  let key := State.toSymbolKey symbol in
  let served := State.getTechnicalAnalysis technical sines iso st symbol in
  (served = None
   <-> technical !! key = None
       /\ State.market st !! State.toSymbolKey key = None)
  /\ (forall a,
         served = Some a ->
         State.TechnicalAnalysis.symbol a = State.slash_before_last4 key
         /\ Spec.whole_between 0 100 (State.TechnicalAnalysis.signalStrength a)
         /\ Spec.is_cents
              (State.TechnicalAnalysis.rsi_value (State.TechnicalAnalysis.rsi a))
         /\ (forall t,
                technical !! key = Some t ->
                State.TechnicalAnalysis.overallSignal a
                = State.TechnicalAnalysis.overallSignal t
                /\ State.TechnicalAnalysis.rsi_signal
                     (State.TechnicalAnalysis.rsi a)
                   = State.TechnicalAnalysis.rsi_signal
                       (State.TechnicalAnalysis.rsi t)
                /\ State.TechnicalAnalysis.macd_signal
                     (State.TechnicalAnalysis.macd a)
                   = State.TechnicalAnalysis.macd_signal
                       (State.TechnicalAnalysis.macd t)
                /\ State.TechnicalAnalysis.ma_signal
                     (State.TechnicalAnalysis.ma a)
                   = State.TechnicalAnalysis.ma_signal
                       (State.TechnicalAnalysis.ma t))).
Proof.
  intros _. cbv zeta. unfold State.getTechnicalAnalysis. cbv zeta.
  pose proof (getMarketSnapshot_None (sines 0%nat) iso st
                (State.toSymbolKey symbol)) as Hm.
  destruct (technical !! State.toSymbolKey symbol) as [t|] eqn:Ht;
    destruct (State.getMarketSnapshot (sines 0%nat) iso st
                (State.toSymbolKey symbol)) as [m|] eqn:Em.
  - split.
    + split; [discriminate | intros [H _]; discriminate H].
    + intros a Ha. injection Ha as <-. cbn.
      split; [reflexivity|].
      split; [eexists; split; [reflexivity | apply clamp_round_bounds; lia]|].
      split; [apply round_is_cents|].
      intros t' Ht'. injection Ht' as <-. repeat split.
  - split.
    + split; [discriminate | intros [H _]; discriminate H].
    + intros a Ha. injection Ha as <-. cbn.
      split; [reflexivity|].
      split; [eexists; split; [reflexivity | apply clamp_round_bounds; lia]|].
      split; [apply round_is_cents|].
      intros t' Ht'. injection Ht' as <-. repeat split.
  - split.
    + split; [discriminate|]. intros [_ H]. apply Hm in H. discriminate H.
    + intros a Ha. injection Ha as <-. cbn.
      split; [reflexivity|].
      split; [eexists; split; [reflexivity | apply clamp_round_bounds; lia]|].
      split; [apply round_is_cents|].
      intros t' Ht'. discriminate Ht'.
  - split.
    + split; [|reflexivity]. intros _. split; [reflexivity | now apply Hm].
    + intros a Ha. discriminate Ha.
Qed.

Lemma getTechnicalAnalysis_served_witness :
  State.getTechnicalAnalysis ∅ (fun _ _ => 0) Spec.sample_time Spec.seed
    (lit "doge/usdt") = None.
Proof.
  assert (Hascii : Spec.ascii (lit "doge/usdt")) by repeat constructor.
  apply (proj1 (getTechnicalAnalysis_served ∅ (fun _ _ => 0) Spec.sample_time
                  Spec.seed (lit "doge/usdt") Hascii)).
  split; reflexivity.
Defined.

Lemma jitter_signal_spec (sines : nat -> Q -> Q) (n : nat)
    (s : State.AISignal.t) :
  Spec.signal_in_range (State.jitter_signal sines n s)
  /\ Spec.same_signal s (State.jitter_signal sines n s).
Proof.
  repeat split; cbn;
    eexists; (split; [reflexivity | apply clamp_round_bounds; lia]).
Qed.

Lemma jitter_prediction_spec (sines : nat -> Q -> Q) (iso : jsstring)
    (st : State.Store) (n : nat) (p : State.PredictionData.t) :
  Spec.prediction_in_range (State.jitter_prediction sines iso st n p)
  /\ Spec.same_verdict p (State.jitter_prediction sines iso st n p).
Proof.
  unfold Spec.prediction_in_range, Spec.same_verdict,
    State.jitter_prediction.
  cbn.
  repeat match goal with
         | |- _ /\ _ => split
         | |- Spec.signal_in_range _ => apply jitter_signal_spec
         | |- Spec.same_signal _ _ => apply jitter_signal_spec
         | |- Spec.whole_between _ _ _ =>
             eexists; split; [reflexivity | apply clamp_round_bounds; lia]
         | |- _ = _ => reflexivity
         end.
Qed.

Lemma jitter_predictions_spec (sines : nat -> Q -> Q) (iso : jsstring)
    (st : State.Store) (l : list State.PredictionData.t) (n : nat) :
  Forall Spec.prediction_in_range (State.jitter_predictions sines iso st n l)
  /\ Forall2 Spec.same_verdict l (State.jitter_predictions sines iso st n l).
Proof.
  revert n. induction l as [|p rest IH]; intros n; cbn.
  - split; constructor.
  - destruct (IH (n + 13)%nat) as [IH1 IH2].
    split; constructor; try assumption; apply jitter_prediction_spec.
Qed.

(** X16. With a ['1h'] entry in the table, [getAiPredictions] answers every
    time frame that is not a name inherited from [Object.prototype]: an
    unknown one is served from the ['1h'] entry and labelled ['1h'].  The
    predictions served keep the order, symbols and verdicts of the entry
    used, and their scores are whole numbers in 40..95 (confidence), 30..90
    (signal strength) and 20..95 (the five partial signals), whatever the
    template holds.  An inherited name that the table does not define, such
    as ['constructor'], makes the call fail. *)
Theorem getAiPredictions_served
    (aiPredictions : gmap jsstring (list State.PredictionData.t))
    (sines : nat -> Q -> Q) (snapshot_iso now : jsstring) (st : State.Store)
    (timeframe : jsstring) (fallback : list State.PredictionData.t) :
  aiPredictions !! lit "1h" = Some fallback ->
  let served :=
    State.getAiPredictions aiPredictions sines snapshot_iso now st timeframe in
  (State.inherited timeframe = false \/ is_Some (aiPredictions !! timeframe) ->
   exists envelope,
     served = Some envelope
     /\ State.PredictionsEnvelope.timeframe envelope
        = match aiPredictions !! timeframe with
          | Some _ => timeframe
          | None => lit "1h"
          end
     /\ State.PredictionsEnvelope.timestamp envelope = now
     /\ Forall2 Spec.same_verdict
          (default fallback (aiPredictions !! timeframe))
          (State.PredictionsEnvelope.predictions envelope)
     /\ Forall Spec.prediction_in_range
          (State.PredictionsEnvelope.predictions envelope))
  /\ (State.inherited timeframe = true ->
      aiPredictions !! timeframe = None ->
      served = None).
Proof.
  intros Hfallback. cbv zeta. unfold State.getAiPredictions. cbv zeta.
  split.
  - intros Hok.
    destruct (aiPredictions !! timeframe) as [l|] eqn:El.
    + eexists. split; [reflexivity|]. cbn.
      repeat split; apply jitter_predictions_spec.
    + destruct Hok as [Hok | [l Hl]]; [|discriminate Hl].
      rewrite Hok, Hfallback.
      eexists. split; [reflexivity|]. cbn.
      repeat split; apply jitter_predictions_spec.
  - intros Hin Hnone. now rewrite Hnone, Hin.
Qed.

Lemma getAiPredictions_served_witness :
  (exists envelope,
      State.getAiPredictions Spec.sample_predictions (fun _ _ => 0)
        Spec.sample_time Spec.sample_time Spec.seed (lit "3d")
      = Some envelope
      /\ State.PredictionsEnvelope.timeframe envelope = lit "1h"
      /\ State.PredictionsEnvelope.timestamp envelope = Spec.sample_time
      /\ Forall2 Spec.same_verdict [Spec.sample_prediction]
           (State.PredictionsEnvelope.predictions envelope)
      /\ Forall Spec.prediction_in_range
           (State.PredictionsEnvelope.predictions envelope))
  /\ State.getAiPredictions Spec.sample_predictions (fun _ _ => 0)
       Spec.sample_time Spec.sample_time Spec.seed (lit "constructor")
     = None.
Proof.
  split.
  - apply (proj1 (getAiPredictions_served Spec.sample_predictions
                    (fun _ _ => 0) Spec.sample_time Spec.sample_time
                    Spec.seed (lit "3d") [Spec.sample_prediction]
                    eq_refl)).
    left. reflexivity.
  - apply (proj2 (getAiPredictions_served Spec.sample_predictions
                    (fun _ _ => 0) Spec.sample_time Spec.sample_time
                    Spec.seed (lit "constructor") [Spec.sample_prediction]
                    eq_refl)); reflexivity.
Defined.

(** ** Trades and positions of the exchange adapter *)

Lemma transformPositionToTrade_id (rt : Service.Runtime)
    (settings : Service.ServiceSettings.t)
    (position : Service.FuturesPositionRisk.t) (dualSide : bool)
    (trade : Trade.t) :
  Service.transformPositionToTrade rt settings position dualSide = Some trade ->
  Trade.id trade
  = Service.FuturesPositionRisk.symbol position ++ lit ":"
    ++ (if dualSide
        then Service.PositionSide_string
               (Service.FuturesPositionRisk.positionSide position)
        else Service.TradeType_upper (Trade.type trade))
  /\ Trade.status trade = active
  /\ ~ Service.parseFloat rt (Service.FuturesPositionRisk.positionAmt position)
       == 0.
Proof.
  unfold Service.transformPositionToTrade. cbv zeta.
  destruct (Qeq_bool _ 0) eqn:E; [discriminate|].
  intros [= <-]. cbn [Trade.id Trade.status Trade.type].
  repeat split.
  intros H. apply Qeq_bool_neq in E. apply E. rewrite H. reflexivity.
Qed.

Lemma PositionSide_string_spec (s : PositionSide) :
  Spec.no_colon (Service.PositionSide_string s)
  /\ toUpperCase (Service.PositionSide_string s)
     = Service.PositionSide_string s.
Proof.
  destruct s; split; try reflexivity;
    repeat (constructor; [intros E; vm_compute in E; discriminate E|]);
    constructor.
Qed.

Lemma TradeType_upper_spec (t : TradeType) :
  Spec.no_colon (Service.TradeType_upper t)
  /\ toUpperCase (Service.TradeType_upper t)
     <> Service.PositionSide_string BOTH.
Proof.
  destruct t; split; try (intros E; vm_compute in E; discriminate E);
    repeat (constructor; [intros E; vm_compute in E; discriminate E|]);
    constructor.
Qed.

(** X17. In hedge mode ([dualSide] true) the id that
    [transformPositionToTrade] gives to the trade of a position is matched
    by [matchesTradeId] on that position, whenever the symbol holds no
    colon. *)
Theorem hedge_trade_id_matches_its_position (rt : Service.Runtime)
    (settings : Service.ServiceSettings.t)
    (position : Service.FuturesPositionRisk.t) (trade : Trade.t) :
  Spec.no_colon (Service.FuturesPositionRisk.symbol position) ->
  Service.transformPositionToTrade rt settings position true = Some trade ->
  Service.matchesTradeId position (Trade.id trade) = true.
Proof.
  intros Hsym Htrade.
  destruct (transformPositionToTrade_id _ _ _ _ _ Htrade) as (-> & _ & _).
  destruct (PositionSide_string_spec
              (Service.FuturesPositionRisk.positionSide position))
    as [Hside Hupper].
  rewrite (matchesTradeId_symbol_side position _ _ Hsym Hside), Hupper.
  now rewrite !bool_decide_eq_true_2.
Qed.

Lemma hedge_trade_id_matches_its_position_witness :
  Service.matchesTradeId (Spec.sample_position "ETHUSDT" "12.50000000" LONG)
    (lit "ETHUSDT:LONG") = true.
Proof.
  assert (Hsym : Spec.no_colon (lit "ETHUSDT")).
  { repeat (constructor; [intros E; vm_compute in E; discriminate E|]).
    constructor. }
  destruct (Service.transformPositionToTrade Spec.sample_runtime
              Spec.sample_service_settings
              (Spec.sample_position "ETHUSDT" "12.50000000" LONG) true)
    as [trade|] eqn:E; [|vm_compute in E; discriminate E].
  pose proof (hedge_trade_id_matches_its_position Spec.sample_runtime
                Spec.sample_service_settings
                (Spec.sample_position "ETHUSDT" "12.50000000" LONG) trade
                Hsym E) as H.
  vm_compute in E. injection E as <-. exact H.
Defined.

(** X18. In one-way mode ([dualSide] false, every position reported with
    side [BOTH]) no trade listed by [getActiveTrades] can be closed by its
    id: the id ends in [LONG] or [SHORT], no position matches it, and
    [closePositionByTradeId] answers [POSITION_NOT_FOUND] without sending an
    order. *)
Theorem one_way_trade_ids_are_not_found (rt : Service.Runtime)
    (settings : Service.ServiceSettings.t) (parseFloat : jsstring -> Q)
    (client : Service.Client) (k : State.Stamp) (w : Service.World)
    (positions : list Service.FuturesPositionRisk.t) (trade : Trade.t) :
  Spec.positions_seen client w positions ->
  Forall (fun p =>
            Spec.no_colon (Service.FuturesPositionRisk.symbol p)
            /\ Service.FuturesPositionRisk.positionSide p = BOTH)
         positions ->
  In trade (Service.active_trades_of rt settings positions false) ->
  exists w',
    Service.closePositionByTradeId parseFloat client k (Trade.id trade) w
    = (inr (Service.ClosePositionResult.mk false (lit "UNKNOWN") BOTH None
              (Some (lit "POSITION_NOT_FOUND"))), w')
    /\ Service.sent w' = Service.sent w
    /\ Service.store w' = Service.store w.
Proof.
  intros Hseen Hall Hin.
  apply list_elem_of_In in Hin. unfold Service.active_trades_of in Hin.
  apply list_elem_of_omap in Hin. destruct Hin as (p & Hp & Htrade).
  destruct (transformPositionToTrade_id _ _ _ _ _ Htrade) as (Hid & _ & _).
  assert (Hnone :
            List.find (fun q => Service.matchesTradeId q (Trade.id trade))
                      positions = None).
  { apply find_matches_none. rewrite Hid.
    rewrite Forall_forall in Hall. destruct (Hall p Hp) as [Hsym _].
    apply Forall_forall. intros q Hq. destruct (Hall q Hq) as [_ Hboth].
    destruct (TradeType_upper_spec (Trade.type trade)) as [Hside Hupper].
    rewrite (matchesTradeId_symbol_side q _ _ Hsym Hside), Hboth.
    rewrite (bool_decide_eq_false_2 _ Hupper). apply andb_false_r. }
  destruct (getPositions_seen client w positions Hseen)
    as (w' & Hget & Hstore & Hsent).
  exists w'. unfold Service.closePositionByTradeId, Service.bind.
  rewrite Hget, Hnone. repeat split; assumption.
Qed.

Lemma one_way_trade_ids_are_not_found_witness :
  exists w',
    Service.closePositionByTradeId Spec.sample_parseFloat Spec.one_way_client
      Spec.sample_stamp (lit "ETHUSDT:LONG") Spec.sample_world
    = (inr (Service.ClosePositionResult.mk false (lit "UNKNOWN") BOTH None
              (Some (lit "POSITION_NOT_FOUND"))), w')
    /\ Service.sent w' = Service.sent Spec.sample_world
    /\ Service.store w' = Service.store Spec.sample_world.
Proof.
  destruct (Service.transformPositionToTrade Spec.sample_runtime
              Spec.sample_service_settings
              (Spec.sample_position "ETHUSDT" "12.50000000" BOTH) false)
    as [trade|] eqn:E; [|vm_compute in E; discriminate E].
  assert (Hid : Trade.id trade = lit "ETHUSDT:LONG").
  { vm_compute in E. injection E as <-. reflexivity. }
  rewrite <- Hid.
  apply (one_way_trade_ids_are_not_found Spec.sample_runtime
           Spec.sample_service_settings Spec.sample_parseFloat
           Spec.one_way_client Spec.sample_stamp Spec.sample_world
           Spec.one_way_positions trade).
  - reflexivity.
  - repeat constructor; intros H; vm_compute in H; discriminate H.
  - unfold Service.active_trades_of, Spec.one_way_positions.
    cbn [omap list_omap]. rewrite E.
    destruct (Service.transformPositionToTrade _ _
                (Spec.sample_position "BTCUSDT" "-0.250" BOTH) false);
      cbn; auto.
Defined.

Lemma Qabs_pos_of_neq (x : Q) : Qeq_bool (Qabs x) 0 = false -> 0 < Qabs x.
Proof.
  intros E. apply Qeq_bool_neq in E.
  pose proof (Qabs_nonneg x) as Hge.
  destruct (Qlt_le_dec 0 (Qabs x)) as [H|H]; [exact H|].
  exfalso. apply E. lra.
Qed.

Lemma transforms_agree (rt : Service.Runtime)
    (settings : Service.ServiceSettings.t)
    (p : Service.FuturesPositionRisk.t) (dualSide : bool) :
  match
    Service.transformPositionToTrade rt settings p dualSide,
    Service.transformPosition rt p
  with
  | Some trade, Some held =>
      Spec.same_holding trade held
      /\ Spec.has_quantity (Service.parseFloat rt) p = true
  | None, None => Spec.has_quantity (Service.parseFloat rt) p = false
  | _, _ => False
  end.
Proof.
  unfold Service.transformPositionToTrade, Service.transformPosition,
    Spec.has_quantity.
  cbv zeta.
  destruct (Qeq_bool
              (Qabs (Service.parseFloat rt
                       (Service.FuturesPositionRisk.positionAmt p))) 0)
    eqn:E; [reflexivity|].
  split; [|reflexivity].
  unfold Spec.same_holding, Spec.open_trade. cbn.
  repeat split; try reflexivity;
    try (destruct (Qltb 0 _); congruence).
  now apply Qabs_pos_of_neq.
Qed.

(** X19. [getActiveTrades] and [getAccountState] list the same holdings:
    both drop the positions whose amount is zero and keep the others in
    order, and the trade and the position made from one report agree on
    entry price, quantity, leverage and direction.  Every trade listed is
    open and has a quantity above zero. *)
Theorem adapter_lists_same_holdings (rt : Service.Runtime)
    (settings : Service.ServiceSettings.t)
    (positions : list Service.FuturesPositionRisk.t) (dualSide : bool) :
  Forall2 Spec.same_holding
    (Service.active_trades_of rt settings positions dualSide)
    (Service.mapped_positions rt positions)
  /\ length (Service.active_trades_of rt settings positions dualSide)
     = length (List.filter (Spec.has_quantity (Service.parseFloat rt))
                           positions).
Proof.
  unfold Service.active_trades_of, Service.mapped_positions.
  induction positions as [|p rest [IH1 IH2]];
    [split; [constructor|reflexivity]|].
  cbn [omap list_omap List.filter].
  pose proof (transforms_agree rt settings p dualSide) as Hp.
  destruct (Service.transformPositionToTrade rt settings p dualSide)
    as [trade|];
    destruct (Service.transformPosition rt p) as [held|];
    try contradiction.
  - destruct Hp as [Hsame ->]. cbn [length]. split.
    + now constructor.
    + now rewrite IH2.
  - rewrite Hp. split; assumption.
Qed.

Lemma closePosition_outcome (parseFloat : jsstring -> Q)
    (client : Service.Client) (k : State.Stamp)
    (position : Service.FuturesPositionRisk.t) (w : Service.World) :
  Spec.has_quantity parseFloat position = true ->
  exists r w',
    Service.closePosition parseFloat client k position w = (inr r, w')
    /\ Service.sent w' = Service.sent w ++ [Spec.order_for parseFloat position]
    /\ Spec.reports_closing parseFloat client position r.
Proof.
  intros Hq. unfold Spec.has_quantity in Hq. apply negb_true_iff in Hq.
  unfold Service.closePosition. cbv zeta. rewrite Hq.
  unfold Service.try_catch, Service.bind, Service.client_postOrder,
    Spec.reports_closing, Spec.order_for.
  fold (Spec.closing_order position
          (parseFloat (Service.FuturesPositionRisk.positionAmt position))).
  destruct (Service.postOrder client _) as [e|response];
    do 2 eexists; (split; [reflexivity|]); repeat split.
Qed.

Lemma closeAll_loop_orders (parseFloat : jsstring -> Q)
    (client : Service.Client) (stamps : nat -> State.Stamp)
    (positions : list Service.FuturesPositionRisk.t) :
  forall (n : nat) (results : list Service.ClosePositionResult.t)
         (w : Service.World),
  exists added w',
    Service.closeAll_loop parseFloat client stamps n positions results w
    = (inr (results ++ added), w')
    /\ Service.sent w'
       = Service.sent w
         ++ map (Spec.order_for parseFloat)
                (List.filter (Spec.has_quantity parseFloat) positions)
    /\ Forall2 (Spec.reports_closing parseFloat client)
         (List.filter (Spec.has_quantity parseFloat) positions) added.
Proof.
  induction positions as [|p rest IH]; intros n results w.
  - exists [], w. cbn. rewrite !app_nil_r. repeat split. constructor.
  - cbn [Service.closeAll_loop List.filter].
    destruct (Spec.has_quantity parseFloat p) eqn:Hq.
    + pose proof Hq as Hq'. unfold Spec.has_quantity in Hq'.
      apply negb_true_iff in Hq'. rewrite Hq'.
      destruct (closePosition_outcome parseFloat client (stamps n) p w Hq)
        as (r & w1 & Hrun & Hsent & Hr).
      unfold Service.bind. rewrite Hrun.
      destruct (IH (S n) (results ++ [r]) w1)
        as (added & w' & Hloop & Hsent' & Hall).
      exists (r :: added), w'. rewrite Hloop, Hsent', Hsent.
      cbn [map]. rewrite <- !app_assoc. repeat split.
      now constructor.
    + unfold Spec.has_quantity in Hq. apply negb_false_iff in Hq.
      rewrite Hq. apply IH.
Qed.

(** X20. Once the positions are fetched, [closeAllPositions] never rejects:
    it sends exactly one closing order for every position that holds a
    quantity, in the order of the positions, and none for the others, and it
    returns one result per order, with the symbol and side of the position
    and [success] exactly when the exchange accepted the order.  A rejected
    order does not stop the loop. *)
Theorem closeAllPositions_one_order_each (parseFloat : jsstring -> Q)
    (client : Service.Client) (stamps : nat -> State.Stamp)
    (w : Service.World) (positions : list Service.FuturesPositionRisk.t) :
  Spec.positions_seen client w positions ->
  exists results w',
    Service.closeAllPositions parseFloat client stamps w = (inr results, w')
    /\ Service.sent w'
       = Service.sent w
         ++ map (Spec.order_for parseFloat)
                (List.filter (Spec.has_quantity parseFloat) positions)
    /\ Forall2 (Spec.reports_closing parseFloat client)
         (List.filter (Spec.has_quantity parseFloat) positions) results.
Proof.
  intros Hseen.
  destruct (getPositions_seen client w positions Hseen)
    as (w1 & Hget & _ & Hsent).
  destruct (closeAll_loop_orders parseFloat client stamps positions 0%nat []
              w1) as (added & w' & Hloop & Hsent' & Hall).
  exists added, w'. unfold Service.closeAllPositions, Service.bind.
  rewrite Hget, Hloop, Hsent', Hsent. repeat split. exact Hall.
Qed.

Lemma closeAllPositions_one_order_each_witness :
  exists results w',
    Service.closeAllPositions Spec.sample_parseFloat Spec.rejecting_client
      (fun _ => Spec.sample_stamp) Spec.sample_world
    = (inr results, w')
    /\ Service.sent w'
       = map (Spec.order_for Spec.sample_parseFloat) Spec.one_way_positions
    /\ Forall2 (Spec.reports_closing Spec.sample_parseFloat
                  Spec.rejecting_client)
         Spec.one_way_positions results.
Proof.
  apply (closeAllPositions_one_order_each Spec.sample_parseFloat
           Spec.rejecting_client (fun _ => Spec.sample_stamp)
           Spec.sample_world Spec.one_way_positions).
  reflexivity.
Defined.

(** ** The history request of the adapter *)

Lemma unique_In (l : list jsstring) (x : jsstring) :
  In x (Service.unique l) <-> In x l.
Proof.
  induction l as [|y rest IH]; [reflexivity|].
  cbn [Service.unique In]. rewrite filter_In, IH.
  split.
  - intros [H | [H _]]; auto.
  - intros [H | H]; [now left|].
    destruct (decide (x = y)) as [->|Hne]; [now left|].
    right. split; [exact H|]. now rewrite bool_decide_eq_false_2.
Qed.

Lemma filter_sublist {A : Type} (f : A -> bool) (l : list A) :
  List.filter f l `sublist_of` l.
Proof.
  induction l as [|x rest IH]; [constructor|].
  cbn [List.filter]. destruct (f x); now constructor.
Qed.

Lemma unique_NoDup (l : list jsstring) : NoDup (Service.unique l).
Proof.
  induction l as [|y rest IH]; [constructor|].
  cbn [Service.unique]. constructor.
  - rewrite list_elem_of_In, filter_In. intros [_ H].
    now rewrite bool_decide_eq_true_2 in H.
  - eapply sublist_NoDup; [exact IH | apply filter_sublist].
Qed.

Lemma ceiling_covers (limit n : nat) :
  (0 < n)%nat ->
  (Z.of_nat limit
   <= Z.of_nat n * Qceiling (Stats.of_nat limit / Stats.of_nat n))%Z.
Proof.
  intros Hn. unfold Stats.of_nat.
  set (x := inject_Z (Z.of_nat limit) / inject_Z (Z.of_nat n)).
  pose proof (Qle_ceiling x) as Hc.
  assert (Hpos : 0 < inject_Z (Z.of_nat n)).
  { change 0 with (inject_Z 0). rewrite <- Zlt_Qlt. lia. }
  rewrite Zle_Qle, inject_Z_mult.
  assert (Hx : inject_Z (Z.of_nat limit) == inject_Z (Z.of_nat n) * x).
  { unfold x. field. lra. }
  rewrite Hx. apply Qmult_le_l; assumption.
Qed.

(** X21. The history request of the adapter asks for at most
    [MAX_SYMBOLS_PER_HISTORY_REQUEST] symbols, each of them once; with
    trading pairs configured in the ASCII range (where the upper-casing of
    the embedding is the built-in's), each of them is a configured trading
    pair or the symbol of a position.  When
    there is at least one symbol, the page asked per symbol is at least 5
    and the pages together cover the requested limit. *)
Theorem history_request_plan (settings : Service.ServiceSettings.t)
    (positions : list Service.FuturesPositionRisk.t) (limit : nat) :
  let symbols := Service.determineSymbolsForHistory settings positions in
  let page := Service.perSymbolLimit limit (length symbols) in
  NoDup symbols
  /\ (length symbols <= Service.MAX_SYMBOLS_PER_HISTORY_REQUEST)%nat
  /\ (Forall Spec.ascii
             (default [] (Service.ServiceSettings.tradingPairs settings)) ->
      forall s,
        In s symbols ->
        (s <> []
         /\ In s (map Service.pairToSymbol
                      (default []
                         (Service.ServiceSettings.tradingPairs settings))))
        \/ In s (map Service.FuturesPositionRisk.symbol positions))
  /\ (symbols <> [] ->
      (5 <= page)%Z
      /\ (Z.of_nat limit <= Z.of_nat (length symbols) * page)%Z).
Proof.
  cbv zeta. unfold Service.determineSymbolsForHistory. cbv zeta.
  set (preferred :=
         match Service.ServiceSettings.tradingPairs settings with
         | Some pairs =>
             List.filter truthy_string (map Service.pairToSymbol pairs)
         | None => []
         end).
  set (all := Service.unique (preferred ++ _)).
  split; [|split; [|split]].
  - apply (sublist_NoDup _ all); [apply unique_NoDup | apply sublist_take].
  - rewrite length_take. lia.
  - intros _ s Hs.
    assert (Hall : In s all).
    { apply list_elem_of_In. apply list_elem_of_In in Hs.
      eapply elem_of_sublist; [exact Hs | apply sublist_take]. }
    unfold all in Hall. rewrite unique_In, in_app_iff, unique_In in Hall.
    destruct Hall as [Hpref | Hpos]; [left | now right].
    unfold preferred in Hpref.
    destruct (Service.ServiceSettings.tradingPairs settings) as [pairs|];
      [|contradiction].
    apply filter_In in Hpref. destruct Hpref as [Hin Htruthy].
    split; [|exact Hin]. intros ->. discriminate Htruthy.
  - intros Hne. unfold Service.perSymbolLimit.
    set (n := length (take _ all)).
    assert (Hn : (0 < n)%nat).
    { unfold n. destruct (take _ all); [congruence | cbn; lia]. }
    pose proof (ceiling_covers limit n Hn). split; [lia | nia].
Qed.

Lemma history_request_plan_witness :
  (25 <= 2 * Service.perSymbolLimit 25 2)%Z.
Proof.
  apply (proj2 (proj2 (proj2
           (history_request_plan Spec.sample_service_settings
              Spec.one_way_positions 25)))).
  intros H. vm_compute in H. discriminate H.
Defined.

(** ** Credentials *)

(** X22. [maskKey] returns a missing or empty value as it is.  Otherwise the
    result has the length of the value; a value of at most six characters
    is replaced by stars altogether, and a longer one keeps exactly its
    first three and last three characters, with stars in between. *)
Theorem maskKey_shape (v : jsstring) :
  Service.maskKey None = None
  /\ Service.maskKey (Some []) = Some []
  /\ exists m,
       Service.maskKey (Some v) = Some m
       /\ length m = length v
       /\ ((length v <= 6)%nat -> m = repeat 42%N (length v))
       /\ ((6 < length v)%nat ->
           take 3 m = take 3 v
           /\ drop (length v - 3) m = drop (length v - 3) v
           /\ take (length v - 6) (drop 3 m)
              = repeat 42%N (length v - 6)).
Proof.
  split; [reflexivity|]. split; [reflexivity|].
  destruct v as [|c v']; [exists []; repeat split; cbn; intros; lia|].
  set (v := c :: v'). unfold Service.maskKey. fold v.
  change (match v with [] => Some v | _ => ?x end) with x.
  unfold repeat_unit.
  destruct (length v <=? 6)%nat eqn:E.
  - apply Nat.leb_le in E. eexists. split; [reflexivity|].
    rewrite repeat_length. repeat split; intros; lia.
  - apply Nat.leb_gt in E. eexists. split; [reflexivity|].
    assert (H3 : length (take 3 v) = 3%nat) by (rewrite length_take; lia).
    split; [|split; [intros; lia | intros _; split; [|split]]].
    + rewrite !length_app, H3, repeat_length, length_drop. lia.
    + rewrite take_app_length'; [reflexivity | now rewrite H3].
    + rewrite app_assoc.
      rewrite drop_app_length'; [reflexivity|].
      rewrite length_app, H3, repeat_length. lia.
    + rewrite drop_app_length' by (now rewrite H3).
      rewrite take_app_length'; [reflexivity | now rewrite repeat_length].
Qed.

Lemma trimmed_setting_string (s : jsstring) (binding : option jsstring) :
  Service.trimmed_setting (Some (VString s)) binding
  = Service.Returns (Some (trim s)).
Proof. reflexivity. Qed.

(** X23. Credentials typed into the settings take precedence over those of
    the environment, even when they are blank: with a string stored for the
    key and for the secret, [resolveCredentials] never reads the bindings
    [BINANCE_API_KEY] and [BINANCE_API_SECRET]; it answers null when either
    string is blank after trimming, and otherwise, if it answers, the
    answer carries the two trimmed strings. *)
Theorem resolveCredentials_inline_first (Number : jsstring -> number)
    (env : Service.AppBindings.t) (settings : gmap jsstring jsval)
    (key secret : jsstring) :
  settings !! lit "binanceApiKey" = Some (VString key) ->
  settings !! lit "binanceApiSecret" = Some (VString secret) ->
  (trim key = [] \/ trim secret = [] ->
   Service.resolveCredentials Number env settings = Service.Returns None)
  /\ (trim key <> [] -> trim secret <> [] ->
      forall answer,
        Service.resolveCredentials Number env settings
        = Service.Returns answer ->
        exists c,
          answer = Some c
          /\ Service.ResolvedCredentials.apiKey c = trim key
          /\ Service.ResolvedCredentials.apiSecret c = trim secret
          /\ Service.ResolvedCredentials.baseUrl c <> Some []).
Proof.
  intros Hkey Hsecret. unfold Service.resolveCredentials.
  rewrite Hkey, Hsecret, !trimmed_setting_string.
  split.
  - intros [H | H]; rewrite H; [reflexivity|].
    now destruct (trim key).
  - intros Hk Hs answer.
    destruct (trim key) as [|k0 k]; [congruence|].
    destruct (trim secret) as [|s0 s]; [congruence|].
    cbv zeta.
    destruct (Service.trimmed_setting _ _) as [baseUrl|]; [|discriminate].
    intros [= <-]. eexists. split; [reflexivity|]. cbn.
    repeat split. now destruct baseUrl as [[|]|].
Qed.

Lemma resolveCredentials_inline_first_witness :
  Service.resolveCredentials (fun _ => NaN)
    (Service.AppBindings.mk (Some (lit "live-key")) (Some (lit "live-secret"))
       None None None)
    (<[lit "binanceApiKey" := VString (lit "  ")]> State.defaultSettings)
  = Service.Returns None.
Proof.
  assert (Hkey :
            <[lit "binanceApiKey" := VString (lit "  ")]> State.defaultSettings
              !! lit "binanceApiKey" = Some (VString (lit "  ")))
    by apply lookup_insert_eq.
  assert (Hsecret :
            <[lit "binanceApiKey" := VString (lit "  ")]> State.defaultSettings
              !! lit "binanceApiSecret" = Some (VString (lit "demo-secret")))
    by (vm_compute; reflexivity).
  apply (proj1 (resolveCredentials_inline_first (fun _ => NaN)
                  (Service.AppBindings.mk (Some (lit "live-key"))
                     (Some (lit "live-secret")) None None None)
                  (<[lit "binanceApiKey" := VString (lit "  ")]>
                     State.defaultSettings)
                  (lit "  ") (lit "demo-secret") Hkey Hsecret)).
  left. reflexivity.
Defined.

(** ** Secrets on the settings route *)

Lemma startsWith_includes (s sub : jsstring) :
  startsWith s sub = true -> includes s sub = true.
Proof. intros H. destruct s; cbn [includes]; now rewrite H. Qed.

Lemma maskSecret_starts_with_bullet (c : N) (s : jsstring) :
  exists rest, Routes.maskSecret (Some (c :: s)) = 8226%N :: rest.
Proof.
  unfold Routes.maskSecret, repeat_unit.
  destruct (length (c :: s) <=? 4)%nat eqn:E.
  - cbn [length repeat]. eexists. reflexivity.
  - apply Nat.leb_gt in E.
    destruct (Nat.max (length (c :: s) - 4) 0) as [|n] eqn:En; [lia|].
    cbn [repeat app]. eexists. reflexivity.
Qed.

Lemma maskSecret_is_placeholder (c : N) (s : jsstring) :
  Routes.placeholder_value
    (Some (VString (Routes.maskSecret (Some (c :: s))))) = true.
Proof.
  destruct (maskSecret_starts_with_bullet c s) as [rest Hrest].
  rewrite Hrest. apply masked_secret_placeholder. left.
  apply startsWith_includes. now destruct rest.
Qed.

(** X24. [maskSecret] turns a missing or empty value into the empty string.
    The mask of a non-empty secret has the secret's length, starts with the
    bullet U+2022 and, when the secret is longer than four characters, ends
    with the secret's last four characters after bullets only; the route
    that receives it back always takes it for a placeholder. *)
Theorem maskSecret_shape (v : jsstring) :
  Routes.maskSecret None = []
  /\ Routes.maskSecret (Some []) = []
  /\ (v <> [] ->
      let m := Routes.maskSecret (Some v) in
      length m = length v
      /\ (exists rest, m = 8226%N :: rest)
      /\ Routes.placeholder_value (Some (VString m)) = true
      /\ ((length v <= 4)%nat -> m = repeat 8226%N (length v))
      /\ ((4 < length v)%nat ->
          m = repeat 8226%N (length v - 4) ++ drop (length v - 4) v)).
Proof.
  split; [reflexivity|]. split; [reflexivity|].
  intros Hv. destruct v as [|c s]; [congruence|]. cbv zeta.
  destruct (maskSecret_starts_with_bullet c s) as [rest Hrest].
  split; [|split; [|split; [|split]]].
  - unfold Routes.maskSecret, repeat_unit.
    destruct (length (c :: s) <=? 4)%nat eqn:E.
    + apply repeat_length.
    + apply Nat.leb_gt in E.
      rewrite length_app, repeat_length, length_drop. lia.
  - now exists rest.
  - apply maskSecret_is_placeholder.
  - intros Hle. unfold Routes.maskSecret, repeat_unit.
    apply Nat.leb_le in Hle. now rewrite Hle.
  - intros Hgt. unfold Routes.maskSecret, repeat_unit.
    apply Nat.leb_gt in Hgt. rewrite Hgt. now rewrite Nat.max_0_r.
Qed.

Lemma maskSecret_shape_witness :
  Routes.maskSecret (Some (lit "demo-secret"))
  = repeat 8226%N 7 ++ lit "cret".
Proof.
  apply (proj2 (proj2 (maskSecret_shape (lit "demo-secret")))).
  - intros E. vm_compute in E. discriminate E.
  - cbn. lia.
Defined.

Section SecretsOnWrite.

Variable env : Routes.AppBindings.

Lemma sanitize_key_lookup (body : gmap jsstring jsval) :
  Routes.sanitizeIncomingSettings body env !! lit "binanceApiKey"
  = if Routes.is_set (Routes.BINANCE_API_KEY env)
       || Routes.placeholder_value (body !! lit "binanceApiKey")
    then None
    else body !! lit "binanceApiKey".
Proof.
  unfold Routes.sanitizeIncomingSettings. cbv zeta.
  pose proof secret_keys_differ as Hd.
  destruct (Routes.is_set (Routes.BINANCE_API_KEY env)
            || Routes.placeholder_value (body !! lit "binanceApiKey"));
    match goal with
    | |- context [if ?b then _ else _] => destruct b
    end;
    rewrite ?(lookup_delete_ne _ (lit "binanceApiSecret")
                (lit "binanceApiKey")) by exact Hd;
    rewrite ?lookup_delete_eq; reflexivity.
Qed.

Lemma sanitize_secret_lookup (body : gmap jsstring jsval) :
  Routes.sanitizeIncomingSettings body env !! lit "binanceApiSecret"
  = if Routes.is_set (Routes.BINANCE_API_SECRET env)
       || Routes.placeholder_value (body !! lit "binanceApiSecret")
    then None
    else body !! lit "binanceApiSecret".
Proof.
  unfold Routes.sanitizeIncomingSettings. cbv zeta.
  pose proof secret_keys_differ as Hd.
  assert (Hd' : lit "binanceApiKey" <> lit "binanceApiSecret") by congruence.
  destruct (Routes.is_set (Routes.BINANCE_API_KEY env)
            || Routes.placeholder_value (body !! lit "binanceApiKey"));
    rewrite ?(lookup_delete_ne _ (lit "binanceApiKey")
                (lit "binanceApiSecret")) by exact Hd';
    destruct (Routes.is_set (Routes.BINANCE_API_SECRET env)
              || Routes.placeholder_value (body !! lit "binanceApiSecret"));
    rewrite ?lookup_delete_eq;
    rewrite ?(lookup_delete_ne _ (lit "binanceApiKey")
                (lit "binanceApiSecret")) by exact Hd';
    reflexivity.
Qed.

End SecretsOnWrite.




Lemma secrets_are_not_proto :
  lit "binanceApiKey" <> lit "__proto__"
  /\ lit "binanceApiSecret" <> lit "__proto__".
Proof. split; intros E; vm_compute in E; discriminate E. Qed.






(** X26. A secret provided by the environment is locked: with the binding
    [BINANCE_API_KEY] set, no [PUT /api/settings] changes the stored key,
    whatever the body holds, and likewise for the secret.  Without the
    binding, a submitted string that is no placeholder replaces a stored
    string. *)
Theorem environment_locks_secret (Number : jsstring -> number)
    (k : State.Stamp) (env : Routes.AppBindings) (st : State.Store)
    (body : gmap jsstring jsval) :
  let st' := snd (Routes.put_settings Number k env st body) in
  (Routes.is_set (Routes.BINANCE_API_KEY env) = true ->
   State.settings st' !! lit "binanceApiKey"
   = State.settings st !! lit "binanceApiKey")
  /\ (Routes.is_set (Routes.BINANCE_API_SECRET env) = true ->
      State.settings st' !! lit "binanceApiSecret"
      = State.settings st !! lit "binanceApiSecret")
  /\ (forall old new,
         Routes.is_set (Routes.BINANCE_API_KEY env) = false ->
         State.settings st !! lit "binanceApiKey" = Some (VString old) ->
         body !! lit "binanceApiKey" = Some (VString new) ->
         Routes.placeholder_value (Some (VString new)) = false ->
         State.settings st' !! lit "binanceApiKey" = Some (VString new)).
Proof.
  cbv zeta. unfold Routes.put_settings.
  split; [|split].
  - intros Hset.
    rewrite updateSettings_lookup by apply secrets_are_not_proto.
    now rewrite sanitize_key_lookup, Hset.
  - intros Hset.
    rewrite updateSettings_lookup by apply secrets_are_not_proto.
    now rewrite sanitize_secret_lookup, Hset.
  - intros old new Hunset Hold Hnew Hplain.
    rewrite updateSettings_lookup by apply secrets_are_not_proto.
    now rewrite sanitize_key_lookup, Hunset, Hnew, Hplain, Hold.
Qed.

Lemma environment_locks_secret_witness :
  State.settings
    (snd (Routes.put_settings (fun _ => NaN) Spec.sample_stamp
            (Routes.mkEnv (Some (lit "live-key")) None None None None)
            Spec.seed
            {[ lit "binanceApiKey" := VString (lit "another-key") ]}))
    !! lit "binanceApiKey"
  = State.settings Spec.seed !! lit "binanceApiKey".
Proof.
  apply (proj1 (environment_locks_secret (fun _ => NaN) Spec.sample_stamp
                  (Routes.mkEnv (Some (lit "live-key")) None None None None)
                  Spec.seed
                  {[ lit "binanceApiKey" := VString (lit "another-key") ]})).
  reflexivity.
Defined.

(** ** The signing client *)

Lemma byte_hex_all :
  forallb
    (fun n =>
       bool_decide
         (BinanceClient.padStart0 2 (BinanceClient.toString16 (N.of_nat n))
          = [BinanceClient.hex_char (N.of_nat n / 16);
             BinanceClient.hex_char (N.of_nat n mod 16)])
       && bool_decide
            (Spec.hex_digit_value (BinanceClient.hex_char (N.of_nat n / 16))
             = Some (N.of_nat n / 16)%N)
       && bool_decide
            (Spec.hex_digit_value (BinanceClient.hex_char (N.of_nat n mod 16))
             = Some (N.of_nat n mod 16)%N))
    (seq 0 256)
  = true.
Proof. vm_compute. reflexivity. Qed.

Lemma byte_hex (b : N) :
  (b < 256)%N ->
  BinanceClient.padStart0 2 (BinanceClient.toString16 b)
  = [BinanceClient.hex_char (b / 16); BinanceClient.hex_char (b mod 16)]
  /\ Spec.hex_digit_value (BinanceClient.hex_char (b / 16)) = Some (b / 16)%N
  /\ Spec.hex_digit_value (BinanceClient.hex_char (b mod 16))
     = Some (b mod 16)%N.
Proof.
  intros Hb. pose proof byte_hex_all as H.
  rewrite forallb_forall in H. specialize (H (N.to_nat b)).
  rewrite N2Nat.id in H.
  assert (Hin : In (N.to_nat b) (seq 0 256)) by (apply in_seq; lia).
  apply H in Hin. apply andb_prop in Hin. destruct Hin as [Hin H3].
  apply andb_prop in Hin. destruct Hin as [H1 H2].
  apply bool_decide_eq_true_1 in H1, H2, H3. auto.
Qed.

Lemma bufferToHex_from (bytes : list N) (hex : jsstring) :
  fold_left
    (fun hex byte =>
       hex ++ BinanceClient.padStart0 2 (BinanceClient.toString16 byte))
    bytes hex
  = hex ++ BinanceClient.bufferToHex bytes.
Proof.
  unfold BinanceClient.bufferToHex. revert hex.
  induction bytes as [|b rest IH]; intros hex; cbn [fold_left].
  - now rewrite app_nil_r.
  - rewrite IH, (IH ([] ++ _)). cbn [app]. now rewrite app_assoc.
Qed.

Lemma bufferToHex_cons (b : N) (rest : list N) :
  BinanceClient.bufferToHex (b :: rest)
  = BinanceClient.padStart0 2 (BinanceClient.toString16 b)
    ++ BinanceClient.bufferToHex rest.
Proof.
  unfold BinanceClient.bufferToHex at 1. cbn [fold_left app].
  apply bufferToHex_from.
Qed.

(** X27. On bytes (numbers below 256) [bufferToHex] writes two lower-case
    hexadecimal digits per byte, high digit first, so that the text has
    twice the length of the buffer and decodes back to the same bytes. *)
Theorem bufferToHex_round_trip (bytes : list N) :
  Forall (fun b => (b < 256)%N) bytes ->
  length (BinanceClient.bufferToHex bytes) = (2 * length bytes)%nat
  /\ Spec.hex_decode (BinanceClient.bufferToHex bytes) = Some bytes.
Proof.
  induction 1 as [|b rest Hb _ [IHlen IHdec]]; [split; reflexivity|].
  rewrite bufferToHex_cons.
  destruct (byte_hex b Hb) as (-> & Hhigh & Hlow).
  split.
  - cbn [app length]. rewrite IHlen. lia.
  - cbn [app Spec.hex_decode]. rewrite Hhigh, Hlow, IHdec.
    do 2 f_equal. rewrite N.mul_comm. symmetry. rewrite N.add_comm.
    rewrite N.add_comm, N.mul_comm. apply N.div_mod. lia.
Qed.

Lemma bufferToHex_round_trip_witness :
  length (BinanceClient.bufferToHex [0; 10; 171; 255]%N) = 8%nat
  /\ Spec.hex_decode (BinanceClient.bufferToHex [0; 10; 171; 255]%N)
     = Some [0; 10; 171; 255]%N.
Proof.
  apply (bufferToHex_round_trip [0; 10; 171; 255]%N).
  repeat constructor.
Defined.

Section SearchParams.

Variable name : jsstring.

Lemma sp_set_absent (value : jsstring) (l : list (jsstring * jsstring)) :
  BinanceClient.sp_has name l = false ->
  BinanceClient.sp_set name value l = l ++ [(name, value)].
Proof.
  unfold BinanceClient.sp_has.
  induction l as [|p rest IH]; [reflexivity|].
  cbn [existsb BinanceClient.sp_set app]. intros H.
  apply orb_false_elim in H. destruct H as [Hp Hrest].
  rewrite Hp. now rewrite IH.
Qed.

Lemma sp_set_has (value : jsstring) (l : list (jsstring * jsstring)) :
  In (name, value) (BinanceClient.sp_set name value l)
  /\ forall v, In (name, v) (BinanceClient.sp_set name value l) -> v = value.
Proof.
  induction l as [|p rest [IH1 IH2]].
  - cbn. split; [now left|]. intros v [H|[]]. congruence.
  - cbn [BinanceClient.sp_set].
    destruct (bool_decide (fst p = name)) eqn:E.
    + split; [now left|]. intros v [H|H]; [congruence|].
      apply filter_In in H. destruct H as [_ H]. cbn [fst] in H.
      now rewrite bool_decide_eq_true_2 in H.
    + split; [now right|]. intros v [H|H]; [|now apply IH2].
      apply bool_decide_eq_false_1 in E. subst p. now cbn in E.
Qed.

Lemma sp_set_other (value : jsstring) (l : list (jsstring * jsstring))
    (p : jsstring * jsstring) :
  fst p <> name ->
  In p (BinanceClient.sp_set name value l) <-> In p l.
Proof.
  intros Hp. induction l as [|q rest IH].
  - cbn. split; [intros [H|[]]; subst p; now cbn in Hp | intros []].
  - cbn [BinanceClient.sp_set].
    destruct (bool_decide (fst q = name)) eqn:E.
    + apply bool_decide_eq_true_1 in E. cbn [In]. rewrite filter_In.
      split.
      * intros [H|[H _]]; [subst p; now cbn in Hp | now right].
      * intros [H|H]; [subst q; congruence|].
        right. split; [exact H|]. now rewrite bool_decide_eq_false_2.
    + cbn [In]. now rewrite IH.
Qed.

End SearchParams.

Lemma sp_has_In (name : jsstring) (l : list (jsstring * jsstring)) :
  BinanceClient.sp_has name l = true <-> exists v, In (name, v) l.
Proof.
  unfold BinanceClient.sp_has. rewrite existsb_exists. split.
  - intros ([k v] & Hin & Hk). apply bool_decide_eq_true_1 in Hk.
    cbn in Hk. subst k. now exists v.
  - intros [v Hv]. exists (name, v). split; [exact Hv|].
    now apply bool_decide_eq_true_2.
Qed.

Lemma collect_params_In (rt : BinanceClient.Runtime)
    (params : list (jsstring * option BinanceClient.param_value)) :
  forall (acc : list (jsstring * jsstring)) (p : jsstring * jsstring),
    In p (BinanceClient.collect_params rt params acc)
    <-> In p acc
        \/ exists v,
             In (fst p, Some v) params
             /\ snd p = BinanceClient.String_of rt v.
Proof.
  induction params as [|[key [value|]] rest IH]; intros acc p;
    cbn [BinanceClient.collect_params].
  - split; [now left | intros [H|(v & [] & _)]; exact H].
  - rewrite IH. unfold BinanceClient.sp_append. rewrite in_app_iff.
    cbn [In]. split.
    + intros [[H|[H|[]]]|(v & Hin & Hs)].
      * now left.
      * right. subst p. exists value. split; [now left | reflexivity].
      * right. exists v. split; [now right | exact Hs].
    + intros [H|(v & [H|Hin] & Hs)].
      * now left; left.
      * injection H as Hk Hv. subst value. left; right; left.
        destruct p as [k s]. cbn in *. congruence.
      * right. now exists v.
  - rewrite IH. split.
    + intros [H|(v & Hin & Hs)]; [now left|].
      right. exists v. split; [now right | exact Hs].
    + intros [H|(v & [H|Hin] & Hs)]; [now left | discriminate H |].
      right. now exists v.
Qed.

Lemma request_keys_differ :
  lit "timestamp" <> lit "signature"
  /\ lit "recvWindow" <> lit "signature"
  /\ lit "recvWindow" <> lit "timestamp".
Proof. repeat split; intros E; vm_compute in E; discriminate E. Qed.

(** X28. A signed request whose parameters hold no [signature] sends its
    parameters followed by the signature, which is computed over exactly
    the other parameters as they are sent.  The parameters sent hold every
    defined parameter of the caller and none of the undefined ones; the
    [timestamp] sent is the clock reading, also when the caller gave one,
    and the [recvWindow] is the client's when the caller gave none. *)
Theorem signed_request_shape (rt : BinanceClient.Runtime)
    (c : BinanceClient.Instance) (o : BinanceClient.RequestOptions.t) :
  BinanceClient.RequestOptions.signed o = true ->
  Forall (fun p => fst p <> lit "signature")
         (BinanceClient.RequestOptions.params o) ->
  exists payload,
    BinanceClient.request_params rt c o
    = payload
      ++ [(lit "signature",
           BinanceClient.sign rt c (BinanceClient.form_urlencode rt payload))]
    /\ (forall key text,
           In (key, text) payload ->
           (key = lit "timestamp"
            /\ text = BinanceClient.number_toString rt
                        (Fin (inject_Z (BinanceClient.Date_now rt))))
           \/ (key = lit "recvWindow"
               /\ text = BinanceClient.number_toString rt
                           (BinanceClient.recvWindow c))
           \/ exists v,
                In (key, Some v) (BinanceClient.RequestOptions.params o)
                /\ text = BinanceClient.String_of rt v)
    /\ (forall text,
           In (lit "timestamp", text) payload
           <-> text = BinanceClient.number_toString rt
                        (Fin (inject_Z (BinanceClient.Date_now rt))))
    /\ (forall key v,
           In (key, Some v) (BinanceClient.RequestOptions.params o) ->
           key <> lit "timestamp" ->
           In (key, BinanceClient.String_of rt v) payload)
    /\ ((forall v,
            ~ In (lit "recvWindow", Some v)
                 (BinanceClient.RequestOptions.params o)) ->
        forall text,
          In (lit "recvWindow", text) payload
          <-> text = BinanceClient.number_toString rt
                       (BinanceClient.recvWindow c)).
Proof.
  intros Hsigned Hnosig. unfold BinanceClient.request_params.
  rewrite Hsigned. cbv zeta.
  destruct request_keys_differ as (Hts & Hrs & Hrt).
  set (now_ := BinanceClient.number_toString rt
                 (Fin (inject_Z (BinanceClient.Date_now rt)))).
  set (window := BinanceClient.number_toString rt
                   (BinanceClient.recvWindow c)).
  set (sp0 := BinanceClient.collect_params rt
                (BinanceClient.RequestOptions.params o) []).
  set (sp1 := BinanceClient.sp_set (lit "timestamp") now_ sp0).
  set (payload :=
         if BinanceClient.sp_has (lit "recvWindow") sp1 then sp1
         else BinanceClient.sp_set (lit "recvWindow") window sp1).
  assert (H0 : forall p, In p sp0 <->
                 exists v,
                   In (fst p, Some v) (BinanceClient.RequestOptions.params o)
                   /\ snd p = BinanceClient.String_of rt v).
  { intros p. unfold sp0. rewrite collect_params_In. cbn [In]. tauto. }
  assert (H1 : forall key text,
             In (key, text) sp1 <->
             (key = lit "timestamp" /\ text = now_)
             \/ (key <> lit "timestamp" /\ In (key, text) sp0)).
  { intros key text. destruct (decide (key = lit "timestamp")) as [->|Hk].
    - destruct (sp_set_has (lit "timestamp") now_ sp0) as [Hin Huniq].
      split.
      + intros H. left. split; [reflexivity | now apply Huniq].
      + intros [[_ ->]|[Hne _]]; [exact Hin | congruence].
    - unfold sp1. rewrite (sp_set_other (lit "timestamp") now_ sp0 (key, text))
        by exact Hk.
      split; [intros H; right; now split | intros [[H _]|[_ H]]];
        [congruence | exact H]. }
  assert (H2 : forall key text,
             In (key, text) payload <->
             In (key, text) sp1
             \/ (BinanceClient.sp_has (lit "recvWindow") sp1 = false
                 /\ key = lit "recvWindow" /\ text = window)).
  { intros key text. unfold payload.
    destruct (BinanceClient.sp_has (lit "recvWindow") sp1) eqn:E.
    - split; [now left | intros [H|[H _]]; [exact H | discriminate H]].
    - rewrite (sp_set_absent _ _ _ E), in_app_iff. cbn [In].
      split.
      + intros [H|[H|[]]]; [now left|]. right. injection H as <- <-. auto.
      + intros [H|(_ & -> & ->)]; [now left | right; now left]. }
  assert (Hsig : BinanceClient.sp_has (lit "signature") payload = false).
  { destruct (BinanceClient.sp_has (lit "signature") payload) eqn:E;
      [|reflexivity].
    apply sp_has_In in E. destruct E as [text E].
    apply H2 in E. destruct E as [E|(_ & E & _)]; [|congruence].
    apply H1 in E. destruct E as [[E _]|[_ E]]; [congruence|].
    apply H0 in E. destruct E as (v & E & _). cbn [fst] in E.
    rewrite Forall_forall in Hnosig.
    apply list_elem_of_In in E. apply Hnosig in E. now cbn in E. }
  exists payload. split; [now apply sp_set_absent|].
  split; [|split; [|split]].
  - intros key text H. apply H2 in H.
    destruct H as [H|(_ & -> & ->)]; [|right; left; now split].
    apply H1 in H. destruct H as [[-> ->]|[_ H]]; [left; now split|].
    right; right. apply H0 in H. exact H.
  - intros text. rewrite H2, H1. split.
    + intros [[[_ H]|[H _]]|(_ & H & _)]; congruence.
    + intros ->. left; left. now split.
  - intros key v Hin Hkey. apply H2. left. apply H1. right.
    split; [exact Hkey|]. apply H0. now exists v.
  - intros Hnone text. rewrite H2, H1.
    assert (Hsp1 : BinanceClient.sp_has (lit "recvWindow") sp1 = false).
    { destruct (BinanceClient.sp_has (lit "recvWindow") sp1) eqn:E;
        [|reflexivity].
      apply sp_has_In in E. destruct E as [t E].
      apply H1 in E. destruct E as [[E _]|[_ E]]; [congruence|].
      apply H0 in E. destruct E as (v & E & _). now apply Hnone in E. }
    split.
    + intros [[[H _]|[_ H]]|(_ & _ & H)]; [congruence | | exact H].
      apply H0 in H. destruct H as (v & H & _). now apply Hnone in H.
    + intros ->. right. auto.
Qed.

Lemma signed_request_shape_witness :
  exists payload,
    BinanceClient.request_params Spec.sample_client_runtime
      Spec.sample_instance Spec.sample_order_request
    = payload
      ++ [(lit "signature",
           BinanceClient.sign Spec.sample_client_runtime Spec.sample_instance
             (BinanceClient.form_urlencode Spec.sample_client_runtime
                payload))]
    /\ In (lit "reduceOnly", lit "true") payload.
Proof.
  destruct (signed_request_shape Spec.sample_client_runtime
              Spec.sample_instance Spec.sample_order_request)
    as (payload & Hsent & _ & _ & Hkept & _).
  - reflexivity.
  - repeat constructor; intros E; vm_compute in E; discriminate E.
  - exists payload. split; [exact Hsent|].
    apply (Hkept (lit "reduceOnly") (BinanceClient.PBool true)).
    + cbn. auto.
    + intros E. vm_compute in E. discriminate E.
Defined.

(** X29. A response outside 200..299 always rejects the request, with the
    message [Binance API error (status): ] followed by the body or, for an
    empty body, the status text, even when the body is valid JSON.  A
    request is fulfilled only by a response in 200..299, with the parsed
    body or, for an empty body that is not declared as JSON, with the empty
    object; an empty body declared as JSON is handed to the parser. *)
Theorem settle_outcomes (JSON_parse : jsstring -> option jsval)
    (r : BinanceClient.Response.t) :
  let outcome := BinanceClient.settle JSON_parse r in
  (BinanceClient.Response.ok r = false ->
   outcome
   = BinanceClient.RejectedError
       (lit "Binance API error ("
        ++ digits (BinanceClient.Response.status r) ++ lit "): "
        ++ (match BinanceClient.Response.text r with
            | [] => BinanceClient.Response.statusText r
            | message => message
            end)))
  /\ (forall v,
         outcome = BinanceClient.Fulfilled v ->
         BinanceClient.Response.ok r = true
         /\ (JSON_parse (BinanceClient.Response.text r) = Some v
             \/ (BinanceClient.Response.text r = []
                 /\ v = VObject []
                 /\ includes
                      (default [] (BinanceClient.Response.contentType r))
                      (lit "application/json") = false)))
  /\ (BinanceClient.Response.ok r = true ->
      forall v,
        JSON_parse (BinanceClient.Response.text r) = Some v ->
        BinanceClient.Response.text r <> [] ->
        outcome = BinanceClient.Fulfilled v).
Proof.
  cbv zeta. unfold BinanceClient.settle. cbv zeta.
  destruct (BinanceClient.Response.ok r) eqn:Hok; cbn [negb].
  - split; [discriminate|]. split.
    + intros v.
      destruct (includes _ (lit "application/json")) eqn:Hjson.
      * destruct (JSON_parse _) as [v'|] eqn:Hp; [|discriminate].
        intros [= <-]. auto.
      * destruct (BinanceClient.Response.text r) as [|c text] eqn:Ht.
        -- intros [= <-]. split; [reflexivity|]. right. auto.
        -- destruct (JSON_parse (c :: text)) as [v'|] eqn:Hp; [|discriminate].
           intros [= <-]. auto.
    + intros _ v Hv Hne.
      destruct (includes _ (lit "application/json")).
      * now rewrite Hv.
      * destruct (BinanceClient.Response.text r) as [|c text];
          [congruence | now rewrite Hv].
  - split; [|split; [discriminate | discriminate]].
    intros _. now destruct (BinanceClient.Response.text r).
Qed.

Lemma settle_outcomes_witness :
  BinanceClient.settle (fun _ => Some VNull)
    (BinanceClient.Response.mk 400 (lit "Bad Request")
       (Some (lit "application/json")) (lit "{}"))
  = BinanceClient.RejectedError (lit "Binance API error (400): {}").
Proof.
  apply (proj1 (settle_outcomes (fun _ => Some VNull)
                  (BinanceClient.Response.mk 400 (lit "Bad Request")
                     (Some (lit "application/json")) (lit "{}")))).
  reflexivity.
Defined.

(** ** Quantity strings of closing orders *)

(** X30. For a positive quantity below ten million that is a whole number
    of 10^-8 units and not a whole multiple of 10, [normalizeQuantity]
    writes a decimal numeral that denotes the quantity. *)
Theorem normalizeQuantity_denotes_quantity (q : Q) (n : N) :
  (0 < n)%N -> (n < 10 ^ 15)%N -> (n mod 10 ^ 9 <> 0)%N ->
  q == Spec.units n ->
  exists v,
    Spec.decimal_value (Service.normalizeQuantity q) = Some v /\ v == q.
Proof.
  intros Hpos _ Hslip Hq. now apply (normalizeQuantity_units n).
Qed.

Lemma normalizeQuantity_denotes_quantity_witness :
  exists v,
    Spec.decimal_value (Service.normalizeQuantity 12.5) = Some v
    /\ v == 12.5.
Proof.
  apply (normalizeQuantity_denotes_quantity 12.5 1250000000%N).
  - reflexivity.
  - reflexivity.
  - vm_compute. discriminate.
  - reflexivity.
Defined.
